(** * sovereign-vote: submission intake and aggregate ledger

    A shallow embedding of the two Worker entry points of the repository,
    [src/worker.js] (module [Worker]) and [src/unnamed/part_000] (module
    [Part000]), with the storage statements they issue, followed by the
    properties of the intake protocol.

    Conventions of the embedding
    - a JavaScript string is carried by its UTF-8 bytes (the bytes that
      [TextEncoder] hands to the digest);
    - a JSON number is carried by its [Number::toString] rendering: the
      handlers take it for true or false, write it into a template
      literal, or bind it;
    - the D1 database is the content of the three tables that the text
      of [ensureSchema] describes, which exist.  A cell of a TEXT column
      holds a text or a BLOB: a bound string is stored as it is, [bind]
      refuses an object (D1_TYPE_ERROR), and what the column holds for a
      bound number, boolean or array is left to the engine (class
      [Rendering]).  [exec] of D1 takes one statement per line and
      rejects a statement that runs over several, as the text of
      [ensureSchema] has them (D1_EXEC_ERROR).  An INTEGER cell is read
      back as a JavaScript number, the nearest double;
    - every [await] on a prepared statement is one atomic step of the
      storage layer; the clock is an argument of the handlers. *)

From Stdlib Require Import ZArith List String Ascii Bool Lia.
From Stdlib Require Import Floats Uint63.
From stdpp Require Import gmap strings list.
Import ListNotations.
Local Open Scope string_scope.
Local Open Scope list_scope.
Local Open Scope Z_scope.

(* ===================================================================== *)
(** ** The digest primitive: SHA-256 (FIPS 180-4) on byte lists *)
(* ===================================================================== *)

Module SHA256.

Definition word (x : Z) : Z := Z.land x 0xffffffff.
Definition add32 (x y : Z) : Z := word (x + y).
Definition rotr (n x : Z) : Z :=
  Z.lor (Z.shiftr x n) (word (Z.shiftl x (32 - n))).
Definition not32 (x : Z) : Z := Z.lxor x 0xffffffff.

Definition Ch (x y z : Z) : Z := Z.lxor (Z.land x y) (Z.land (not32 x) z).
Definition Maj (x y z : Z) : Z :=
  Z.lxor (Z.lxor (Z.land x y) (Z.land x z)) (Z.land y z).
Definition Sigma0 (x : Z) : Z :=
  Z.lxor (Z.lxor (rotr 2 x) (rotr 13 x)) (rotr 22 x).
Definition Sigma1 (x : Z) : Z :=
  Z.lxor (Z.lxor (rotr 6 x) (rotr 11 x)) (rotr 25 x).
Definition sigma0 (x : Z) : Z :=
  Z.lxor (Z.lxor (rotr 7 x) (rotr 18 x)) (Z.shiftr x 3).
Definition sigma1 (x : Z) : Z :=
  Z.lxor (Z.lxor (rotr 17 x) (rotr 19 x)) (Z.shiftr x 10).

(** The primes, by trial division. *)
Fixpoint primes_from (fuel : nat) (candidate : Z) (found : list Z) (n : nat)
  : list Z :=
  match fuel, n with
  | S fuel', S n' =>
      if forallb (fun p => negb (candidate mod p =? 0)) found
      then primes_from fuel' (candidate + 1) (candidate :: found) n'
      else primes_from fuel' (candidate + 1) found n
  | _, _ => rev found
  end.

Definition primes (n : nat) : list Z := primes_from 400 2 [] n.

(** The integer cube root below 2^[bits], bit by bit from the top. *)
Fixpoint cbrt_bits (bits : nat) (x root : Z) : Z :=
  match bits with
  | O => root
  | S bits' =>
      let next := Z.lor root (Z.shiftl 1 (Z.of_nat bits')) in
      if next * next * next <=? x then cbrt_bits bits' x next
      else cbrt_bits bits' x root
  end.

(** The first 32 bits of the fractional part of the square root and of
    the cube root of [p]. *)
Definition frac_sqrt (p : Z) : Z := word (Z.sqrt (p * 2 ^ 64)).
Definition frac_cbrt (p : Z) : Z := word (cbrt_bits 40 (p * 2 ^ 96) 0).

(** The round constants: from the cube roots of the first 64 primes. *)
Definition K : list Z := Eval vm_compute in map frac_cbrt (primes 64).

Record state := State
  { ha : Z; hb : Z; hc : Z; hd : Z; he : Z; hf : Z; hg : Z; hh : Z }.

(** The initial hash value: from the square roots of the first 8 primes. *)
Definition H0 : state :=
  Eval vm_compute in
    match map frac_sqrt (primes 8) with
    | [a; b; c; d; e; f; g; h] => State a b c d e f g h
    | _ => State 0 0 0 0 0 0 0 0
    end.

(** The [n] low bytes of [x], most significant first. *)
Definition be_bytes (n : nat) (x : Z) : list Z :=
  map (fun i => Z.land (Z.shiftr x (8 * Z.of_nat i)) 0xff) (rev (seq 0 n)).

(** Padding: 0x80, zeros up to 56 modulo 64, the bit length on 8 bytes. *)
Definition pad (msg : list Z) : list Z :=
  let len := Z.of_nat (List.length msg) in
  let zeros := Z.to_nat ((55 - len) mod 64) in
  msg ++ 0x80 :: repeat 0 zeros ++ be_bytes 8 (8 * len).

Fixpoint be_words (fuel : nat) (bs : list Z) : list Z :=
  match fuel, bs with
  | S fuel', b0 :: b1 :: b2 :: b3 :: rest =>
      (Z.shiftl b0 24 + Z.shiftl b1 16 + Z.shiftl b2 8 + b3)
        :: be_words fuel' rest
  | _, _ => []
  end.

(** The message schedule, newest word first: position [i] of [recent]
    holds W[t-1-i]. *)
Fixpoint schedule (n : nat) (recent : list Z) : list Z :=
  match n with
  | O => recent
  | S n' =>
      let w := add32 (add32 (sigma1 (nth 1 recent 0)) (nth 6 recent 0))
                     (add32 (sigma0 (nth 14 recent 0)) (nth 15 recent 0)) in
      schedule n' (w :: recent)
  end.

Definition round (s : state) (kw : Z * Z) : state :=
  let t1 := add32 (add32 (add32 (hh s) (Sigma1 (he s)))
                         (Ch (he s) (hf s) (hg s)))
                  (add32 (fst kw) (snd kw)) in
  let t2 := add32 (Sigma0 (ha s)) (Maj (ha s) (hb s) (hc s)) in
  State (add32 t1 t2) (ha s) (hb s) (hc s)
        (add32 (hd s) t1) (he s) (hf s) (hg s).

Definition compress (h : state) (block : list Z) : state :=
  let w := rev (schedule 48 (rev block)) in
  let s := fold_left round (combine K w) h in
  State (add32 (ha h) (ha s)) (add32 (hb h) (hb s)) (add32 (hc h) (hc s))
        (add32 (hd h) (hd s)) (add32 (he h) (he s)) (add32 (hf h) (hf s))
        (add32 (hg h) (hg s)) (add32 (hh h) (hh s)).

Fixpoint blocks (fuel : nat) (ws : list Z) (h : state) : state :=
  match fuel, ws with
  | S fuel', _ :: _ => blocks fuel' (skipn 16 ws) (compress h (firstn 16 ws))
  | _, _ => h
  end.

Definition digest (msg : list Z) : list Z :=
  let bs := pad msg in
  let ws := be_words (List.length bs) bs in
  let h := blocks (List.length ws) ws H0 in
  flat_map (be_bytes 4) [ha h; hb h; hc h; hd h; he h; hf h; hg h; hh h].

End SHA256.

(** [new TextEncoder().encode(str)] *)
Definition encode (str : string) : list Z :=
  map (fun c => Z.of_N (N_of_ascii c)) (list_ascii_of_string str).

Definition hex_digit (d : Z) : ascii :=
  nth (Z.to_nat d) (list_ascii_of_string "0123456789abcdef") "0"%char.

(** [b.toString(16).padStart(2, "0")] for a byte [b] *)
Definition hex2 (b : Z) : string :=
  String (hex_digit (Z.shiftr b 4)) (String (hex_digit (Z.land b 0xf)) "").

(** [sha256(str)]: both entry points define it with the same body. *)
Definition sha256 (str : string) : string :=
  String.concat "" (map hex2 (SHA256.digest (encode str))).

(** [s.slice(0, n)] on a string of one-byte characters *)
Definition slice0 (n : nat) (s : string) : string := String.substring 0 n s.

(* ===================================================================== *)
(** ** JavaScript values as [request.json()] delivers them *)
(* ===================================================================== *)

#[local] Set Warnings "-register-all".

(** [VObj] lists the own properties of an object, each key once, and
    [VUndefined] is what reading an absent property yields. *)
Inductive value : Type :=
| VUndefined
| VNull
| VBool (b : bool)
| VNum (repr : string)
| VStr (s : string)
| VArr (items : list value)
| VObj (fields : list (string * value)).

(** [!!v] *)
Definition truthy (v : value) : bool :=
  match v with
  | VUndefined | VNull => false
  | VBool b => b
  | VNum repr => negb (String.eqb repr "0")
  | VStr s => negb (String.eqb s "")
  | VArr _ | VObj _ => true
  end.

Definition typeof (v : value) : string :=
  match v with
  | VUndefined => "undefined"
  | VBool _ => "boolean"
  | VNum _ => "number"
  | VStr _ => "string"
  | VNull | VArr _ | VObj _ => "object"
  end.

Fixpoint assoc (k : string) (fields : list (string * value)) : option value :=
  match fields with
  | [] => None
  | (k', v) :: rest => if String.eqb k k' then Some v else assoc k rest
  end.

(** [v.k] for the field names the handlers read.  None of them is a
    property of an array, a string, a number or a boolean, so only an
    object can hold one.  On [null] and [undefined] JavaScript throws;
    the handlers reach a plain access only behind a guard that excludes
    both (lemma [validated_is_object]), and [prop] answers [undefined]
    there. *)
Definition prop (v : value) (k : string) : value :=
  match v with
  | VObj fields => default VUndefined (assoc k fields)
  | _ => VUndefined
  end.

(** [v?.k] *)
Definition chain (v : value) (k : string) : value :=
  match v with
  | VUndefined | VNull => VUndefined
  | _ => prop v k
  end.

(** [a || b] *)
Definition or_else (a b : value) : value := if truthy a then a else b.

(** ToString, as a template literal applies it.  An object that carries an
    own [toString] entry (never callable in parsed JSON) has no primitive
    value: the conversion throws, rendered [None]. *)
Fixpoint toString (v : value) : option string :=
  match v with
  | VUndefined => Some "undefined"
  | VNull => Some "null"
  | VBool true => Some "true"
  | VBool false => Some "false"
  | VNum repr => Some repr
  | VStr s => Some s
  | VArr items =>
      (fix join (xs : list value) : option string :=
         match xs with
         | [] => Some ""
         | x :: rest =>
             let piece :=
               match x with
               | VUndefined | VNull => Some ""
               | _ => toString x
               end in
             match rest with
             | [] => piece
             | _ :: _ => p ← piece; r ← join rest; Some (p +:+ "," +:+ r)
             end
         end) items
  | VObj fields =>
      match assoc "toString" fields with
      | Some _ => None
      | None => Some "[object Object]"
      end
  end.


(* ===================================================================== *)
(** ** The storage layer: three tables and the statements issued on them *)
(* ===================================================================== *)

(** What a cell of a TEXT column holds: a text, or the bytes of a
    BLOB. *)
Inductive cell : Type :=
| CellText (s : string)
| CellBlob (bytes : list Z).

#[global] Instance cell_eq_dec : EqDecision cell.
Proof. solve_decision. Defined.

(** The equality of [WHERE region = ?] and of [ON CONFLICT(region)]. *)
Definition cell_eqb (a b : cell) : bool := bool_decide (a = b).

(** What a TEXT column holds for a value bound to it that is neither a
    string nor an object: a number (for SQLite, the text of a REAL), a
    boolean, an array (for D1, the BLOB of an array of bytes); [None]
    where [bind] refuses the value.  It is left to the engine: all that
    is proved below holds whatever it is. *)
Class Rendering := written : value → option cell.

(** [.bind(v)] for a TEXT column: a string is stored as it is, an object
    is refused (D1_TYPE_ERROR).  The handlers bind [v || "Unknown"],
    never [null] or [undefined]. *)
Definition stored `{Rendering} (v : value) : option cell :=
  match v with
  | VStr s => Some (CellText s)
  | VObj _ => None
  | VUndefined | VNull | VBool _ | VNum _ | VArr _ => written v
  end.

(** A row of [submissions].  [payload_json] is [JSON.stringify(payload)];
    the row keeps the value that the text renders. *)
Record submission := Submission
  { receipt_id : string;
    dedupe_key : string;
    created_utc : string;
    region : cell;
    payload_json : value }.

(** A row of [region_counts]. *)
Record region_count := RegionCount
  { rc_region : cell;
    rc_total : Z;
    rc_approve_yes : Z }.

(** [aggregates] has its key column [k] as primary key: a finite map from
    [k] to the integer [v].  The two other tables are kept in row order. *)
Record DB := MkDB
  { submissions : list submission;
    aggregates : gmap string Z;
    region_counts : list region_count }.

Definition empty_db : DB := MkDB [] ∅ [].

(** What a handler can throw: a TypeError of JavaScript, the refusal of an
    insert by a uniqueness constraint, the rejection of [exec], the
    refusal of a parameter by [bind]. *)
Inductive exn : Type :=
| TypeError
| ConstraintFailed
| D1ExecError
| D1TypeError.

(** The statements of the two entry points, indexed by the type of what
    the awaited call yields. *)
Inductive stmt : Type → Type :=
| EnsureSchema : stmt unit
| SelectReceipt (dedupeKey : string) : stmt (option string)
| InsertSubmission (receiptId dedupeKey now : string) (r : value)
                   (payload : value) : stmt unit
| IncAggregate (key : string) : stmt unit
| InsertRegionIfAbsent (r : value) : stmt unit
| UpdateRegion (approve : Z) (r : value) : stmt unit
| UpsertRegion (r : value) (approve approve' : Z) : stmt unit
| SelectAggregates : stmt (list (string * Z))
| SelectRegionCounts : stmt (list region_count).

Definition has_region (r : cell) (rows : list region_count) : bool :=
  existsb (fun rc => cell_eqb (rc_region rc) r) rows.

(** [UPDATE region_counts SET total = total + 1,
    approve_yes = approve_yes + ? WHERE region = ?] *)
Definition bump_region (r : cell) (approve : Z) (rows : list region_count)
  : list region_count :=
  map (fun rc =>
         if cell_eqb (rc_region rc) r
         then RegionCount (rc_region rc) (rc_total rc + 1)
                          (rc_approve_yes rc + approve)
         else rc) rows.

(** [INSERT (k, v) VALUES (?, 1) ON CONFLICT(k) DO UPDATE SET v = v + 1] *)
Definition inc_row (key : string) (agg : gmap string Z) : gmap string Z :=
  <[key := match agg !! key with
           | Some v => v + 1
           | None => 1
           end]> agg.

(** [INSERT (region, total, approve_yes) VALUES (?, 0, 0)
    ON CONFLICT(region) DO NOTHING] *)
Definition insert_region_if_absent (r : cell) (rows : list region_count)
  : list region_count :=
  if has_region r rows then rows else rows ++ [RegionCount r 0 0].

(** [INSERT (region, total, approve_yes) VALUES (?, 1, ?)
    ON CONFLICT(region) DO UPDATE SET total = total + 1,
    approve_yes = approve_yes + ?] *)
Definition upsert_region (r : cell) (approve approve' : Z)
    (rows : list region_count) : list region_count :=
  if has_region r rows then bump_region r approve' rows
  else rows ++ [RegionCount r 1 approve].

(** The uniqueness constraints of [submissions]:
    [receipt_id TEXT PRIMARY KEY, dedupe_key TEXT UNIQUE]. *)
Definition conflicts (row : submission) (rows : list submission) : bool :=
  existsb (fun old => String.eqb (receipt_id old) (receipt_id row)
                      || String.eqb (dedupe_key old) (dedupe_key row)) rows.

(** An INTEGER cell as D1 hands it to JavaScript: the nearest double, a
    tie going to the even neighbour; the integer itself up to 2^53. *)
Definition as_number (v : Z) : Z :=
  if Z.abs v <=? 2 ^ 53 then v
  else
    let k := Z.log2 (Z.abs v) - 52 in
    let q := Z.abs v / 2 ^ k in
    let r := Z.abs v mod 2 ^ k in
    let m := if 2 * r <? 2 ^ k then q
             else if 2 ^ k <? 2 * r then q + 1
             else if Z.even q then q else q + 1 in
    Z.sgn v * (m * 2 ^ k).

(* ===================================================================== *)
(** ** Asynchronous handlers *)
(* ===================================================================== *)

(** An [async] function body: it returns, throws, or awaits a statement and
    resumes with what the statement yielded. *)
Inductive proc (A : Type) : Type :=
| Done (a : A)
| Throw (e : exn)
| Await {R : Type} (s : stmt R) (k : R → proc A).
Arguments Done {A} a.
Arguments Throw {A} e.
Arguments Await {A R} s k.

Fixpoint proc_bind {A B : Type} (f : A → proc B) (m : proc A) : proc B :=
  match m with
  | Done a => f a
  | Throw e => Throw e
  | Await s k => Await s (fun r => proc_bind f (k r))
  end.

#[global] Instance proc_ret : MRet proc := fun _ a => Done a.
#[global] Instance proc_mbind : MBind proc := fun _ _ f m => proc_bind f m.

Definition await {R : Type} (s : stmt R) : proc R := Await s Done.

(** What a call of a handler comes to. *)
Inductive outcome (A : Type) : Type :=
| Returned (a : A)
| Threw (e : exn).
Arguments Returned {A} a.
Arguments Threw {A} e.

(* ===================================================================== *)
(** ** What both entry points share *)
(* ===================================================================== *)

(** Response bodies of the submit route. *)
Inductive body : Type :=
| Failure (error : string) (details : option (list string))
| Receipt (receipt : string) (counted : bool) (message : string).

Definition ok (b : body) : bool :=
  match b with
  | Failure _ _ => false
  | Receipt _ _ _ => true
  end.

Record response := Response { status : Z; content : body }.

Definition windowId : string := "2026-01-03_to_2026-02-02".

(** [`${payload.voter_id}|${payload.schema_version}|${windowId}`] *)
Definition fingerprint_text (payload : value) : option string :=
  voter ← toString (prop payload "voter_id");
  version ← toString (prop payload "schema_version");
  Some (voter +:+ "|" +:+ version +:+ "|" +:+ windowId).

(** [const dedupeKey = await sha256(...)] *)
Definition dedupeKey (payload : value) : option string :=
  sha256 <$> fingerprint_text payload.

(** [const receiptId = "r_" + (await sha256(dedupeKey)).slice(0, 8)] *)
Definition receiptId (dedupeKey : string) : string :=
  "r_" +:+ slice0 8 (sha256 dedupeKey).

(** [existing?.receipt_id] on the row that [first()] yields, or [null] *)
Definition existing_receipt (existing : option string) : value :=
  match existing with
  | Some r => VStr r
  | None => VUndefined
  end.

Definition duplicate (receipt : string) : response :=
  Response 200 (Receipt receipt false "Duplicate detected (already counted).").

Definition accepted (receipt : string) : response :=
  Response 200 (Receipt receipt true "Submission received and counted.").

(** [!!p?.ballot_track_a?.approve_interim_masculine_regent] *)
Definition approve_of (p : value) : bool :=
  truthy (chain (chain p "ballot_track_a") "approve_interim_masculine_regent").

(** [!!p?.ballot_track_a?.prefer_open_contest_in_approx_90_days] *)
Definition prefer_of (p : value) : bool :=
  truthy (chain (chain p "ballot_track_a")
                "prefer_open_contest_in_approx_90_days").

(** [p?.context?.region || "Unknown"] *)
Definition region_of (p : value) : value :=
  or_else (chain (chain p "context") "region") (VStr "Unknown").

(** [inc(DB, key)] *)
Definition inc (key : string) : proc unit := await (IncAggregate key).

Definition when (b : bool) (m : proc unit) : proc unit :=
  if b then m else mret tt.

(** The JavaScript number nearest to the integer [n]: [n] itself up to
    2^53, beyond it a multiple of a power of 2 with 53 bits. *)
Definition number (n : Z) : float :=
  let k := Z.max 0 (Z.log2 (Z.abs n) - 52) in
  let m := PrimFloat.of_uint63 (Uint63.of_Z (Z.abs (as_number n) / 2 ^ k)) in
  if n <? 0 then (- Z.ldexp m k)%float else Z.ldexp m k.

(** [Math.round]: the nearest integer, a tie going toward +infinity. *)
Definition Math_round (x : float) : float :=
  match Prim2SF x with
  | S754_finite s m e =>
      if 0 <=? e then x
      else
        let num := if s then Z.neg m else Z.pos m in
        let n := (2 * num + 2 ^ (- e)) / 2 ^ (1 - e) in
        if n =? 0 then (if s then (-0)%float else 0%float)
        else number n
  | _ => x
  end.

Record ballot := Ballot
  { total_submissions_counted : Z;
    approve_interim_yes : Z;
    prefer_open_contest_yes : Z;
    both_selected : Z;
    neither_selected : Z;
    approval_rate_percent : option float;
    prefer_open_rate_percent : option float }.

Record regional := Regional
  { regional_region : cell;
    submissions_counted : Z;
    approve_rate_percent : option float }.

(** The report; its constant fields [window] and [malcolm_insights] are
    left out. *)
Record report := Report
  { last_updated_utc : string;
    ballot_of : ballot;
    regional_balance : list regional }.

(** [agg.key || 0] on [agg = Object.fromEntries(rows)] *)
Definition agg_or_0 (agg : gmap string Z) (key : string) : Z :=
  default 0 (agg !! key).


(* ===================================================================== *)
(** ** src/worker.js *)
(* ===================================================================== *)

Module Worker.

Definition validatePayload (p : value) : list string :=
  if negb (truthy p) || negb (String.eqb (typeof p) "object")
  then ["Payload must be JSON object"]
  else
    (if negb (truthy (prop p "schema_version"))
     then ["Missing schema_version"] else [])
    ++ (if negb (truthy (prop p "created_utc"))
        then ["Missing created_utc"] else [])
    ++ (if negb (truthy (prop p "voter_id"))
        then ["Missing voter_id"] else [])
    ++ (if negb (truthy (prop p "context"))
           || negb (String.eqb (typeof (prop p "context")) "object")
        then ["Missing context object"] else [])
    ++ (if negb (truthy (chain (prop p "context") "region"))
        then ["Missing context.region"] else [])
    ++ (if negb (truthy (chain (prop p "context") "country_or_territory"))
        then ["Missing context.country_or_territory"] else []).

(** [await DB.exec(`...`)], the text of three [CREATE TABLE IF NOT EXISTS]
    statements, each on several lines. *)
Definition ensureSchema : proc unit := await EnsureSchema.

(** [.bind(region)] throws where it refuses [region], before the statement
    is run. *)
Definition updateAggregates (p : value) : proc unit :=
  let approve := approve_of p in
  let prefer := prefer_of p in
  let both := approve && prefer in
  let neither := negb approve && negb prefer in
  inc "total_submissions_counted" ;;
  when approve (inc "approve_interim_yes") ;;
  when prefer (inc "prefer_open_contest_yes") ;;
  when both (inc "both_selected") ;;
  when neither (inc "neither_selected") ;;
  let region := or_else (chain (chain p "context") "region")
                        (VStr "Unknown") in
  await (InsertRegionIfAbsent region) ;;
  await (UpdateRegion (if approve then 1 else 0) region).

(** [request]: what [request.json()] yields, [None] when it throws. *)
Definition handleSubmit (request : option value) (now : string)
  : proc response :=
  match request with
  | None => mret (Response 400 (Failure "BAD_JSON" None))
  | Some payload =>
      let errors := validatePayload payload in
      match errors with
      | _ :: _ =>
          mret (Response 422 (Failure "VALIDATION_FAILED" (Some errors)))
      | [] =>
          match dedupeKey payload with
          | None => Throw TypeError
          | Some dedupeKey =>
              ensureSchema ;;
              existing ← await (SelectReceipt dedupeKey);
              if truthy (existing_receipt existing)
              then mret (duplicate (default "" existing))
              else
                let receiptId := receiptId dedupeKey in
                let region := or_else (prop (prop payload "context") "region")
                                      (VStr "Unknown") in
                await (InsertSubmission receiptId dedupeKey now region
                                        payload) ;;
                updateAggregates payload ;;
                mret (accepted receiptId)
          end
      end
  end.

Definition round1 (x : float) : float := (Math_round (x * 10) / 10)%float.

(** [total ? round1((count / total) * 100) : null] *)
Definition rate (count total : Z) : option float :=
  if total =? 0 then None
  else Some (round1 ((number count / number total) * 100)%float).

Definition handleResults (now : string) : proc report :=
  ensureSchema ;;
  aggRows ← await SelectAggregates;
  let agg : gmap string Z := list_to_map aggRows in
  let total := agg_or_0 agg "total_submissions_counted" in
  let approve := agg_or_0 agg "approve_interim_yes" in
  let prefer := agg_or_0 agg "prefer_open_contest_yes" in
  let both := agg_or_0 agg "both_selected" in
  let neither := agg_or_0 agg "neither_selected" in
  let approvalRate := rate approve total in
  let preferRate := rate prefer total in
  regions ← await SelectRegionCounts;
  let regional_balance :=
    map (fun r => Regional (rc_region r) (rc_total r)
                           (rate (rc_approve_yes r) (rc_total r)))
        regions in
  mret (Report now
          (Ballot total approve prefer both neither approvalRate preferRate)
          regional_balance).

End Worker.

(* ===================================================================== *)
(** ** src/unnamed/part_000 *)
(* ===================================================================== *)

Module Part000.

Definition validate (p : value) : list string :=
  (if negb (truthy (chain p "schema_version"))
   then ["Missing schema_version"] else [])
  ++ (if negb (truthy (chain p "created_utc"))
      then ["Missing created_utc"] else [])
  ++ (if negb (truthy (chain p "voter_id"))
      then ["Missing voter_id"] else [])
  ++ (if negb (truthy (chain (chain p "context") "region"))
      then ["Missing context.region"] else [])
  ++ (if negb (truthy (chain (chain p "context") "country_or_territory"))
      then ["Missing context.country_or_territory"] else []).

Definition updateAggregates (p : value) : proc unit :=
  let approve := approve_of p in
  let prefer := prefer_of p in
  let both := approve && prefer in
  let neither := negb approve && negb prefer in
  inc "total_submissions_counted" ;;
  when approve (inc "approve_interim_yes") ;;
  when prefer (inc "prefer_open_contest_yes") ;;
  when both (inc "both_selected") ;;
  when neither (inc "neither_selected") ;;
  let region := or_else (chain (chain p "context") "region")
                        (VStr "Unknown") in
  await (UpsertRegion region (if approve then 1 else 0)
                      (if approve then 1 else 0)).

Definition handleSubmit (request : option value) (now : string)
  : proc response :=
  match request with
  | None => mret (Response 400 (Failure "BAD_JSON" None))
  | Some payload =>
      let errors := validate payload in
      match errors with
      | _ :: _ =>
          mret (Response 422 (Failure "VALIDATION_FAILED" (Some errors)))
      | [] =>
          match dedupeKey payload with
          | None => Throw TypeError
          | Some dedupeKey =>
              existing ← await (SelectReceipt dedupeKey);
              if truthy (existing_receipt existing)
              then mret (duplicate (default "" existing))
              else
                let receiptId := receiptId dedupeKey in
                let region := or_else (chain (chain payload "context") "region")
                                      (VStr "Unknown") in
                await (InsertSubmission receiptId dedupeKey now region
                                        payload) ;;
                updateAggregates payload ;;
                mret (accepted receiptId)
          end
      end
  end.

(** [total ? Math.round((count / total) * 1000) / 10 : null] *)
Definition rate (count total : Z) : option float :=
  if total =? 0 then None
  else Some (Math_round ((number count / number total) * 1000) / 10)%float.

Definition handleResults (now : string) : proc report :=
  aggRows ← await SelectAggregates;
  let agg : gmap string Z := list_to_map aggRows in
  let total := agg_or_0 agg "total_submissions_counted" in
  let approve := agg_or_0 agg "approve_interim_yes" in
  let prefer := agg_or_0 agg "prefer_open_contest_yes" in
  let both := agg_or_0 agg "both_selected" in
  let neither := agg_or_0 agg "neither_selected" in
  let approvalRate := rate approve total in
  let preferRate := rate prefer total in
  regions ← await SelectRegionCounts;
  let regional_balance :=
    map (fun r => Regional (rc_region r) (rc_total r)
                           (rate (rc_approve_yes r) (rc_total r)))
        regions in
  mret (Report now
          (Ballot total approve prefer both neither approvalRate preferRate)
          regional_balance).

End Part000.

(* ===================================================================== *)
(** ** The two entry points *)
(* ===================================================================== *)

(** The two entry points, as one deployment may serve either. *)
Inductive entry : Type := WorkerJs | Part000Js.

Definition submit (e : entry) : option value → string → proc response :=
  match e with
  | WorkerJs => Worker.handleSubmit
  | Part000Js => Part000.handleSubmit
  end.

Definition validator (e : entry) : value → list string :=
  match e with
  | WorkerJs => Worker.validatePayload
  | Part000Js => Part000.validate
  end.


(** [handleResults], its rate and [updateAggregates], by entry point. *)
Definition results (e : entry) : string → proc report :=
  match e with
  | WorkerJs => Worker.handleResults
  | Part000Js => Part000.handleResults
  end.

Definition rate_of (e : entry) : Z → Z → option float :=
  match e with
  | WorkerJs => Worker.rate
  | Part000Js => Part000.rate
  end.

Definition tallying (e : entry) : value → proc unit :=
  match e with
  | WorkerJs => Worker.updateAggregates
  | Part000Js => Part000.updateAggregates
  end.


(* ===================================================================== *)
(** ** The validation contract, in the words of the specification *)
(* ===================================================================== *)

(** What a payload is required to carry. *)
Inductive requirement : Type :=
| SchemaVersion
| CreatedUtc
| VoterId
| ContextObject
| ContextRegion
| ContextCountry.

#[global] Instance requirement_eq_dec : EqDecision requirement.
Proof. solve_decision. Defined.

Definition message (r : requirement) : string :=
  match r with
  | SchemaVersion => "Missing schema_version"
  | CreatedUtc => "Missing created_utc"
  | VoterId => "Missing voter_id"
  | ContextObject => "Missing context object"
  | ContextRegion => "Missing context.region"
  | ContextCountry => "Missing context.country_or_territory"
  end.

(** [v] is an object in the sense of the validators' test:
    [v && typeof v === "object"]. *)
Definition is_object (v : value) : bool :=
  truthy v && String.eqb (typeof v) "object".

(** A field is present when its value is not one that JavaScript takes
    for false (absent, [null], [false], [0], the empty string). *)
Definition meets (p : value) (r : requirement) : bool :=
  match r with
  | SchemaVersion => truthy (chain p "schema_version")
  | CreatedUtc => truthy (chain p "created_utc")
  | VoterId => truthy (chain p "voter_id")
  | ContextObject => is_object (chain p "context")
  | ContextRegion => truthy (chain (chain p "context") "region")
  | ContextCountry => truthy (chain (chain p "context") "country_or_territory")
  end.

(** The five required fields. *)
Definition required_fields : list requirement :=
  [SchemaVersion; CreatedUtc; VoterId; ContextRegion; ContextCountry].

(** A validator that accepts exactly the payloads meeting every
    requirement and that reports every required field a payload misses. *)
Definition validation_complete (validate : value → list string) (p : value)
  : Prop :=
  (validate p = [] ↔ ∀ r, meets p r = true)
  ∧ (∀ r, r ∈ required_fields → meets p r = false → message r ∈ validate p).


(* ===================================================================== *)
(** ** The transport: [fetch] of the two entry points *)
(* ===================================================================== *)

(** What a handler reads of a request: the method, [new URL(request.url)
    .pathname], and what [request.json()] yields ([None] when it throws). *)
Record request := Request
  { method : string;
    pathname : string;
    request_json : option value }.

(** The value that a response serialises as its body; [JSON.stringify] is
    not rendered.  [SentUnhandled e] is the body
    [{ok: false, error: "UNHANDLED", message: String(err?.message || err)}]
    for the exception [e]. *)
Inductive sent : Type :=
| SentNothing
| SentText (text : string)
| SentHealth (ts : string)
| SentProblem (error : string) (hint : option string)
| SentUnhandled (e : exn)
| SentSubmit (b : body)
| SentReport (r : report).

(** A [Response]: status, the headers that the code sets, body. *)
Record http_response := Http
  { http_status : Z;
    http_headers : gmap string string;
    http_body : sent }.

Module WorkerHttp.

Definition corsHeaders : gmap string string :=
  {[ "Access-Control-Allow-Origin" := "*";
     "Access-Control-Allow-Methods" := "GET,POST,OPTIONS";
     "Access-Control-Allow-Headers" := "Content-Type";
     "Access-Control-Max-Age" := "86400" ]}.

(** [{ "Content-Type": "application/json", ...corsHeaders }] *)
Definition jsonHeaders : gmap string string :=
  corsHeaders ∪ {[ "Content-Type" := "application/json" ]}.

(** The body of the [try] block of [fetch]; [bound]: [env.DB] is set. *)
Definition routes (req : request) (bound : bool) (now : string)
  : proc http_response :=
  if String.eqb (pathname req) "/healthz"
  then mret (Http 200 jsonHeaders (SentHealth now))
  else if negb bound
  then mret (Http 500 jsonHeaders
               (SentProblem "DB_BINDING_MISSING"
                  (Some "Add D1 binding named 'DB' in Worker settings.")))
  else if String.eqb (pathname req) "/api/submit"
          && String.eqb (method req) "POST"
  then out ← Worker.handleSubmit (request_json req) now;
       mret (Http (status out) jsonHeaders (SentSubmit (content out)))
  else if String.eqb (pathname req) "/api/results"
          && String.eqb (method req) "GET"
  then out ← Worker.handleResults now;
       mret (Http 200 jsonHeaders (SentReport out))
  else mret (Http 404 jsonHeaders (SentProblem "NOT_FOUND" None)).

(** The answer of the [catch] of [fetch] to the exception [e]. *)
Definition unhandled (e : exn) : http_response :=
  Http 500 jsonHeaders (SentUnhandled e).

End WorkerHttp.

Module Part000Http.

(** [cors(res)]: four [res.headers.set]. *)
Definition cors (res : http_response) : http_response :=
  Http (http_status res)
       (<["Access-Control-Max-Age" := "86400"]>
          (<["Access-Control-Allow-Headers" := "Content-Type"]>
             (<["Access-Control-Allow-Methods" := "GET,POST,OPTIONS"]>
                (<["Access-Control-Allow-Origin" := "*"]>
                   (http_headers res)))))
       (http_body res).

(** [json(obj, status)] *)
Definition json (obj : sent) (status : Z) : http_response :=
  Http status {[ "Content-Type" := "application/json" ]} obj.

(** A handler with [env.DB] unset: its first [env.DB.prepare] throws. *)
Definition with_binding {A : Type} (bound : bool) (m : proc A) : proc A :=
  if bound then m
  else match m with
       | Await _ _ => Throw TypeError
       | _ => m
       end.

(** [fetch(request, env)]; the handlers of this file build their answer
    with [json]. *)
Definition fetch (req : request) (bound : bool) (now : string)
  : proc http_response :=
  if String.eqb (method req) "OPTIONS"
  then mret (cors (Http 204 ∅ SentNothing))
  else if String.eqb (pathname req) "/api/submit"
          && String.eqb (method req) "POST"
  then out ← with_binding bound
               (Part000.handleSubmit (request_json req) now);
       mret (cors (json (SentSubmit (content out)) (status out)))
  else if String.eqb (pathname req) "/api/results"
          && String.eqb (method req) "GET"
  then out ← with_binding bound (Part000.handleResults now);
       mret (cors (json (SentReport out) 200))
  else mret (cors (Http 404 ∅ (SentText "Not found"))).

End Part000Http.

(** The four headers that let a page of another origin read the answer. *)
Definition has_cors (res : http_response) : Prop :=
  http_headers res !! "Access-Control-Allow-Origin" = Some "*"
  ∧ http_headers res !! "Access-Control-Allow-Methods"
    = Some "GET,POST,OPTIONS"
  ∧ http_headers res !! "Access-Control-Allow-Headers" = Some "Content-Type"
  ∧ http_headers res !! "Access-Control-Max-Age" = Some "86400".


(* ===================================================================== *)
(** ** Counting *)
(* ===================================================================== *)

Definition yes (b : bool) : Z := if b then 1 else 0.

(** The [aggregates] table after the five [inc] of [updateAggregates]. *)
Definition tallied (p : value) (agg : gmap string Z) : gmap string Z :=
  let approve := approve_of p in
  let prefer := prefer_of p in
  let agg1 := inc_row "total_submissions_counted" agg in
  let agg2 := if approve then inc_row "approve_interim_yes" agg1 else agg1 in
  let agg3 := if prefer then inc_row "prefer_open_contest_yes" agg2 else agg2 in
  let agg4 :=
    if approve && prefer then inc_row "both_selected" agg3 else agg3 in
  if negb approve && negb prefer then inc_row "neither_selected" agg4 else agg4.

(** Number of stored submissions that satisfy [f]. *)
Definition tally (f : submission → bool) (rows : list submission) : Z :=
  foldr (fun row n => (if f row then 1 else 0) + n) 0 rows.

Definition sum_totals (rows : list region_count) : Z :=
  foldr (fun rc n => rc_total rc + n) 0 rows.

Definition sum_approve (rows : list region_count) : Z :=
  foldr (fun rc n => rc_approve_yes rc + n) 0 rows.

Definition sum_counted (rows : list regional) : Z :=
  foldr (fun r n => submissions_counted r + n) 0 rows.

Definition approved (row : submission) : bool := approve_of (payload_json row).
Definition preferred (row : submission) : bool := prefer_of (payload_json row).
Definition chose_both (row : submission) : bool :=
  approved row && preferred row.
Definition chose_neither (row : submission) : bool :=
  negb (approved row) && negb (preferred row).
Definition chose_exactly_one (row : submission) : bool :=
  xorb (approved row) (preferred row).
Definition in_region (r : cell) (row : submission) : bool :=
  cell_eqb (region row) r.

(** A region counter that agrees with the stored submissions. *)
Definition region_counted (rows : list submission) (rc : region_count) : Prop :=
  rc_total rc = tally (in_region (rc_region rc)) rows
  ∧ rc_approve_yes rc
    = tally (fun row => in_region (rc_region rc) row && approved row) rows.

(** A region row that stands for at least one stored submission. *)
Definition region_backed (rows : list submission) (rc : region_count)
  : Prop :=
  (∃ row, row ∈ rows ∧ region row = rc_region rc)
  ∧ 1 ≤ rc_total rc
  ∧ 0 ≤ rc_approve_yes rc ≤ rc_total rc.

(** The counters of the region [r], 0 where it has no row. *)
Definition region_row (r : cell) (rows : list region_count)
  : option region_count :=
  find (fun rc => cell_eqb (rc_region rc) r) rows.

Definition total_at (r : cell) (rows : list region_count) : Z :=
  from_option rc_total 0 (region_row r rows).

Definition approve_at (r : cell) (rows : list region_count) : Z :=
  from_option rc_approve_yes 0 (region_row r rows).

(** The global counters and what each counts. *)
Definition ledger_keys : list (string * (submission → bool)) :=
  [("total_submissions_counted", fun _ => true);
   ("approve_interim_yes", approved);
   ("prefer_open_contest_yes", preferred);
   ("both_selected", chose_both);
   ("neither_selected", chose_neither)].

(* ===================================================================== *)
(** ** Example requests *)
(* ===================================================================== *)

Definition ballot_payload (voter_id schema_version : string) (r : value)
    (approve prefer : bool) : value :=
  VObj [("schema_version", VStr schema_version);
        ("created_utc", VStr "2026-01-10T12:00:00.000Z");
        ("voter_id", VStr voter_id);
        ("context", VObj [("region", r);
                          ("country_or_territory", VStr "US")]);
        ("ballot_track_a",
         VObj [("approve_interim_masculine_regent", VBool approve);
               ("prefer_open_contest_in_approx_90_days", VBool prefer)])].

(** The scenario of the specification (voter v1, region CA, approve only),
    with the [created_utc] that validation requires. *)
Definition ballot_v1 : value := ballot_payload "v1" "1" (VStr "CA") true false.

(** The same voter and schema version with another ballot and region. *)
Definition ballot_v1_changed : value :=
  ballot_payload "v1" "1" (VStr "NY") false true.

(** Two voters whose receipt ids coincide:
    both derive [r_189dfa1c] from different dedupe keys. *)
Definition ballot_a : value :=
  ballot_payload "voter-158303" "1" (VStr "CA") true false.
Definition ballot_b : value :=
  ballot_payload "voter-178377" "1" (VStr "CA") true false.

(** Payloads that pass validation with a region that is not a string:
    an object, which [bind] refuses, and a number. *)
Definition ballot_region_object : value :=
  ballot_payload "v2" "1" (VObj [("code", VStr "CA")]) true false.
Definition ballot_region_number : value :=
  ballot_payload "v3" "1" (VNum "5") true true.

(** A payload that passes validation and whose [voter_id] has no string
    rendering. *)
Definition ballot_unrenderable : value :=
  VObj [("schema_version", VStr "1");
        ("created_utc", VStr "2026-01-10T12:00:00.000Z");
        ("voter_id", VObj [("toString", VNum "1")]);
        ("context", VObj [("region", VStr "CA");
                          ("country_or_territory", VStr "US")])].

(** The answer of a rejected payload: status 422 with the error list. *)
Definition rejected (details : list string) : response :=
  Response 422 (Failure "VALIDATION_FAILED" (Some details)).

(** The error list without the message that only [validatePayload] has. *)
Definition without_context_message (errors : list string) : list string :=
  filter (fun m => negb (String.eqb m "Missing context object")) errors.

(* ===================================================================== *)
(** ** Rates, in the words of the specification *)
(* ===================================================================== *)

(** [1000 * count / total] rounded to an integer, a tie going up: the
    number of tenths of [100 * count / total] rounded to one decimal
    place the way [Math.round] breaks ties. *)
Definition tenths_half_up (count total : Z) : Z :=
  (2000 * count + total) / (2 * total).

(** The same with a tie going to the even neighbour. *)
Definition tenths_half_even (count total : Z) : Z :=
  let q := (1000 * count) / total in
  let r := (1000 * count) mod total in
  if 2 * r <? total then q
  else if total <? 2 * r then q + 1
  else if Z.even q then q else q + 1.

(** The JavaScript number that the decimal [tenths / 10] denotes. *)
Definition decimal (tenths : Z) : float := (number tenths / 10)%float.

(** [null] when [total] is 0, else [100 * count / total] rounded to one
    decimal place by the rule [tenths]. *)
Definition percent_rounded (tenths : Z → Z → Z) (count total : Z)
  : option float :=
  if total =? 0 then None else Some (decimal (tenths count total)).

(* ===================================================================== *)
(** ** Requests in flight *)
(* ===================================================================== *)

Definition finished {A : Type} (m : proc A) : Prop :=
  match m with
  | Await _ _ => False
  | _ => True
  end.

(** A handler that has only ledger statements left. *)
Inductive ledger_only {A : Type} : proc A → Prop :=
| ledger_done (a : A) : ledger_only (Done a)
| ledger_inc (key : string) (k : unit → proc A) :
    ledger_only (k tt) → ledger_only (Await (IncAggregate key) k)
| ledger_region (r : value) (k : unit → proc A) :
    ledger_only (k tt) → ledger_only (Await (InsertRegionIfAbsent r) k)
| ledger_update (a : Z) (r : value) (k : unit → proc A) :
    ledger_only (k tt) → ledger_only (Await (UpdateRegion a r) k)
| ledger_upsert (r : value) (a a' : Z) (k : unit → proc A) :
    ledger_only (k tt) → ledger_only (Await (UpsertRegion r a a') k).

(** A handler that completes within [n] statements, whatever they yield. *)
Inductive within {A : Type} : nat → proc A → Prop :=
| within_done (n : nat) (a : A) : within n (Done a)
| within_throw (n : nat) (e : exn) : within n (Throw e)
| within_await (n : nat) {R : Type} (s : stmt R) (k : R → proc A) :
    (∀ r, within n (k r)) → within (S n) (Await s k).

(** The number of turns that a schedule gives to the request [i]. *)
Fixpoint turns (i : nat) (schedule : list nat) : nat :=
  match schedule with
  | [] => 0
  | j :: rest => (if Nat.eqb j i then 1 else 0) + turns i rest
  end.

(** Two requests in flight, served a statement each in turn. *)
Definition taking_turns : list nat :=
  [0; 1; 0; 1; 0; 1; 0; 1; 0; 1; 0; 1; 0; 1; 0; 1; 0; 1]%nat.

(** Both requests have looked their key up before either inserts. *)
Definition racing_schedule : list nat :=
  [0; 1; 0; 1; 0; 1; 0; 0; 0; 0]%nat.

Definition racing_pool (e : entry) : list (proc response) :=
  [submit e (Some ballot_v1) "2026-01-10T12:00:01.000Z";
   submit e (Some ballot_v1) "2026-01-10T12:00:01.002Z"].

(** A statement that writes to the ledger, as a handler has it pending. *)
Inductive op : Type :=
| OpInc (key : string)
| OpEnsure (r : value)
| OpUpdate (approve : Z) (r : value)
| OpUpsert (r : value) (approve approve' : Z).

Definition op_of {R : Type} (s : stmt R) : option (op * R) :=
  match s in stmt R return option (op * R) with
  | IncAggregate key => Some (OpInc key, tt)
  | InsertRegionIfAbsent r => Some (OpEnsure r, tt)
  | UpdateRegion a r => Some (OpUpdate a r, tt)
  | UpsertRegion r a a' => Some (OpUpsert r a a', tt)
  | _ => None
  end.

(** The ledger statements that a handler issues next, up to its first
    statement of another kind. *)
Fixpoint ops_of {A : Type} (m : proc A) : list op :=
  match m with
  | Await s k =>
      match op_of s with
      | Some (o, r) => o :: ops_of (k r)
      | None => []
      end
  | _ => []
  end.





(** Strings of the digits that [toString(16)] writes. *)
Definition is_hex (c : ascii) : bool :=
  existsb (Ascii.eqb c) (list_ascii_of_string "0123456789abcdef").

Definition all_hex (s : string) : bool :=
  forallb is_hex (list_ascii_of_string s).


(** An integer as [Number::toString] writes it: digits after an optional
    minus sign. *)
Definition is_integer (repr : string) : bool :=
  match list_ascii_of_string repr with
  | [] => false
  | c :: rest =>
      let digits := if Ascii.eqb c "-" then rest else c :: rest in
      negb (Nat.eqb (List.length digits) 0)
      && forallb (fun d => existsb (Ascii.eqb d)
                                   (list_ascii_of_string "0123456789"))
                 digits
  end.

(** One engine, for the closed examples at the end, which bind strings
    and the number 5: an integer is written as SQLite writes a REAL into
    a TEXT column, with [.0]; it takes nothing else. *)
Definition rendering_of_examples : Rendering :=
  fun v =>
    match v with
    | VNum repr =>
        if is_integer repr then Some (CellText (repr +:+ ".0")) else None
    | _ => None
    end.

(* ===================================================================== *)
(** ** Proof automation *)
(* ===================================================================== *)

#[local] Arguments sha256 : simpl never.
#[local] Arguments receiptId : simpl never.
#[local] Arguments windowId : simpl never.
#[local] Set Warnings "-inexact-float".

(** Membership of a literal in a list of literals, by evaluation. *)
#[local] Ltac listed :=
  lazymatch goal with
  | |- ?x ∈ ?l => apply (bool_decide_unpack (x ∈ l)); vm_compute; exact I
  end.
#[local] Ltac not_listed H :=
  lazymatch type of H with
  | ?x ∈ ?l => apply (bool_decide_pack (x ∈ l)) in H; vm_compute in H; elim H
  end.
#[local] Ltac decide_listed :=
  let H := fresh "H" in
  split; intros H; first [discriminate H | reflexivity | listed | not_listed H].


(* ===================================================================== *)
(** ** The storage layer at work *)
(* ===================================================================== *)

Section Storage.

Context {engine : Rendering}.

(** One statement, executed atomically.  [inl e]: the awaited promise
    rejects with [e] and the tables are as before; so it does where
    [bind] refuses the region. *)
Definition exec {R : Type} (s : stmt R) (db : DB) : DB * (exn + R) :=
  match s in stmt R return DB * (exn + R) with
  | EnsureSchema =>
      (* DB.exec on a text whose statements each run over several lines *)
      (db, inl D1ExecError)
  | SelectReceipt dedupeKey =>
      (* SELECT receipt_id FROM submissions WHERE dedupe_key = ? LIMIT 1 *)
      (db, inr (receipt_id <$>
                  find (fun row => String.eqb (dedupe_key row) dedupeKey)
                       (submissions db)))
  | InsertSubmission receiptId dedupeKey now r payload =>
      match stored r with
      | None => (db, inl D1TypeError)
      | Some region =>
          let row := Submission receiptId dedupeKey now region payload in
          if conflicts row (submissions db)
          then (db, inl ConstraintFailed)
          else (MkDB (submissions db ++ [row]) (aggregates db)
                     (region_counts db),
                inr tt)
      end
  | IncAggregate key =>
      (MkDB (submissions db) (inc_row key (aggregates db)) (region_counts db),
       inr tt)
  | InsertRegionIfAbsent r =>
      match stored r with
      | None => (db, inl D1TypeError)
      | Some region =>
          (MkDB (submissions db) (aggregates db)
                (insert_region_if_absent region (region_counts db)),
           inr tt)
      end
  | UpdateRegion approve r =>
      match stored r with
      | None => (db, inl D1TypeError)
      | Some region =>
          (MkDB (submissions db) (aggregates db)
                (bump_region region approve (region_counts db)),
           inr tt)
      end
  | UpsertRegion r approve approve' =>
      match stored r with
      | None => (db, inl D1TypeError)
      | Some region =>
          (MkDB (submissions db) (aggregates db)
                (upsert_region region approve approve' (region_counts db)),
           inr tt)
      end
  | SelectAggregates =>
      (db, inr (prod_map id as_number <$> map_to_list (aggregates db)))
  | SelectRegionCounts =>
      (db, inr ((fun rc => RegionCount (rc_region rc) (as_number (rc_total rc))
                                       (as_number (rc_approve_yes rc)))
                  <$> region_counts db))
  end.

(** A handler run alone, from its call to its completion. *)
Fixpoint run {A : Type} (m : proc A) (db : DB) : DB * outcome A :=
  match m with
  | Done a => (db, Returned a)
  | Throw e => (db, Threw e)
  | Await s k =>
      match exec s db with
      | (db', inr r) => run (k r) db'
      | (db', inl e) => (db', Threw e)
      end
  end.

(** One storage step of a handler in flight. *)
Definition step {A : Type} (m : proc A) (db : DB) : DB * proc A :=
  match m with
  | Await s k =>
      match exec s db with
      | (db', inr r) => (db', k r)
      | (db', inl e) => (db', Throw e)
      end
  | _ => (db, m)
  end.

(** Requests in flight together: the schedule names, step after step, the
    request whose pending statement the storage layer executes next. *)
Fixpoint interleave {A : Type} (schedule : list nat) (pool : list (proc A))
    (db : DB) : DB * list (proc A) :=
  match schedule with
  | [] => (db, pool)
  | i :: rest =>
      match pool !! i with
      | Some m =>
          let '(db', m') := step m db in
          interleave rest (<[i := m']> pool) db'
      | None => interleave rest pool db
      end
  end.

(** A request served alone by one of the entry points.  [fetch] of
    worker.js: the preflight answer, else the routes under [try], an
    exception being answered by the [catch]. *)
Definition serve (e : entry) (req : request) (bound : bool) (now : string)
    (db : DB) : DB * outcome http_response :=
  match e with
  | WorkerJs =>
      if String.eqb (method req) "OPTIONS"
      then (db, Returned (Http 204 WorkerHttp.corsHeaders SentNothing))
      else
        match run (WorkerHttp.routes req bound now) db with
        | (db', Returned res) => (db', Returned res)
        | (db', Threw ex) => (db', Returned (WorkerHttp.unhandled ex))
        end
  | Part000Js => run (Part000Http.fetch req bound now) db
  end.

(* ===================================================================== *)
(** ** Ledger readings and the consistency of a store *)
(* ===================================================================== *)

(** A global counter as the tables hold it: an absent row counts 0. *)
Definition counter (db : DB) (key : string) : Z :=
  agg_or_0 (aggregates db) key.

(** A global counter as [handleResults] reads it: a JavaScript number. *)
Definition reading (db : DB) (key : string) : Z :=
  as_number (counter db key).

(** The report that [handleResults] makes of the tables, with the rate of
    its entry point. *)
Definition reported (rate : Z → Z → option float) (now : string) (db : DB)
  : report :=
  Report now
    (Ballot (reading db "total_submissions_counted")
            (reading db "approve_interim_yes")
            (reading db "prefer_open_contest_yes")
            (reading db "both_selected")
            (reading db "neither_selected")
            (rate (reading db "approve_interim_yes")
                  (reading db "total_submissions_counted"))
            (rate (reading db "prefer_open_contest_yes")
                  (reading db "total_submissions_counted")))
    (map (fun r => Regional (rc_region r) (as_number (rc_total r))
                            (rate (as_number (rc_approve_yes r))
                                  (as_number (rc_total r))))
         (region_counts db)).

(** What the [region] column holds for the payload [p]:
    [p?.context?.region || "Unknown"] as bound; [None] where [bind]
    refuses it. *)
Definition region_written (p : value) : option cell :=
  stored (region_of p).

(** A row as the submit handlers write it. *)
Definition row_derived (row : submission) : Prop :=
  dedupeKey (payload_json row) = Some (dedupe_key row)
  ∧ receipt_id row = receiptId (dedupe_key row)
  ∧ region_written (payload_json row) = Some (region row).


(** The store and the ledger agree. *)
Record consistent (db : DB) : Prop := Consistent
  { keys_unique : NoDup (dedupe_key <$> submissions db);
    receipts_unique : NoDup (receipt_id <$> submissions db);
    rows_derived : Forall row_derived (submissions db);
    total_counted :
      counter db "total_submissions_counted"
      = Z.of_nat (List.length (submissions db));
    approve_counted :
      counter db "approve_interim_yes" = tally approved (submissions db);
    prefer_counted :
      counter db "prefer_open_contest_yes" = tally preferred (submissions db);
    both_counted :
      counter db "both_selected" = tally chose_both (submissions db);
    neither_counted :
      counter db "neither_selected" = tally chose_neither (submissions db);
    regions_unique : NoDup (rc_region <$> region_counts db);
    regions_summed :
      sum_totals (region_counts db) = Z.of_nat (List.length (submissions db));
    regions_counted :
      Forall (region_counted (submissions db)) (region_counts db);
    regions_cover :
      Forall (fun row => has_region (region row) (region_counts db) = true)
             (submissions db) }.

(** Stores that submit requests, served one after the other by either
    entry point, build from the empty tables. *)
Inductive reachable : DB → Prop :=
| reach_empty : reachable empty_db
| reach_submit (e : entry) (request : option value) (now : string) (db : DB) :
    reachable db → reachable (fst (run (submit e request now) db)).

(** The same payload submitted once per timestamp of [nows]. *)
Fixpoint submit_all (e : entry) (payload : value) (nows : list string)
    (db : DB) : DB * list (outcome response) :=
  match nows with
  | [] => (db, [])
  | now :: later =>
      let '(db1, out) := run (submit e (Some payload) now) db in
      let '(db2, outs) := submit_all e payload later db1 in
      (db2, out :: outs)
  end.

(* ===================================================================== *)
(** ** One submission, in closed form *)
(* ===================================================================== *)

(** The [region_counts] table after a submission of the region [r]. *)
Definition region_tallied (p : value) (r : cell)
    (rows : list region_count) : list region_count :=
  upsert_region r (yes (approve_of p)) (yes (approve_of p)) rows.

(** The store and the outcome of [updateAggregates(DB, p)]: the global
    counters, then the region, which [bind] may refuse. *)
Definition tallied_db (p : value) (db : DB) : DB * outcome unit :=
  match region_written p with
  | Some r =>
      (MkDB (submissions db) (tallied p (aggregates db))
            (region_tallied p r (region_counts db)), Returned tt)
  | None =>
      (MkDB (submissions db) (tallied p (aggregates db)) (region_counts db),
       Threw D1TypeError)
  end.

(** The store after a submission of [p] under the key [k] is taken in;
    nothing is taken in of a payload whose region [bind] refuses. *)
Definition taken_in (p : value) (k : string) (now : string) (db : DB) : DB :=
  match region_written p with
  | Some r =>
      MkDB (submissions db ++ [Submission (receiptId k) k now r p])
           (tallied p (aggregates db))
           (region_tallied p r (region_counts db))
  | None => db
  end.

(** What [SELECT receipt_id FROM submissions WHERE dedupe_key = ? LIMIT 1]
    yields for the key [k]. *)
Definition stored_receipt (k : string) (db : DB) : option string :=
  receipt_id
    <$> find (fun row => String.eqb (dedupe_key row) k) (submissions db).

(** A submit request of part_000 with a validated payload of key [k], run
    alone. *)
Definition submitted (p : value) (k : string) (now : string) (db : DB)
  : DB * outcome response :=
  let existing := stored_receipt k db in
  if truthy (existing_receipt existing)
  then (db, Returned (duplicate (default "" existing)))
  else
    match region_written p with
    | None => (db, Threw D1TypeError)
    | Some r =>
        if conflicts (Submission (receiptId k) k now r p) (submissions db)
        then (db, Threw ConstraintFailed)
        else (taken_in p k now db, Returned (accepted (receiptId k)))
    end.

(* ===================================================================== *)
(** ** Example stores *)
(* ===================================================================== *)

(** The ballot of voter v1, counted by part_000. *)
Definition store_v1 : DB :=
  (run (submit Part000Js (Some ballot_v1) "2026-01-10T12:00:01.000Z")
       empty_db).1.

Definition store_a : DB :=
  (run (submit Part000Js (Some ballot_a) "2026-01-10T12:00:01.000Z")
       empty_db).1.



(** A store whose row is there and not yet counted: the request that
    inserted it has not reached [updateAggregates]. *)
Definition store_lagging : DB :=
  (interleave [0; 0]%nat
     [submit Part000Js (Some ballot_v1) "2026-01-10T12:00:01.000Z"]
     empty_db).1.

(** A ledger of 400 ballots, 203 of them approving. *)
Definition ledger_400 : DB :=
  MkDB [] {[ "total_submissions_counted" := 400;
             "approve_interim_yes" := 203;
             "neither_selected" := 197 ]}
       [RegionCount (CellText "CA") 400 203].

(* ===================================================================== *)
(** ** Idempotent counting, in the words of the specification *)
(* ===================================================================== *)

(** [payload], submitted once per timestamp of [nows] to the store [db],
    makes one row, is counted once, and is answered with one receipt:
    counted at the first call and not counted at each later call. *)
Definition counted_once (e : entry) (db : DB) (payload : value)
    (nows : list string) : Prop :=
  ∃ row,
    (submit_all e payload nows db).2
    = Returned (accepted (receipt_id row))
        :: repeat (Returned (duplicate (receipt_id row)))
                  (List.length nows - 1)
    ∧ submissions (submit_all e payload nows db).1 = submissions db ++ [row]
    ∧ payload_json row = payload
    ∧ (receipt_id row ∉ receipt_id <$> submissions db)
    ∧ counter (submit_all e payload nows db).1 "total_submissions_counted"
      = counter db "total_submissions_counted" + 1.

(* ===================================================================== *)
(** ** Requests in flight: the positions of a submit request *)
(* ===================================================================== *)

(** The positions of a submit request whose payload [p] passed validation
    and has the dedupe key [k]: after its insert, before its insert,
    before its lookup, and at its start. *)
Definition counting (e : entry) (p : value) (k : string) : proc response :=
  tallying e p ;; mret (accepted (receiptId k)).

Definition inserting (e : entry) (p : value) (k now : string)
  : proc response :=
  await (InsertSubmission (receiptId k) k now (region_of p) p) ;;
  counting e p k.

Definition selecting (e : entry) (p : value) (k now : string)
  : proc response :=
  existing ← await (SelectReceipt k);
  if truthy (existing_receipt existing)
  then mret (duplicate (default "" existing))
  else inserting e p k now.

Definition starting (e : entry) (p : value) (k now : string)
  : proc response :=
  match e with
  | WorkerJs => Worker.ensureSchema ;; selecting e p k now
  | Part000Js => selecting e p k now
  end.

(** A request that has not inserted yet. *)
Definition before_insert (p : value) (k : string) (m : proc response) : Prop :=
  ∃ e now, m = starting e p k now ∨ m = selecting e p k now
           ∨ m = inserting e p k now.

(** A request of part_000 that has looked its key up or is about to,
    and has not inserted. *)
Definition undecided (p : value) (k : string) (m : proc response) : Prop :=
  ∃ now, m = selecting Part000Js p k now ∨ m = inserting Part000Js p k now.

(** A request that lost the race: it answered duplicate with the receipt
    id of the key, or its insert was refused. *)
Definition lost (k : string) (m : proc response) : Prop :=
  m = Done (duplicate (receiptId k)) ∨ m = Throw ConstraintFailed.

(** The invariant of a pool of requests to part_000 for the key [k],
    from the store [db0] that does not hold it: either no request has
    inserted, or one has, the only one with statements left that write,
    and every other request is before its insert or has lost. *)
Definition race_inv (p : value) (k : string) (r : cell) (db0 db : DB)
    (pool : list (proc response)) : Prop :=
  (db = db0 ∧ Forall (undecided p k) pool)
  ∨ ∃ (w : nat) (now : string) (tail : proc response),
      pool !! w = Some tail
      ∧ ledger_only tail
      ∧ run tail db = (taken_in p k now db0, Returned (accepted (receiptId k)))
      ∧ submissions db
        = submissions db0 ++ [Submission (receiptId k) k now r p]
      ∧ ∀ (j : nat) (m : proc response),
          j ≠ w → pool !! j = Some m → undecided p k m ∨ lost k m.

(* ===================================================================== *)
(** ** Requests in flight: what is still owed to the ledger *)
(* ===================================================================== *)

(** A store that holds all that another holds: the rows of [submissions]
    in the same order and then more, every global counter at least as
    high, every region row at its place with a total at least as high. *)
Definition grows (db db' : DB) : Prop :=
  submissions db `prefix_of` submissions db'
  ∧ (∀ key v, aggregates db !! key = Some v →
              ∃ v', aggregates db' !! key = Some v' ∧ v ≤ v')
  ∧ ∃ rows more,
      region_counts db' = rows ++ more
      ∧ Forall2 (fun rc rc' => rc_region rc = rc_region rc'
                               ∧ rc_total rc ≤ rc_total rc')
                (region_counts db) rows.




(** The positions of a submit request: before its insert, with ledger
    statements only, or thrown. *)
Definition tracked (m : proc response) : Prop :=
  (∃ p k, dedupeKey p = Some k ∧ before_insert p k m)
  ∨ ledger_only m
  ∨ ∃ e, m = Throw e.


(* ===================================================================== *)
(** ** The validators *)
(* ===================================================================== *)

Lemma chain_prop (v : value) (k : string) : chain v k = prop v k.
Proof. by destruct v. Qed.


Lemma truthy_prop_object (v : value) (k : string) :
  truthy (prop v k) = true → ∃ fields, v = VObj fields.
Proof. destruct v; simpl; try discriminate. eauto. Qed.

Lemma is_object_of_field (v : value) (k : string) :
  truthy (prop v k) = true → is_object v = true.
Proof. intros [fields ->]%truthy_prop_object. done. Qed.

Lemma validate_lists (p : value) (r : requirement) :
  r ∈ required_fields →
  message r ∈ Part000.validate p ↔ meets p r = false.
Proof.
  unfold Part000.validate, required_fields. rewrite !chain_prop.
  intros Hr.
  assert (r ≠ ContextObject) as Hne by (intros ->; not_listed Hr).
  clear Hr. destruct r; try done; simpl; rewrite ?chain_prop;
    destruct (truthy (prop p "schema_version")),
      (truthy (prop p "created_utc")), (truthy (prop p "voter_id")),
      (truthy (prop (prop p "context") "region")),
      (truthy (prop (prop p "context") "country_or_territory"));
    simpl; decide_listed.
Qed.

Lemma validate_nil (p : value) :
  Part000.validate p = [] ↔ ∀ r, meets p r = true.
Proof.
  unfold Part000.validate. rewrite !chain_prop. split.
  - intros H r.
    destruct (truthy (prop p "schema_version")) eqn:E1; [|discriminate H].
    destruct (truthy (prop p "created_utc")) eqn:E2; [|discriminate H].
    destruct (truthy (prop p "voter_id")) eqn:E3; [|discriminate H].
    destruct (truthy (prop (prop p "context") "region")) eqn:E4;
      [|discriminate H].
    destruct (truthy (prop (prop p "context") "country_or_territory")) eqn:E5;
      [|discriminate H].
    destruct r; simpl; rewrite ?chain_prop; auto.
    by apply is_object_of_field in E4.
  - intros H.
    pose proof (H SchemaVersion) as H1. pose proof (H CreatedUtc) as H2.
    pose proof (H VoterId) as H3. pose proof (H ContextRegion) as H4.
    pose proof (H ContextCountry) as H5.
    simpl in H1, H2, H3, H4, H5. rewrite ?chain_prop in *.
    by rewrite H1, H2, H3, H4, H5.
Qed.

Lemma validatePayload_scalar (p : value) :
  is_object p = false →
  Worker.validatePayload p = ["Payload must be JSON object"].
Proof.
  unfold is_object, Worker.validatePayload.
  by destruct (truthy p), (String.eqb (typeof p) "object").
Qed.

Lemma validatePayload_lists (p : value) (r : requirement) :
  is_object p = true →
  message r ∈ Worker.validatePayload p ↔ meets p r = false.
Proof.
  unfold Worker.validatePayload, is_object. intros Hp.
  apply andb_prop in Hp as [-> ->]. rewrite !chain_prop.
  destruct r; simpl; unfold is_object; rewrite ?chain_prop;
    destruct (truthy (prop p "schema_version")),
      (truthy (prop p "created_utc")), (truthy (prop p "voter_id")),
      (truthy (prop p "context")),
      (String.eqb (typeof (prop p "context")) "object"),
      (truthy (prop (prop p "context") "region")),
      (truthy (prop (prop p "context") "country_or_territory"));
    simpl; decide_listed.
Qed.

Lemma validatePayload_nil (p : value) :
  Worker.validatePayload p = [] ↔ ∀ r, meets p r = true.
Proof.
  split.
  - intros H r. destruct (is_object p) eqn:Hp.
    + destruct (meets p r) eqn:Hr; [done|].
      apply validatePayload_lists in Hr; [|done].
      rewrite H in Hr. by apply elem_of_nil in Hr.
    + by rewrite validatePayload_scalar in H.
  - intros H.
    assert (is_object p = true) as Hp.
    { pose proof (H SchemaVersion) as H1. simpl in H1.
      rewrite chain_prop in H1. by apply is_object_of_field in H1. }
    pose proof (H SchemaVersion) as H1. pose proof (H CreatedUtc) as H2.
    pose proof (H VoterId) as H3. pose proof (H ContextObject) as H4.
    pose proof (H ContextRegion) as H5. pose proof (H ContextCountry) as H6.
    simpl in H1, H2, H3, H4, H5, H6. unfold is_object in Hp, H4.
    apply andb_prop in Hp as [Hp1 Hp2]. apply andb_prop in H4 as [H41 H42].
    rewrite ?chain_prop in *. unfold Worker.validatePayload.
    rewrite ?chain_prop.
    by rewrite Hp1, Hp2, H1, H2, H3, H41, H42, H5, H6.
Qed.

Lemma validators_agree_on_acceptance (p : value) :
  Worker.validatePayload p = [] ↔ Part000.validate p = [].
Proof. by rewrite validatePayload_nil, validate_nil. Qed.

(** A plain property access of the submit handlers happens on an object:
    a validated payload is an object, and so is its [context]. *)
Lemma validated_is_object (p : value) :
  Worker.validatePayload p = [] →
  (∃ fields, p = VObj fields) ∧ (∃ fields, prop p "context" = VObj fields).
Proof.
  rewrite validatePayload_nil. intros H.
  pose proof (H SchemaVersion) as H1. pose proof (H ContextRegion) as H2.
  simpl in H1, H2. rewrite !chain_prop in *.
  split; eapply truthy_prop_object; eauto.
Qed.

(** The equality of cells. *)
Lemma cell_eqb_eq (a b : cell) : cell_eqb a b = true ↔ a = b.
Proof. apply bool_decide_eq_true. Qed.

Lemma cell_eqb_neq (a b : cell) : cell_eqb a b = false ↔ a ≠ b.
Proof. apply bool_decide_eq_false. Qed.

Lemma cell_eqb_refl (a : cell) : cell_eqb a a = true.
Proof. by apply cell_eqb_eq. Qed.

Lemma cell_eqb_sym (a b : cell) : cell_eqb a b = cell_eqb b a.
Proof.
  destruct (cell_eqb b a) eqn:E.
  - apply cell_eqb_eq. by apply cell_eqb_eq in E.
  - apply cell_eqb_neq. apply cell_eqb_neq in E. congruence.
Qed.

(** [bind] takes a string as it is and refuses an object. *)
Lemma region_written_string (p : value) (s : string) :
  chain (chain p "context") "region" = VStr s →
  region_written p = Some (CellText (if String.eqb s "" then "Unknown" else s)).
Proof.
  intros Hs. unfold region_written, region_of, or_else. rewrite Hs. simpl.
  by destruct (String.eqb s "").
Qed.

Lemma region_written_object (p : value) (fields : list (string * value)) :
  chain (chain p "context") "region" = VObj fields →
  region_written p = None.
Proof.
  intros Hs. unfold region_written, region_of, or_else. by rewrite Hs.
Qed.

(* ===================================================================== *)
(** ** Handlers run alone *)
(* ===================================================================== *)


Lemma run_bind {A B : Type} (m : proc A) (f : A → proc B) (db : DB) :
  run (m ≫= f) db =
  match run m db with
  | (db', Returned a) => run (f a) db'
  | (db', Threw e) => (db', Threw e)
  end.
Proof.
  revert db. induction m as [a | e | R s k IH]; intros db; simpl; auto.
  destruct (exec s db) as [db' [e | r]]; auto.
Qed.

Lemma run_await {R A : Type} (s : stmt R) (k : R → proc A) (db : DB) :
  run (await s ≫= k) db =
  match exec s db with
  | (db', inr r) => run (k r) db'
  | (db', inl e) => (db', Threw e)
  end.
Proof. reflexivity. Qed.

Lemma bump_region_absent (r : cell) (a : Z) (rows : list region_count) :
  has_region r rows = false → bump_region r a rows = rows.
Proof.
  induction rows as [|rc rows IH]; simpl; [done|].
  intros [H1 H2]%orb_false_elim. by rewrite H1, IH.
Qed.

Lemma bump_region_app (r : cell) (a : Z) (xs ys : list region_count) :
  bump_region r a (xs ++ ys) = bump_region r a xs ++ bump_region r a ys.
Proof. apply map_app. Qed.

(** The two statements of worker.js on [region_counts] come to the upsert
    of part_000. *)
Lemma update_after_insert (r : cell) (a : Z) (rows : list region_count) :
  bump_region r a (insert_region_if_absent r rows) = upsert_region r a a rows.
Proof.
  unfold insert_region_if_absent, upsert_region.
  destruct (has_region r rows) eqn:Hr; [done|].
  rewrite bump_region_app, bump_region_absent by done. simpl.
  by rewrite cell_eqb_refl.
Qed.

(** [updateAggregates] of either entry point, run alone. *)
Lemma run_tallying (e : entry) (p : value) (db : DB) :
  run (tallying e p) db = tallied_db p db.
Proof.
  unfold tallied_db, region_written, tallied, region_tallied.
  fold (region_of p).
  destruct e; cbn [tallying];
    unfold Worker.updateAggregates, Part000.updateAggregates;
    fold (region_of p); unfold yes;
    destruct (approve_of p), (prefer_of p); simpl;
    destruct (stored (region_of p)) as [r|]; simpl;
    by rewrite ?update_after_insert.
Qed.

(** Past validation, [handleSubmit] of worker.js is stopped by its
    [ensureSchema], whose [exec] rejects: it throws, and the tables are as
    before. *)
Lemma run_submit_worker (p : value) (k now : string) (db : DB) :
  Worker.validatePayload p = [] → dedupeKey p = Some k →
  run (submit WorkerJs (Some p) now) db = (db, Threw D1ExecError).
Proof.
  intros Hv Hk. unfold submit, Worker.handleSubmit. by rewrite Hv, Hk.
Qed.

Lemma run_submit_valid (p : value) (k now : string) (db : DB) :
  Part000.validate p = [] → dedupeKey p = Some k →
  run (submit Part000Js (Some p) now) db = submitted p k now db.
Proof.
  intros Hv Hk. unfold submitted, submit, Part000.handleSubmit.
  rewrite Hv, Hk. cbv iota.
  rewrite run_await. cbn [exec]. fold (stored_receipt k db).
  destruct (truthy (existing_receipt (stored_receipt k db))); [done|].
  fold (region_of p). rewrite run_await. cbn [exec].
  unfold taken_in, region_written.
  destruct (stored (region_of p)) as [r|] eqn:Hr; [|done].
  destruct (conflicts _ (submissions db)); [done|].
  change (Part000.updateAggregates p) with (tallying Part000Js p).
  rewrite run_bind, run_tallying. unfold tallied_db, region_written.
  by rewrite Hr.
Qed.

Lemma run_submit_unparseable (e : entry) (now : string) (db : DB) :
  run (submit e None now) db
  = (db, Returned (Response 400 (Failure "BAD_JSON" None))).
Proof. by destruct e. Qed.

Lemma run_submit_invalid (e : entry) (p : value) (now : string) (db : DB) :
  validator e p ≠ [] →
  run (submit e (Some p) now) db
  = (db, Returned (Response 422 (Failure "VALIDATION_FAILED"
                                          (Some (validator e p))))).
Proof.
  intros Hv. destruct e; unfold validator in *; unfold submit.
  - unfold Worker.handleSubmit. by destruct (Worker.validatePayload p).
  - unfold Part000.handleSubmit. by destruct (Part000.validate p).
Qed.

Lemma run_submit_unrenderable (e : entry) (p : value) (now : string) (db : DB) :
  validator e p = [] → dedupeKey p = None →
  run (submit e (Some p) now) db = (db, Threw TypeError).
Proof.
  intros Hv Hk. destruct e; unfold validator in *; unfold submit.
  - unfold Worker.handleSubmit. by rewrite Hv, Hk.
  - unfold Part000.handleSubmit. by rewrite Hv, Hk.
Qed.

(** [handleSubmit] of worker.js never writes. *)
Lemma run_submit_worker_frame (request : option value) (now : string)
    (db : DB) :
  (run (submit WorkerJs request now) db).1 = db.
Proof.
  destruct request as [p|]; [|done].
  destruct (Worker.validatePayload p) as [|msg msgs] eqn:Hv.
  - destruct (dedupeKey p) as [k|] eqn:Hk.
    + by rewrite (run_submit_worker p k).
    + by rewrite (run_submit_unrenderable WorkerJs).
  - rewrite (run_submit_invalid WorkerJs); [done|].
    unfold validator. by rewrite Hv.
Qed.

(* ===================================================================== *)
(** ** Counting lemmas *)
(* ===================================================================== *)

Lemma agg_or_0_inc_row (key key' : string) (agg : gmap string Z) :
  agg_or_0 (inc_row key agg) key'
  = agg_or_0 agg key' + (if decide (key = key') then 1 else 0).
Proof.
  unfold agg_or_0, inc_row. rewrite lookup_insert. case_decide as H.
  - subst. simpl. destruct (agg !! key'); simpl; lia.
  - lia.
Qed.

(** The value of a global counter after [updateAggregates]. *)
#[local] Ltac count_tallied :=
  unfold tallied, yes;
  destruct (approve_of _), (prefer_of _); simpl;
  rewrite ?agg_or_0_inc_row; repeat case_decide; try congruence; lia.

Lemma tallied_total (p : value) (agg : gmap string Z) :
  agg_or_0 (tallied p agg) "total_submissions_counted"
  = agg_or_0 agg "total_submissions_counted" + 1.
Proof. count_tallied. Qed.

Lemma tallied_approve (p : value) (agg : gmap string Z) :
  agg_or_0 (tallied p agg) "approve_interim_yes"
  = agg_or_0 agg "approve_interim_yes" + yes (approve_of p).
Proof. count_tallied. Qed.

Lemma tallied_prefer (p : value) (agg : gmap string Z) :
  agg_or_0 (tallied p agg) "prefer_open_contest_yes"
  = agg_or_0 agg "prefer_open_contest_yes" + yes (prefer_of p).
Proof. count_tallied. Qed.

Lemma tallied_both (p : value) (agg : gmap string Z) :
  agg_or_0 (tallied p agg) "both_selected"
  = agg_or_0 agg "both_selected" + yes (approve_of p && prefer_of p).
Proof. count_tallied. Qed.

Lemma tallied_neither (p : value) (agg : gmap string Z) :
  agg_or_0 (tallied p agg) "neither_selected"
  = agg_or_0 agg "neither_selected"
    + yes (negb (approve_of p) && negb (prefer_of p)).
Proof. count_tallied. Qed.

Lemma tally_snoc (f : submission → bool) (rows : list submission)
    (row : submission) :
  tally f (rows ++ [row]) = tally f rows + yes (f row).
Proof.
  unfold yes. induction rows as [|r rows IH]; simpl.
  - lia.
  - rewrite IH. lia.
Qed.

Lemma tally_none (f : submission → bool) (rows : list submission) :
  Forall (fun row => f row = false) rows → tally f rows = 0.
Proof. induction 1 as [|r rows Hr _ IH]; simpl; [done|]. rewrite Hr, IH. lia. Qed.

Lemma tally_split (rows : list submission) :
  tally chose_both rows + tally chose_neither rows
  + tally chose_exactly_one rows = Z.of_nat (List.length rows).
Proof.
  induction rows as [|r rows IH]; simpl; [done|].
  unfold chose_both, chose_neither, chose_exactly_one in *.
  destruct (approved r), (preferred r); simpl; lia.
Qed.

Lemma sum_totals_app (xs ys : list region_count) :
  sum_totals (xs ++ ys) = sum_totals xs + sum_totals ys.
Proof. induction xs as [|x xs IH]; simpl; [done|]. rewrite IH. lia. Qed.

Lemma has_region_elem (r : cell) (rows : list region_count) :
  has_region r rows = true ↔ r ∈ (rc_region <$> rows).
Proof.
  unfold has_region. rewrite existsb_exists, list_elem_of_fmap. split.
  - intros (rc & Hin & Heq). apply cell_eqb_eq in Heq.
    exists rc. split; [done|]. by apply list_elem_of_In.
  - intros (rc & -> & Hin). exists rc. split; [by apply list_elem_of_In|].
    apply cell_eqb_refl.
Qed.

Lemma has_region_absent (r : cell) (rows : list region_count) :
  has_region r rows = false ↔ r ∉ (rc_region <$> rows).
Proof.
  rewrite <- has_region_elem. destruct (has_region r rows); split; congruence.
Qed.

Lemma regions_bump (r : cell) (a : Z) (rows : list region_count) :
  rc_region <$> bump_region r a rows = rc_region <$> rows.
Proof.
  induction rows as [|rc rows IH]; csimpl; [done|].
  rewrite IH. by destruct (cell_eqb (rc_region rc) r).
Qed.

Lemma sum_totals_bump (r : cell) (a : Z) (rows : list region_count) :
  NoDup (rc_region <$> rows) →
  sum_totals (bump_region r a rows) = sum_totals rows + yes (has_region r rows).
Proof.
  unfold yes. induction rows as [|rc rows IH]; csimpl; [done|].
  rewrite NoDup_cons. intros [Hnotin Hnd].
  destruct (cell_eqb (rc_region rc) r) eqn:E; simpl.
  - apply cell_eqb_eq in E. subst r.
    apply has_region_absent in Hnotin.
    rewrite bump_region_absent by done. lia.
  - rewrite IH by done. lia.
Qed.

Lemma regions_upsert (r : cell) (a a' : Z) (rows : list region_count) :
  rc_region <$> upsert_region r a a' rows
  = if has_region r rows then rc_region <$> rows
    else (rc_region <$> rows) ++ [r].
Proof.
  unfold upsert_region. destruct (has_region r rows).
  - apply regions_bump.
  - by rewrite fmap_app.
Qed.

Lemma upsert_keeps_unique (r : cell) (a a' : Z) (rows : list region_count) :
  NoDup (rc_region <$> rows) → NoDup (rc_region <$> upsert_region r a a' rows).
Proof.
  intros Hnd. rewrite regions_upsert. destruct (has_region r rows) eqn:E; [done|].
  apply has_region_absent in E. apply NoDup_app. split_and!; [done| |].
  - intros x Hx Hx'. apply list_elem_of_singleton in Hx'. by subst.
  - apply NoDup_singleton.
Qed.

Lemma sum_totals_upsert (r : cell) (a a' : Z) (rows : list region_count) :
  NoDup (rc_region <$> rows) →
  sum_totals (upsert_region r a a' rows) = sum_totals rows + 1.
Proof.
  intros Hnd. unfold upsert_region. destruct (has_region r rows) eqn:E.
  - rewrite sum_totals_bump, E by done. done.
  - rewrite sum_totals_app. simpl. lia.
Qed.

Lemma has_region_upsert (g r : cell) (a a' : Z) (rows : list region_count) :
  has_region g (upsert_region r a a' rows)
  = has_region g rows || cell_eqb r g.
Proof.
  apply eq_true_iff_eq. rewrite orb_true_iff, !has_region_elem, regions_upsert.
  rewrite cell_eqb_eq.
  destruct (has_region r rows) eqn:E.
  - apply has_region_elem in E. split; [auto|]. intros [H | <-]; done.
  - rewrite elem_of_app, list_elem_of_singleton. split; intros [H|H]; auto.
Qed.

(* ===================================================================== *)
(** ** Consistency is preserved *)
(* ===================================================================== *)

Lemma conflicts_false (row : submission) (rows : list submission) :
  conflicts row rows = false ↔
  (receipt_id row ∉ receipt_id <$> rows)
  ∧ (dedupe_key row ∉ dedupe_key <$> rows).
Proof.
  unfold conflicts. induction rows as [|old rows IH]; csimpl.
  - split; [|done]. intros _. split; apply not_elem_of_nil.
  - rewrite orb_false_iff, IH, !not_elem_of_cons, orb_false_iff.
    rewrite !String.eqb_neq. intuition congruence.
Qed.

Lemma stored_receipt_none (k : string) (db : DB) :
  stored_receipt k db = None ↔ k ∉ (dedupe_key <$> submissions db).
Proof.
  unfold stored_receipt. induction (submissions db) as [|row rows IH]; csimpl.
  - split; [|done]. intros _. apply not_elem_of_nil.
  - rewrite not_elem_of_cons. destruct (String.eqb_spec (dedupe_key row) k).
    + simpl. split; [done|]. intros [? _]. congruence.
    + rewrite IH. simpl. intuition congruence.
Qed.

Lemma stored_receipt_some (k : string) (db : DB) (row : submission) :
  NoDup (dedupe_key <$> submissions db) →
  row ∈ submissions db → dedupe_key row = k →
  stored_receipt k db = Some (receipt_id row).
Proof.
  unfold stored_receipt. intros Hnd Hin <-.
  induction (submissions db) as [|old rows IH]; [by apply elem_of_nil in Hin|].
  csimpl in *. apply NoDup_cons in Hnd as [Hnotin Hnd].
  apply elem_of_cons in Hin as [<- | Hin].
  - by rewrite String.eqb_refl.
  - destruct (String.eqb_spec (dedupe_key old) (dedupe_key row)) as [E|E].
    + exfalso. apply Hnotin. rewrite E. by apply list_elem_of_fmap_2.
    + by apply IH.
Qed.

Lemma receiptId_truthy (k : string) : truthy (VStr (receiptId k)) = true.
Proof. reflexivity. Qed.


Lemma in_region_false (r : cell) (row : submission) :
  in_region r row = false ↔ region row ≠ r.
Proof.
  unfold in_region. apply cell_eqb_neq.
Qed.

Lemma region_counted_upsert (p : value) (k now : string) (r : cell)
    (rows : list submission) (rcs : list region_count) :
  Forall (region_counted rows) rcs →
  Forall (fun row => has_region (region row) rcs = true) rows →
  Forall (region_counted (rows ++ [Submission (receiptId k) k now r p]))
         (region_tallied p r rcs).
Proof.
  intros Hcounted Hcover. unfold region_tallied, upsert_region.
  set (row := Submission (receiptId k) k now r p).
  assert (∀ rc, cell_eqb (rc_region rc) r = false →
                region_counted rows rc → region_counted (rows ++ [row]) rc)
    as Hother.
  { intros rc E [H1 H2]. unfold region_counted. rewrite !tally_snoc.
    unfold in_region at 2 4. simpl.
    rewrite cell_eqb_sym in E. rewrite E.
    simpl. by rewrite !Z.add_0_r. }
  destruct (has_region r rcs) eqn:E.
  - unfold bump_region. apply Forall_map.
    eapply Forall_impl; [exact Hcounted|]. intros rc [H1 H2]. simpl.
    destruct (cell_eqb (rc_region rc) r) eqn:Erc;
      [|by apply Hother].
    apply cell_eqb_eq in Erc. unfold region_counted. simpl.
    rewrite !tally_snoc. unfold in_region at 2 4. simpl.
    rewrite Erc in H1, H2 |- *. rewrite cell_eqb_refl. simpl.
    unfold approved at 2. simpl. split; lia.
  - apply Forall_app. split.
    + rewrite Forall_forall in Hcounted. apply Forall_forall.
      intros rc Hin. apply Hother; [|by apply Hcounted].
      apply cell_eqb_neq. intros Heq. apply has_region_absent in E.
      apply E. rewrite <- Heq. by apply list_elem_of_fmap_2.
    + apply Forall_singleton. unfold region_counted. simpl.
      rewrite !tally_snoc. unfold in_region at 2 4. simpl.
      rewrite cell_eqb_refl. simpl. unfold approved at 2. simpl.
      assert (Forall (fun row => in_region r row = false) rows) as Hnone.
      { eapply Forall_impl; [exact Hcover|]. intros row' Hr. simpl in Hr.
        apply in_region_false. intros Heq.
        rewrite Heq in Hr. congruence. }
      rewrite tally_none by done.
      rewrite tally_none; [lia|].
      eapply Forall_impl; [exact Hnone|]. intros row' Hr. simpl. by rewrite Hr.
Qed.

Lemma consistent_empty : consistent empty_db.
Proof. split; try done; simpl; constructor. Qed.

Lemma taken_in_written (p : value) (k now : string) (r : cell) (db : DB) :
  region_written p = Some r →
  taken_in p k now db
  = MkDB (submissions db ++ [Submission (receiptId k) k now r p])
         (tallied p (aggregates db))
         (region_tallied p r (region_counts db)).
Proof. intros Hr. unfold taken_in. by rewrite Hr. Qed.

Lemma taken_in_refused (p : value) (k now : string) (db : DB) :
  region_written p = None → taken_in p k now db = db.
Proof. intros Hr. unfold taken_in. by rewrite Hr. Qed.

Lemma consistent_taken_in (p : value) (k now : string) (r : cell) (db : DB) :
  consistent db → dedupeKey p = Some k → region_written p = Some r →
  conflicts (Submission (receiptId k) k now r p) (submissions db) = false →
  consistent (taken_in p k now db).
Proof.
  intros [Hkeys Hreceipts Hrows Htotal Happrove Hprefer Hboth Hneither
          Hregions Hsum Hcounted Hcover] Hk Hw [Hr Hd]%conflicts_false.
  simpl in Hr, Hd. rewrite (taken_in_written p k now r) by done.
  unfold counter in *.
  split; unfold counter; cbn [submissions aggregates region_counts].
  - rewrite fmap_app. apply NoDup_app. split_and!; [done| |apply NoDup_singleton].
    intros x Hx Hx'. apply list_elem_of_singleton in Hx'. by subst.
  - rewrite fmap_app. apply NoDup_app. split_and!; [done| |apply NoDup_singleton].
    intros x Hx Hx'. apply list_elem_of_singleton in Hx'. by subst.
  - apply Forall_app. split; [done|]. apply Forall_singleton. by split.
  - rewrite tallied_total, length_app. simpl. lia.
  - rewrite tallied_approve, tally_snoc. unfold approved at 2. simpl. lia.
  - rewrite tallied_prefer, tally_snoc. unfold preferred at 2. simpl. lia.
  - rewrite tallied_both, tally_snoc. unfold chose_both at 2. simpl.
    unfold approved, preferred. simpl. lia.
  - rewrite tallied_neither, tally_snoc. unfold chose_neither at 2.
    unfold approved, preferred. simpl. lia.
  - by apply upsert_keeps_unique.
  - unfold region_tallied. rewrite sum_totals_upsert, length_app by done.
    simpl. lia.
  - by apply region_counted_upsert.
  - apply Forall_app. split.
    + eapply Forall_impl; [exact Hcover|]. intros row Hcov.
      simpl in Hcov. unfold region_tallied. by rewrite has_region_upsert, Hcov.
    + apply Forall_singleton. simpl. unfold region_tallied.
      by rewrite has_region_upsert, cell_eqb_refl, orb_true_r.
Qed.

Lemma consistent_submitted (p : value) (k now : string) (db : DB) :
  consistent db → dedupeKey p = Some k →
  consistent (submitted p k now db).1.
Proof.
  intros Hdb Hk. unfold submitted.
  destruct (truthy (existing_receipt (stored_receipt k db))); [done|].
  destruct (region_written p) as [r|] eqn:Hr; [|done].
  destruct (conflicts _ (submissions db)) eqn:E; [done|].
  by apply (consistent_taken_in p k now r).
Qed.

Lemma consistent_run (e : entry) (request : option value) (now : string)
    (db : DB) :
  consistent db → consistent (run (submit e request now) db).1.
Proof.
  intros Hdb. destruct e; [by rewrite run_submit_worker_frame|].
  destruct request as [p|]; [|by rewrite run_submit_unparseable].
  destruct (Part000.validate p) eqn:Hv.
  - destruct (dedupeKey p) as [k|] eqn:Hk.
    + rewrite (run_submit_valid p k) by done. by apply consistent_submitted.
    + by rewrite run_submit_unrenderable.
  - rewrite run_submit_invalid; [done|]. unfold validator. by rewrite Hv.
Qed.

Lemma reachable_consistent (db : DB) : reachable db → consistent db.
Proof.
  induction 1 as [|e request now db _ IH];
    [apply consistent_empty | by apply consistent_run].
Qed.

(* ===================================================================== *)
(** ** The ledger invariant *)
(* ===================================================================== *)

Lemma remove_dups_length {A : Type} `{EqDecision A} (l : list A) :
  NoDup l → List.length (remove_dups l) = List.length l.
Proof.
  intros Hnd. apply Permutation_length, NoDup_Permutation;
    [apply NoDup_remove_dups | done | apply elem_of_remove_dups].
Qed.

(** C2. After any sequence of submit requests served from the empty store,
    whatever their payloads and whichever entry point serves each:
    [both_selected + neither_selected + (stored submissions with exactly one
    of approve/prefer) = total_submissions_counted]; the [total] column of
    [region_counts] sums to [total_submissions_counted]; and
    [total_submissions_counted] is the number of distinct dedupe keys
    stored. *)
Theorem ledger_consistency (db : DB) :
  reachable db →
  counter db "both_selected" + counter db "neither_selected"
  + tally chose_exactly_one (submissions db)
  = counter db "total_submissions_counted"
  ∧ sum_totals (region_counts db) = counter db "total_submissions_counted"
  ∧ counter db "total_submissions_counted"
    = Z.of_nat (List.length (remove_dups (dedupe_key <$> submissions db))).
Proof.
  intros [Hkeys _ _ Htotal _ _ Hboth Hneither _ Hsum _ _]%reachable_consistent.
  rewrite Hboth, Hneither, Htotal, Hsum, tally_split.
  rewrite remove_dups_length, length_fmap by done. done.
Qed.

(** For every region, the counters of the region agree with the stored
    submissions of that region. *)
Lemma region_counters_agree (db : DB) :
  reachable db → Forall (region_counted (submissions db)) (region_counts db).
Proof. by intros []%reachable_consistent. Qed.

(* ===================================================================== *)
(** ** Idempotent counting *)
(* ===================================================================== *)

Lemma find_append {A : Type} (f : A → bool) (xs ys : list A) :
  find f (xs ++ ys)
  = match find f xs with
    | Some x => Some x
    | None => find f ys
    end.
Proof. induction xs as [|x xs IH]; simpl; [done|]. by destruct (f x). Qed.

Lemma stored_receipt_taken_in (p : value) (k now : string) (r : cell) (db : DB) :
  region_written p = Some r →
  (k ∉ dedupe_key <$> submissions db) →
  stored_receipt k (taken_in p k now db) = Some (receiptId k).
Proof.
  intros Hw Hk%stored_receipt_none. rewrite (taken_in_written p k now r) by done.
  unfold stored_receipt in *. simpl.
  destruct (find _ (submissions db)) as [row|] eqn:E; [discriminate Hk|].
  rewrite find_append, E. simpl. by rewrite String.eqb_refl.
Qed.

Lemma submitted_fresh (p : value) (k now : string) (r : cell) (db : DB) :
  region_written p = Some r →
  (k ∉ dedupe_key <$> submissions db) →
  (receiptId k ∉ receipt_id <$> submissions db) →
  submitted p k now db = (taken_in p k now db, Returned (accepted (receiptId k))).
Proof.
  intros Hw Hk Hr. unfold submitted. rewrite Hw.
  assert (conflicts (Submission (receiptId k) k now r p) (submissions db)
          = false) as ->
    by (by apply conflicts_false).
  by apply stored_receipt_none in Hk as ->.
Qed.

Lemma conflicts_receipt (row : submission) (rows : list submission) :
  receipt_id row ∈ receipt_id <$> rows → conflicts row rows = true.
Proof.
  intros Hin. destruct (conflicts row rows) eqn:E; [done|].
  apply conflicts_false in E as [E _]. contradiction.
Qed.

(** The receipt id of a key that is not stored is the receipt id of a
    stored row: the insert is refused. *)
Lemma submitted_collision (p : value) (k now : string) (r : cell) (db : DB) :
  region_written p = Some r →
  (k ∉ dedupe_key <$> submissions db) →
  receiptId k ∈ receipt_id <$> submissions db →
  submitted p k now db = (db, Threw ConstraintFailed).
Proof.
  intros Hw Hk Hr. unfold submitted. rewrite Hw.
  apply stored_receipt_none in Hk as ->. simpl.
  by rewrite conflicts_receipt.
Qed.

Lemma submitted_duplicate (p : value) (k now r : string) (db : DB) :
  stored_receipt k db = Some r → truthy (VStr r) = true →
  submitted p k now db = (db, Returned (duplicate r)).
Proof. intros Hs Hr. unfold submitted. rewrite Hs. simpl in *. by rewrite Hr. Qed.

Lemma truthy_text (s : string) : truthy (VStr s) = true ↔ s ≠ "".
Proof.
  simpl. destruct (String.eqb_spec s ""); simpl; split; congruence.
Qed.

Lemma submit_all_duplicates (p : value) (k r : string)
    (nows : list string) (db : DB) :
  Part000.validate p = [] → dedupeKey p = Some k →
  stored_receipt k db = Some r → truthy (VStr r) = true →
  submit_all Part000Js p nows db
  = (db, repeat (Returned (duplicate r)) (List.length nows)).
Proof.
  intros Hv Hk Hs Hr. induction nows as [|now later IH]; [done|]. cbn [submit_all].
  rewrite (run_submit_valid p k), (submitted_duplicate p k now r) by done.
  by rewrite IH.
Qed.

Lemma submit_all_collisions (p : value) (k : string) (r : cell)
    (nows : list string) (db : DB) :
  Part000.validate p = [] → dedupeKey p = Some k →
  region_written p = Some r →
  (k ∉ dedupe_key <$> submissions db) →
  receiptId k ∈ receipt_id <$> submissions db →
  submit_all Part000Js p nows db
  = (db, repeat (Threw ConstraintFailed) (List.length nows)).
Proof.
  intros Hv Hk Hw Hfresh Hr. induction nows as [|now later IH]; [done|]. cbn [submit_all].
  rewrite (run_submit_valid p k), (submitted_collision p k now r) by done.
  by rewrite IH.
Qed.

Lemma submit_all_refused (p : value) (k : string) (nows : list string)
    (db : DB) :
  Part000.validate p = [] → dedupeKey p = Some k →
  region_written p = None →
  (k ∉ dedupe_key <$> submissions db) →
  submit_all Part000Js p nows db
  = (db, repeat (Threw D1TypeError) (List.length nows)).
Proof.
  intros Hv Hk Hw Hfresh. induction nows as [|now later IH]; [done|].
  cbn [submit_all]. rewrite (run_submit_valid p k) by done.
  unfold submitted. apply stored_receipt_none in Hfresh as ->.
  cbn [existing_receipt truthy]. rewrite Hw. by rewrite IH.
Qed.

Lemma submit_all_worker (p : value) (k : string) (nows : list string)
    (db : DB) :
  Worker.validatePayload p = [] → dedupeKey p = Some k →
  submit_all WorkerJs p nows db
  = (db, repeat (Threw D1ExecError) (List.length nows)).
Proof.
  intros Hv Hk. induction nows as [|now later IH]; [done|]. cbn [submit_all].
  rewrite (run_submit_worker p k) by done. by rewrite IH.
Qed.

(** C1. A payload that passes validation and whose dedupe key is not
    stored, submitted N >= 1 times.  To part_000, where [bind] takes the
    region and no stored row has the receipt id of the key: one row is
    appended, holding the payload; [total_submissions_counted] grows by
    one; the first call answers [counted = true] with a receipt id no
    stored row had; each of the N-1 later calls answers [counted = false]
    with that same receipt id.  To part_000, where a stored row has the
    receipt id of the key: every call throws, refused by the primary key;
    where [bind] refuses the region: every call throws; in both cases no
    row is made and nothing is counted.  To worker.js: every call
    throws, stopped by [ensureSchema]; no row is made and nothing is
    counted. *)
Theorem idempotent_counting (p : value) (k : string) (nows : list string)
    (db : DB) :
  Part000.validate p = [] → dedupeKey p = Some k →
  (k ∉ dedupe_key <$> submissions db) →
  nows ≠ [] →
  (∀ r, region_written p = Some r →
        (receiptId k ∉ receipt_id <$> submissions db) →
        counted_once Part000Js db p nows)
  ∧ (∀ r, region_written p = Some r →
          receiptId k ∈ receipt_id <$> submissions db →
          submit_all Part000Js p nows db
          = (db, repeat (Threw ConstraintFailed) (List.length nows)))
  ∧ (region_written p = None →
     submit_all Part000Js p nows db
     = (db, repeat (Threw D1TypeError) (List.length nows)))
  ∧ submit_all WorkerJs p nows db
    = (db, repeat (Threw D1ExecError) (List.length nows)).
Proof.
  intros Hv Hk Hfresh Hnows. split_and!.
  - intros r Hw Hreceipt. destruct nows as [|now later]; [done|].
    exists (Submission (receiptId k) k now r p).
    unfold counted_once. cbn [submit_all].
    rewrite (run_submit_valid p k), (submitted_fresh p k now r) by done.
    rewrite (submit_all_duplicates p k (receiptId k)); try done;
      [|by apply (stored_receipt_taken_in p k now r)].
    simpl. rewrite Nat.sub_0_r, (taken_in_written p k now r) by done.
    split_and!; try done.
    unfold counter. simpl. apply tallied_total.
  - intros r Hw Hreceipt. by apply (submit_all_collisions p k r).
  - intros Hw. by apply (submit_all_refused p k).
  - apply (submit_all_worker p k); [|done].
    by apply validators_agree_on_acceptance.
Qed.

(* ===================================================================== *)
(** ** Duplicates *)
(* ===================================================================== *)

(** C3. A submission that passes validation and whose dedupe key is the
    key of a stored row, the keys of the rows being distinct as the table
    has them and the receipt id of that row not empty.  part_000 answers
    with status 200, [ok = true], [counted = false], the receipt id of
    that row and the message of prior counting, and the three tables are
    as before, whether the ledger has counted that row yet or not.
    worker.js throws, stopped by [ensureSchema]; the three tables are as
    before. *)
Theorem duplicate_leaves_store (p : value) (k now : string) (db : DB)
    (row : submission) :
  Part000.validate p = [] → dedupeKey p = Some k →
  NoDup (dedupe_key <$> submissions db) →
  row ∈ submissions db → dedupe_key row = k → receipt_id row ≠ "" →
  (∃ resp,
     run (submit Part000Js (Some p) now) db = (db, Returned resp)
     ∧ status resp = 200
     ∧ ok (content resp) = true
     ∧ content resp
       = Receipt (receipt_id row) false "Duplicate detected (already counted).")
  ∧ run (submit WorkerJs (Some p) now) db = (db, Threw D1ExecError).
Proof.
  intros Hv Hk Hkeys Hin Hrow Hreceipt. split.
  - exists (duplicate (receipt_id row)). split; [|done].
    rewrite (run_submit_valid p k) by done.
    apply submitted_duplicate; [by apply stored_receipt_some|].
    by apply truthy_text.
  - apply (run_submit_worker p k); [|done].
    by apply validators_agree_on_acceptance.
Qed.

(** C10. Two payloads with the same [voter_id] and [schema_version] have
    the same dedupe key.  Once part_000 has counted the first, it answers
    the second, whatever else it holds, [counted = false] with the receipt
    id of the first and leaves the three tables as they are; the stored
    row holds the first payload and the region of the first.  worker.js
    throws at the second, stopped by [ensureSchema], and leaves the three
    tables as they are. *)
Theorem same_voter_is_duplicate (p1 p2 : value) (now1 now2 r : string)
    (db db1 : DB) :
  prop p1 "voter_id" = prop p2 "voter_id" →
  prop p1 "schema_version" = prop p2 "schema_version" →
  Part000.validate p2 = [] →
  run (submit Part000Js (Some p1) now1) db = (db1, Returned (accepted r)) →
  dedupeKey p1 = dedupeKey p2
  ∧ run (submit Part000Js (Some p2) now2) db1 = (db1, Returned (duplicate r))
  ∧ (∃ row, submissions db1 = submissions db ++ [row]
            ∧ receipt_id row = r ∧ payload_json row = p1
            ∧ region_written p1 = Some (region row))
  ∧ run (submit WorkerJs (Some p2) now2) db1 = (db1, Threw D1ExecError).
Proof.
  intros Hvoter Hversion Hv2 Hrun1.
  destruct (Part000.validate p1) eqn:Hv1;
    [|rewrite run_submit_invalid in Hrun1
        by (unfold validator; by rewrite Hv1); discriminate Hrun1].
  destruct (dedupeKey p1) as [k|] eqn:Hk1;
    [|rewrite (run_submit_unrenderable Part000Js) in Hrun1 by done;
      discriminate Hrun1].
  assert (dedupeKey p2 = Some k) as Hk2.
  { unfold dedupeKey, fingerprint_text in *. by rewrite <- Hvoter, <- Hversion. }
  rewrite (run_submit_valid p1 k) in Hrun1 by done.
  unfold submitted in Hrun1.
  destruct (truthy (existing_receipt (stored_receipt k db)));
    [discriminate Hrun1|].
  destruct (region_written p1) as [g|] eqn:Hw; [|discriminate Hrun1].
  destruct (conflicts _ (submissions db)) eqn:Hc; [discriminate Hrun1|].
  apply conflicts_false in Hc as [_ Hfresh]. simpl in Hfresh.
  injection Hrun1 as <- <-. split; [congruence|]. split_and!.
  - rewrite (run_submit_valid p2 k) by done.
    apply submitted_duplicate;
      [by apply (stored_receipt_taken_in p1 k now1 g)|].
    apply receiptId_truthy.
  - rewrite (taken_in_written p1 k now1 g) by done. by eexists.
  - apply (run_submit_worker p2 k); [|done].
    by apply validators_agree_on_acceptance.
Qed.

(* ===================================================================== *)
(** ** Rejections *)
(* ===================================================================== *)

(** C5. A body that does not parse is answered
    [{ok: false, error: "BAD_JSON"}] (status 400), a payload with a
    non-empty error list [{ok: false, error: "VALIDATION_FAILED",
    details: <that list>}] (status 422); in both cases the handler returns
    without having issued any statement, so that the three tables are as
    before. *)
Theorem rejection_before_any_write (e : entry) (now : string) (db : DB) :
  (submit e None now = Done (Response 400 (Failure "BAD_JSON" None))
   ∧ run (submit e None now) db
     = (db, Returned (Response 400 (Failure "BAD_JSON" None))))
  ∧ ∀ p, validator e p ≠ [] →
      submit e (Some p) now
      = Done (Response 422 (Failure "VALIDATION_FAILED" (Some (validator e p))))
      ∧ run (submit e (Some p) now) db
        = (db, Returned (Response 422 (Failure "VALIDATION_FAILED"
                                         (Some (validator e p))))).
Proof.
  split.
  - by destruct e.
  - intros p Hp. split; [|by apply run_submit_invalid].
    destruct e; unfold submit, validator in *.
    + unfold Worker.handleSubmit. by destruct (Worker.validatePayload p).
    + unfold Part000.handleSubmit. by destruct (Part000.validate p).
Qed.

(* ===================================================================== *)
(** ** Fingerprint and receipt *)
(* ===================================================================== *)

Lemma string_length_append (s t : string) :
  String.length (s +:+ t) = (String.length s + String.length t)%nat.
Proof. induction s as [|c s IH]; simpl; [done|]. by rewrite IH. Qed.

Lemma hex_concat_length (bytes : list Z) :
  String.length (String.concat "" (map hex2 bytes))
  = (2 * List.length bytes)%nat.
Proof.
  induction bytes as [|b bytes IH]; [done|].
  destruct bytes as [|b' bytes]; [done|].
  change (String.concat "" (map hex2 (b :: b' :: bytes)))
    with (hex2 b +:+ "" +:+ String.concat "" (map hex2 (b' :: bytes))).
  rewrite !string_length_append, IH. simpl. lia.
Qed.

Lemma digest_length (msg : list Z) : List.length (SHA256.digest msg) = 32%nat.
Proof.
  unfold SHA256.digest. cbv zeta.
  generalize (SHA256.blocks
                (List.length (SHA256.be_words (List.length (SHA256.pad msg))
                                              (SHA256.pad msg)))
                (SHA256.be_words (List.length (SHA256.pad msg)) (SHA256.pad msg))
                SHA256.H0).
  intros h. reflexivity.
Qed.

Lemma sha256_length (str : string) : String.length (sha256 str) = 64%nat.
Proof. unfold sha256. by rewrite hex_concat_length, digest_length. Qed.

Lemma substring_length (n : nat) (s : string) :
  (n ≤ String.length s)%nat → String.length (String.substring 0 n s) = n.
Proof.
  revert s. induction n as [|n IH]; intros [|c s]; simpl; try done; try lia.
  intros H. rewrite IH; [done | lia].
Qed.

Lemma receiptId_length (k : string) : String.length (receiptId k) = 10%nat.
Proof.
  unfold receiptId, slice0. rewrite string_length_append, substring_length.
  - done.
  - rewrite sha256_length. lia.
Qed.

Lemma answered_receipt (e : entry) (p : value) (now : string) (db db' : DB)
    (resp : response) :
  consistent db →
  run (submit e (Some p) now) db = (db', Returned resp) →
  ok (content resp) = true →
  ∃ k counted message,
    dedupeKey p = Some k
    ∧ content resp = Receipt (receiptId k) counted message.
Proof.
  intros Hdb Hrun Hok.
  destruct (validator e p) eqn:Hv;
    [|rewrite run_submit_invalid in Hrun by (by rewrite Hv);
      injection Hrun as <- <-; discriminate Hok].
  destruct (dedupeKey p) as [k|] eqn:Hk;
    [|rewrite run_submit_unrenderable in Hrun by done; discriminate Hrun].
  destruct e; [by rewrite (run_submit_worker p k) in Hrun|].
  exists k. rewrite (run_submit_valid p k) in Hrun by done.
  unfold submitted in Hrun.
  destruct (stored_receipt k db) as [r|] eqn:Hs.
  - assert (r = receiptId k) as ->.
    { unfold stored_receipt in Hs.
      destruct (find _ (submissions db)) as [row|] eqn:Hfind; [|discriminate Hs].
      apply find_some in Hfind as [Hin Hkey]. apply String.eqb_eq in Hkey.
      pose proof (rows_derived db Hdb) as Hrows. rewrite Forall_forall in Hrows.
      apply list_elem_of_In in Hin. destruct (Hrows row Hin) as (_ & Hr & _).
      simpl in Hs. congruence. }
    unfold existing_receipt in Hrun. rewrite receiptId_truthy in Hrun.
    injection Hrun as <- <-. by eexists _, _.
  - simpl in Hrun. destruct (region_written p); [|discriminate Hrun].
    destruct (conflicts _ (submissions db)); [discriminate Hrun|].
    injection Hrun as <- <-. by eexists _, _.
Qed.

(** C6. The dedupe key is the SHA-256 digest, in hexadecimal, of
    [voter_id|schema_version|window_id]; two payloads with the same
    [voter_id] and [schema_version] derive the same key; the receipt id is
    the tag [r_] followed by the first 8 characters of the digest of the
    key, 10 characters in all; and every successful answer to a submission,
    from either entry point, on any consistent store and at any time,
    carries the receipt id derived from the key of the payload. *)
Theorem receipt_is_determined :
  (∀ p voter version,
     toString (prop p "voter_id") = Some voter →
     toString (prop p "schema_version") = Some version →
     dedupeKey p
     = Some (sha256 (voter +:+ "|" +:+ version +:+ "|" +:+ windowId)))
  ∧ (∀ p1 p2,
       prop p1 "voter_id" = prop p2 "voter_id" →
       prop p1 "schema_version" = prop p2 "schema_version" →
       dedupeKey p1 = dedupeKey p2)
  ∧ (∀ k, receiptId k = "r_" +:+ String.substring 0 8 (sha256 k)
          ∧ String.length (receiptId k) = 10%nat)
  ∧ (∀ e1 e2 p now1 now2 db1 db2 db1' db2' resp1 resp2,
       consistent db1 → consistent db2 →
       run (submit e1 (Some p) now1) db1 = (db1', Returned resp1) →
       run (submit e2 (Some p) now2) db2 = (db2', Returned resp2) →
       ok (content resp1) = true → ok (content resp2) = true →
       ∃ k c1 c2 m1 m2,
         dedupeKey p = Some k
         ∧ content resp1 = Receipt (receiptId k) c1 m1
         ∧ content resp2 = Receipt (receiptId k) c2 m2).
Proof.
  split_and!.
  - intros p voter version Hvoter Hversion.
    unfold dedupeKey, fingerprint_text. by rewrite Hvoter, Hversion.
  - intros p1 p2 Hvoter Hversion.
    unfold dedupeKey, fingerprint_text. by rewrite Hvoter, Hversion.
  - intros k. split; [done | apply receiptId_length].
  - intros e1 e2 p now1 now2 db1 db2 db1' db2' resp1 resp2
      Hdb1 Hdb2 Hrun1 Hrun2 Hok1 Hok2.
    destruct (answered_receipt _ _ _ _ _ _ Hdb1 Hrun1 Hok1)
      as (k & c1 & m1 & Hk & H1).
    destruct (answered_receipt _ _ _ _ _ _ Hdb2 Hrun2 Hok2)
      as (k' & c2 & m2 & Hk' & H2).
    assert (k' = k) as -> by congruence.
    by exists k, c1, c2, m1, m2.
Qed.

(* ===================================================================== *)
(** ** The two entry points compared *)
(* ===================================================================== *)

Lemma validate_is_filtered (p : value) :
  is_object p = true →
  Part000.validate p = without_context_message (Worker.validatePayload p).
Proof.
  unfold Worker.validatePayload, Part000.validate, is_object. intros Hp.
  apply andb_prop in Hp as [-> ->]. rewrite !chain_prop.
  destruct (truthy (prop p "schema_version")),
    (truthy (prop p "created_utc")), (truthy (prop p "voter_id")),
    (truthy (prop p "context")),
    (String.eqb (typeof (prop p "context")) "object"),
    (truthy (prop (prop p "context") "region")),
    (truthy (prop (prop p "context") "country_or_territory"));
    reflexivity.
Qed.

(** C9 (amended). The two validators accept the same payloads; on an
    object or an array the list of [validate] is the list of
    [validatePayload] without "Missing context object"; on any other
    value [validatePayload] answers the single message
    "Payload must be JSON object".  The two
    submit handlers give the same outcome for a body that does not
    parse; a payload that fails validation is answered with status 422
    and VALIDATION_FAILED by both, each with its own list, and both leave
    the three tables as they are.  [updateAggregates] of the one and of
    the other, run alone on the same tables, leave the same tables with
    the same outcome. *)
Theorem entry_points_compared :
  (∀ p, Worker.validatePayload p = [] ↔ Part000.validate p = [])
  ∧ (∀ p, is_object p = true →
          Part000.validate p
          = without_context_message (Worker.validatePayload p))
  ∧ (∀ p, is_object p = false →
          Worker.validatePayload p = ["Payload must be JSON object"])
  ∧ (∀ now db,
       run (Worker.handleSubmit None now) db
       = run (Part000.handleSubmit None now) db)
  ∧ (∀ p now db,
       Worker.validatePayload p ≠ [] →
       Part000.validate p ≠ []
       ∧ run (Worker.handleSubmit (Some p) now) db
         = (db, Returned (rejected (Worker.validatePayload p)))
       ∧ run (Part000.handleSubmit (Some p) now) db
         = (db, Returned (rejected (Part000.validate p))))
  ∧ (∀ p db,
       run (Worker.updateAggregates p) db
       = run (Part000.updateAggregates p) db).
Proof.
  split_and!.
  - apply validators_agree_on_acceptance.
  - apply validate_is_filtered.
  - apply validatePayload_scalar.
  - done.
  - intros p now db Hw.
    assert (Part000.validate p ≠ []) as Hp
      by (by rewrite <- validators_agree_on_acceptance).
    split; [done|]. split.
    + apply (run_submit_invalid WorkerJs p now db Hw).
    + apply (run_submit_invalid Part000Js p now db Hp).
  - intros p db.
    change (run (tallying WorkerJs p) db = run (tallying Part000Js p) db).
    by rewrite !run_tallying.
Qed.

(* ===================================================================== *)
(** ** Validation *)
(* ===================================================================== *)

(** C4 (amended). Both validators return the empty list exactly for the
    payloads in which [schema_version], [created_utc], [voter_id],
    [context.region] and [context.country_or_territory] hold a value that
    JavaScript takes for true and [context] is an object.  [validate]
    lists, for every payload, the message of each of the five fields that
    is not so.  [validatePayload] lists, for a payload that is an object or
    an array, the message of each of the six requirements that is not met;
    for [null] and for a value that is not an object it answers the single
    message "Payload must be JSON object". *)
Theorem validation_collects_all (p : value) :
  (Worker.validatePayload p = [] ↔ ∀ r, meets p r = true)
  ∧ (Part000.validate p = [] ↔ ∀ r, meets p r = true)
  ∧ (∀ r, r ∈ required_fields →
          message r ∈ Part000.validate p ↔ meets p r = false)
  ∧ (is_object p = true →
     ∀ r, message r ∈ Worker.validatePayload p ↔ meets p r = false)
  ∧ (is_object p = false →
     Worker.validatePayload p = ["Payload must be JSON object"]).
Proof.
  split_and!.
  - apply validatePayload_nil.
  - apply validate_nil.
  - intros r. apply validate_lists.
  - intros Hp r. by apply validatePayload_lists.
  - apply validatePayload_scalar.
Qed.

(* ===================================================================== *)
(** ** The report *)
(* ===================================================================== *)

Lemma rate_null_iff (e : entry) (count total : Z) :
  rate_of e count total = None ↔ total = 0.
Proof.
  destruct e; unfold rate_of, Worker.rate, Part000.rate;
    by destruct (Z.eqb_spec total 0).
Qed.

Lemma agg_or_0_read (agg : gmap string Z) (key : string) :
  agg_or_0 (list_to_map (prod_map id as_number <$> map_to_list agg)) key
  = as_number (agg_or_0 agg key).
Proof.
  unfold agg_or_0. rewrite list_to_map_fmap, list_to_map_to_list, lookup_fmap.
  by destruct (agg !! key).
Qed.

(** [handleResults] of worker.js is stopped by its [ensureSchema]. *)
Lemma run_results_worker (now : string) (db : DB) :
  run (Worker.handleResults now) db = (db, Threw D1ExecError).
Proof. reflexivity. Qed.

Lemma run_results_part000 (now : string) (db : DB) :
  run (Part000.handleResults now) db
  = (db, Returned (reported Part000.rate now db)).
Proof.
  unfold Part000.handleResults, reported, reading, counter.
  rewrite run_await. cbn [exec]. rewrite run_await. cbn [exec].
  rewrite !agg_or_0_read. cbn [run]. do 3 f_equal.
  rewrite <- list_fmap_compose. reflexivity.
Qed.

(** C7. [round1((count / total) * 100)] of worker.js at 23 of 80:
    [100 * 23 / 80] is 28.75, which rounds to 28.8 with a tie going up
    and with a tie going to the even neighbour; the rate is 28.7.  At 1
    of 3 it is 33.3, and it is [null] exactly when the total is 0; at
    6.25 (1 of 16) the tie goes up, at 51.25 (41 of 80) it goes down.
    [handleResults] of worker.js makes no report: it throws, stopped by
    [ensureSchema].  The rate of part_000 at 203 of 400, 50.75, is 50.7,
    and so says its report on a ledger of 400 ballots of which 203
    approve. *)
Theorem rate_of_tie_rounds_down :
  Worker.rate 23 80 = Some 28.7%float
  ∧ 2 * (1000 * 23) = (2 * 287 + 1) * 80
  ∧ percent_rounded tenths_half_up 23 80 = Some 28.8%float
  ∧ percent_rounded tenths_half_even 23 80 = Some 28.8%float
  ∧ Worker.rate 23 80 ≠ percent_rounded tenths_half_up 23 80
  ∧ Worker.rate 1 3 = Some 33.3%float
  ∧ (∀ count total, Worker.rate count total = None ↔ total = 0)
  ∧ Worker.rate 1 16 = Some 6.3%float
  ∧ Worker.rate 41 80 = Some 51.2%float
  ∧ (∀ now db, run (Worker.handleResults now) db = (db, Threw D1ExecError))
  ∧ Part000.rate 203 400 = Some 50.7%float
  ∧ 2 * (1000 * 203) = (2 * 507 + 1) * 400
  ∧ percent_rounded tenths_half_up 203 400 = Some 50.8%float
  ∧ percent_rounded tenths_half_even 203 400 = Some 50.8%float
  ∧ Part000.rate 1 3 = Some 33.3%float
  ∧ (∀ count total, Part000.rate count total = None ↔ total = 0)
  ∧ (∀ now db,
       counter db "total_submissions_counted" = 400 →
       counter db "approve_interim_yes" = 203 →
       ∃ rep, run (Part000.handleResults now) db = (db, Returned rep)
              ∧ total_submissions_counted (ballot_of rep) = 400
              ∧ approve_interim_yes (ballot_of rep) = 203
              ∧ approval_rate_percent (ballot_of rep) = Some 50.7%float).
Proof.
  assert (Part000.rate 203 400 = Some 50.7%float) as Hrate
    by (vm_compute; reflexivity).
  split; [vm_compute; reflexivity|].
  split; [reflexivity|].
  split; [vm_compute; reflexivity|].
  split; [vm_compute; reflexivity|].
  split; [vm_compute; discriminate|].
  split; [vm_compute; reflexivity|].
  split; [apply (rate_null_iff WorkerJs)|].
  split; [vm_compute; reflexivity|].
  split; [vm_compute; reflexivity|].
  split; [apply run_results_worker|].
  split; [exact Hrate|].
  split; [reflexivity|].
  split; [vm_compute; reflexivity|].
  split; [vm_compute; reflexivity|].
  split; [vm_compute; reflexivity|].
  split; [apply (rate_null_iff Part000Js)|].
  intros now db Htotal Happrove. eexists.
  split; [apply run_results_part000|].
  unfold reported, reading. cbn [ballot_of total_submissions_counted
    approve_interim_yes approval_rate_percent].
  rewrite Htotal, Happrove. split_and!; first [reflexivity | exact Hrate].
Qed.

(* ===================================================================== *)
(** ** Requests in flight together *)
(* ===================================================================== *)

(** A handler stepped alone until it completes is the handler run alone. *)
Lemma interleave_alone {A : Type} (m : proc A) (db : DB) :
  ∃ n, ∀ extra,
    interleave (repeat 0%nat (n + extra)) [m] db
    = ((run m db).1,
       [match (run m db).2 with
        | Returned a => Done a
        | Threw e => Throw e
        end]).
Proof.
  revert db. induction m as [a | e | R s k IH]; intros db.
  - exists 0%nat. intros extra. induction extra as [|extra IHx]; [done|].
    simpl. exact IHx.
  - exists 0%nat. intros extra. induction extra as [|extra IHx]; [done|].
    simpl. exact IHx.
  - simpl. destruct (exec s db) as [db' [e | r]] eqn:E.
    + exists 1%nat. intros extra. simpl. rewrite E. simpl.
      induction extra as [|extra IHx]; [done|]. simpl. exact IHx.
    + destruct (IH r db') as [n Hn]. exists (S n). intros extra.
      simpl. rewrite E. simpl. apply Hn.
Qed.

Lemma region_of_plain (p : value) :
  region_of p = or_else (prop (prop p "context") "region") (VStr "Unknown").
Proof. unfold region_of. by rewrite !chain_prop. Qed.

Lemma submit_starting (e : entry) (p : value) (k now : string) :
  validator e p = [] → dedupeKey p = Some k →
  submit e (Some p) now = starting e p k now.
Proof.
  intros Hv Hk. destruct e; unfold validator in Hv; unfold submit.
  - unfold Worker.handleSubmit, starting, selecting, inserting.
    rewrite Hv, Hk, region_of_plain. reflexivity.
  - unfold Part000.handleSubmit. rewrite Hv, Hk. reflexivity.
Qed.

Lemma run_step {A : Type} (m : proc A) (db : DB) :
  run (step m db).2 (step m db).1 = run m db.
Proof.
  destruct m as [a | e | R s k]; simpl; try done.
  by destruct (exec s db) as [db' [e | r]].
Qed.

Lemma ledger_only_counting (e : entry) (p : value) (k : string) :
  ledger_only (counting e p k).
Proof.
  unfold counting, tallying, Worker.updateAggregates,
    Part000.updateAggregates.
  destruct e; cbv zeta; destruct (approve_of p), (prefer_of p);
    repeat constructor.
Qed.

Lemma step_starting (e : entry) (p : value) (k now : string) (db : DB) :
  step (starting e p k now) db = (db, Throw D1ExecError)
  ∨ step (starting e p k now) db = step (selecting e p k now) db.
Proof. destruct e; [by left | by right]. Qed.

Lemma step_selecting (e : entry) (p : value) (k now : string) (db : DB) :
  step (selecting e p k now) db
  = (db, if truthy (existing_receipt (stored_receipt k db))
         then Done (duplicate (default "" (stored_receipt k db)))
         else inserting e p k now).
Proof. reflexivity. Qed.

Lemma step_inserting (e : entry) (p : value) (k now : string) (db : DB) :
  step (inserting e p k now) db
  = match region_written p with
    | None => (db, Throw D1TypeError)
    | Some r =>
        if conflicts (Submission (receiptId k) k now r p) (submissions db)
        then (db, Throw ConstraintFailed)
        else (MkDB (submissions db ++ [Submission (receiptId k) k now r p])
                   (aggregates db) (region_counts db),
              counting e p k)
    end.
Proof.
  unfold inserting, region_written. simpl.
  destruct (stored (region_of p)) as [r|]; [|done].
  by destruct (conflicts _ _).
Qed.

Lemma run_counting (e : entry) (p : value) (k : string) (r : cell) (db : DB) :
  region_written p = Some r →
  run (counting e p k) db
  = (MkDB (submissions db) (tallied p (aggregates db))
          (region_tallied p r (region_counts db)),
     Returned (accepted (receiptId k))).
Proof.
  intros Hr. unfold counting. rewrite run_bind, run_tallying.
  unfold tallied_db. by rewrite Hr.
Qed.

Lemma stored_receipt_after_insert (p : value) (k now : string) (r : cell)
    (db0 db : DB) :
  (k ∉ dedupe_key <$> submissions db0) →
  submissions db = submissions db0 ++ [Submission (receiptId k) k now r p] →
  stored_receipt k db = Some (receiptId k).
Proof.
  intros Hk%stored_receipt_none Hsubs. unfold stored_receipt in *.
  rewrite Hsubs, find_append.
  destruct (find _ (submissions db0)); [discriminate Hk|].
  simpl. by rewrite String.eqb_refl.
Qed.

Lemma conflicts_after_insert (p : value) (k now now' : string) (r : cell)
    (db0 db : DB) :
  submissions db = submissions db0 ++ [Submission (receiptId k) k now r p] →
  conflicts (Submission (receiptId k) k now' r p) (submissions db) = true.
Proof.
  intros ->. unfold conflicts. rewrite existsb_app.
  cbn [existsb receipt_id dedupe_key].
  by rewrite !String.eqb_refl, !orb_true_r.
Qed.

(** A request of part_000 that has not inserted, stepped in a store
    without the key. *)
Lemma step_undecided_fresh (p : value) (k : string) (r : cell) (db0 : DB)
    (m : proc response) :
  region_written p = Some r →
  (k ∉ dedupe_key <$> submissions db0) →
  (receiptId k ∉ receipt_id <$> submissions db0) →
  undecided p k m →
  ((step m db0).1 = db0 ∧ undecided p k (step m db0).2)
  ∨ ∃ now, m = inserting Part000Js p k now
           ∧ step m db0
             = (MkDB (submissions db0 ++ [Submission (receiptId k) k now r p])
                     (aggregates db0) (region_counts db0),
                counting Part000Js p k).
Proof.
  intros Hw Hk Hr (now & [-> | ->]).
  - left. rewrite step_selecting. apply stored_receipt_none in Hk as ->.
    split; [done|]. exists now. by right.
  - right. exists now. split; [done|]. rewrite step_inserting, Hw.
    assert (conflicts (Submission (receiptId k) k now r p)
                      (submissions db0) = false) as ->
      by (by apply conflicts_false).
    done.
Qed.

(** A request of part_000 that has not inserted, stepped once another
    has. *)
Lemma step_undecided_late (p : value) (k now : string) (r : cell)
    (db0 db : DB) (m : proc response) :
  region_written p = Some r →
  (k ∉ dedupe_key <$> submissions db0) →
  submissions db = submissions db0 ++ [Submission (receiptId k) k now r p] →
  undecided p k m →
  (step m db).1 = db ∧ lost k (step m db).2.
Proof.
  intros Hw Hk Hsubs (now' & [-> | ->]).
  - rewrite step_selecting,
      (stored_receipt_after_insert p k now r db0 db) by done.
    split; [done|]. by left.
  - rewrite step_inserting, Hw,
      (conflicts_after_insert p k now now' r db0 db) by done.
    split; [done|]. by right.
Qed.

Lemma ledger_only_step {A : Type} (m : proc A) (db : DB) :
  ledger_only m →
  (ledger_only (step m db).2 ∨ ∃ e, (step m db).2 = Throw e)
  ∧ submissions (step m db).1 = submissions db.
Proof.
  destruct 1 as [a | key c Hc | v c Hc | a v c Hc | v a a' c Hc]; simpl;
    try (split; [left; by try constructor | done]);
    destruct (stored v); simpl; (split; [|done]); eauto.
Qed.

Lemma race_inv_step (p : value) (k : string) (r : cell) (db0 db : DB)
    (pool : list (proc response)) (i : nat) (m : proc response) :
  region_written p = Some r →
  (k ∉ dedupe_key <$> submissions db0) →
  (receiptId k ∉ receipt_id <$> submissions db0) →
  race_inv p k r db0 db pool → pool !! i = Some m →
  race_inv p k r db0 (step m db).1 (<[i := (step m db).2]> pool).
Proof.
  intros Hw Hk Hr Hinv Hi.
  assert (i < List.length pool)%nat as Hlt by (by eapply lookup_lt_Some).
  destruct Hinv as [[-> Hall] | (w & now & tail & Hw' & Htail & Hrun & Hsubs & Hrest)].
  - assert (undecided p k m) as Hm
      by (by eapply (proj1 (Forall_lookup _ _) Hall)).
    destruct (step_undecided_fresh p k r db0 m Hw Hk Hr Hm)
      as [[Hdb Hm'] | (now & -> & Hstep)].
    + left. rewrite Hdb. split; [done|]. by apply Forall_insert.
    + right. rewrite Hstep. exists i, now, (counting Part000Js p k).
      cbn [fst snd submissions].
      split_and!.
      * by apply list_lookup_insert_eq.
      * apply ledger_only_counting.
      * rewrite (run_counting Part000Js p k r) by done.
        by rewrite (taken_in_written p k now r).
      * done.
      * intros j m' Hj Hm'. rewrite list_lookup_insert_ne in Hm' by done.
        left. by eapply (proj1 (Forall_lookup _ _) Hall).
  - right. destruct (decide (i = w)) as [-> | Hne].
    + assert (m = tail) as -> by congruence.
      destruct (ledger_only_step tail db Htail) as [Htail' Hsubs'].
      exists w, now, (step tail db).2. split_and!.
      * by apply list_lookup_insert_eq.
      * destruct Htail' as [Htail' | [e He]]; [done|].
        pose proof (run_step tail db) as Hstep. rewrite He, Hrun in Hstep.
        discriminate Hstep.
      * by rewrite run_step.
      * by rewrite Hsubs'.
      * intros j m' Hj Hm'. rewrite list_lookup_insert_ne in Hm' by done.
        by eapply Hrest.
    + assert ((step m db).1 = db
              ∧ (undecided p k (step m db).2 ∨ lost k (step m db).2))
        as [Hdb Hm'].
      { destruct (Hrest i m Hne Hi) as [Hpre | [-> | ->]].
        - destruct (step_undecided_late p k now r db0 db m) as [? ?];
            by eauto.
        - split; [done|]. right. by left.
        - split; [done|]. right. by right. }
      rewrite Hdb. exists w, now, tail. split_and!; try done.
      * by rewrite list_lookup_insert_ne.
      * intros j m' Hj Hjm. destruct (decide (j = i)) as [-> | Hji].
        -- rewrite list_lookup_insert_eq in Hjm by done. congruence.
        -- rewrite list_lookup_insert_ne in Hjm by done. by eapply Hrest.
Qed.

Lemma race_inv_interleave (p : value) (k : string) (r : cell) (db0 : DB)
    (schedule : list nat) (pool : list (proc response)) (db : DB) :
  region_written p = Some r →
  (k ∉ dedupe_key <$> submissions db0) →
  (receiptId k ∉ receipt_id <$> submissions db0) →
  race_inv p k r db0 db pool →
  race_inv p k r db0 (interleave schedule pool db).1
           (interleave schedule pool db).2.
Proof.
  intros Hw Hk Hr. revert pool db.
  induction schedule as [|i rest IH]; intros pool db Hinv; simpl; [done|].
  destruct (pool !! i) as [m|] eqn:Hi; [|by apply IH].
  pose proof (race_inv_step p k r db0 db pool i m Hw Hk Hr Hinv Hi) as Hstep.
  destruct (step m db) as [db' m']. by apply IH.
Qed.

Lemma interleave_length {A : Type} (schedule : list nat)
    (pool : list (proc A)) (db : DB) :
  List.length (interleave schedule pool db).2 = List.length pool.
Proof.
  revert pool db.
  induction schedule as [|i rest IH]; intros ms db; simpl; [done|].
  destruct (ms !! i) as [m|]; [|apply IH].
  destruct (step m db) as [db' m']. rewrite IH. apply length_insert.
Qed.

(** Whatever the interleaving of the statements of requests to part_000
    that carry one validated payload, in a store that holds neither its
    dedupe key nor its receipt id: once every request has completed,
    exactly one has inserted and answers counted, the store is the store
    of that single submission, counted once, and every other request has
    answered duplicate with the same receipt id or has thrown on its
    refused insert. *)
Lemma one_insert_whatever_the_interleaving (p : value) (k : string)
    (r : cell) (nows : list string) (schedule : list nat) (db0 : DB) :
  Part000.validate p = [] → dedupeKey p = Some k →
  region_written p = Some r →
  (k ∉ dedupe_key <$> submissions db0) →
  (receiptId k ∉ receipt_id <$> submissions db0) →
  nows ≠ [] →
  let pool := (fun now => submit Part000Js (Some p) now) <$> nows in
  Forall finished (interleave schedule pool db0).2 →
  ∃ (w : nat) (now : string),
    (interleave schedule pool db0).1 = taken_in p k now db0
    ∧ (interleave schedule pool db0).2 !! w
      = Some (Done (accepted (receiptId k)))
    ∧ ∀ j m, j ≠ w → (interleave schedule pool db0).2 !! j = Some m →
             lost k m.
Proof.
  intros Hv Hkey Hw Hk Hr Hne pool Hfin.
  assert (race_inv p k r db0 db0 pool) as Hinv.
  { left. split; [done|]. apply Forall_fmap, Forall_forall.
    intros now _. exists now. left.
    by rewrite (submit_starting Part000Js p k). }
  apply (race_inv_interleave p k r db0 schedule) in Hinv; [|done|done|done].
  pose proof (interleave_length schedule pool db0) as Hlen.
  destruct Hinv as [[_ Hall] | (w & now & tail & Hw' & Htail & Hrun & Hsubs & Hrest)].
  - exfalso. destruct (interleave schedule pool db0).2 as [|m rest] eqn:E.
    + unfold pool in Hlen. rewrite length_fmap in Hlen.
      by destruct nows.
    + apply Forall_cons in Hall as [(now & [-> | ->]) _];
        by apply Forall_cons in Hfin as [Hfin _].
  - exists w, now.
    assert (finished tail) as Hdone
      by (by eapply (proj1 (Forall_lookup _ _) Hfin)).
    destruct tail as [a | e | R s c]; simpl in Hrun; try done.
    injection Hrun as -> ->. split_and!; [done | done |].
    intros j m Hj Hm. destruct (Hrest j m Hj Hm) as [Hpre | Hlost]; [|done].
    exfalso. assert (finished m) as Hm'
      by (by eapply (proj1 (Forall_lookup _ _) Hfin)).
    by destruct Hpre as (now' & [-> | ->]).
Qed.

(** Requests to worker.js in flight together: whatever the interleaving,
    the store stays as it is, and a request that has completed has
    answered without a statement or has thrown. *)
Lemma worker_pool_frame (requests : list (option value * string))
    (schedule : list nat) (db : DB) :
  let pool := (fun r => submit WorkerJs r.1 r.2) <$> requests in
  (interleave schedule pool db).1 = db
  ∧ Forall (fun m => ∀ resp, m = Done resp → ok (content resp) = false)
           (interleave schedule pool db).2.
Proof.
  intros pool.
  assert (Forall (fun m => (step m db = (db, m) ∧ finished m
                            ∧ ∀ resp, m = Done resp → ok (content resp) = false)
                           ∨ step m db = (db, Throw D1ExecError)) pool)
    as Hpool.
  { apply Forall_fmap, Forall_forall. intros [request now] _.
    unfold compose. cbn [fst snd].
    destruct request as [p|];
      [|left; split_and!; [done|done|by intros resp [= <-]]].
    destruct (Worker.validatePayload p) as [|msg msgs] eqn:Hv.
    - destruct (dedupeKey p) as [k|] eqn:Hk.
      + right. by rewrite (submit_starting WorkerJs p k).
      + left. unfold submit, Worker.handleSubmit. rewrite Hv, Hk.
        split_and!; [done|done|discriminate].
    - left. unfold submit, Worker.handleSubmit. rewrite Hv.
      split_and!; [done|done|]. by intros resp [= <-]. }
  clearbody pool. revert pool Hpool.
  induction schedule as [|i rest IH]; intros pool Hpool; simpl.
  - split; [done|]. eapply Forall_impl; [exact Hpool|].
    intros m [(_ & _ & Hm) | Hm] resp ->; [by apply Hm|discriminate Hm].
  - destruct (pool !! i) as [m|] eqn:Hi; [|by apply IH].
    destruct (proj1 (Forall_lookup _ _) Hpool i m Hi)
      as [(Hm & Hfin & Hok) | Hm]; rewrite Hm; apply IH;
      (apply Forall_insert; [done|]); left.
    + by rewrite Hm.
    + split_and!; [done|done|discriminate].
Qed.

(** C8. Two requests to part_000 with the ballot of voter v1, each having
    looked the key up before the other inserts: one insert succeeds, the
    ledger counts once and the store is the store of a single submission,
    but the second request does not answer [counted = false] with the
    receipt id: its insert is refused and it throws.  Served one after
    the other, the same two requests are answered counted and duplicate.
    The same two requests to worker.js: no insert succeeds, both throw,
    stopped by [ensureSchema]. *)
Theorem racing_duplicate_throws :
  interleave racing_schedule (racing_pool Part000Js) empty_db
  = (store_v1, [Done (accepted "r_5080479f"); Throw ConstraintFailed])
  ∧ List.length (submissions store_v1) = 1%nat
  ∧ counter store_v1 "total_submissions_counted" = 1
  ∧ run (submit Part000Js (Some ballot_v1) "2026-01-10T12:00:01.002Z") store_v1
    = (store_v1, Returned (duplicate "r_5080479f"))
  ∧ interleave racing_schedule (racing_pool WorkerJs) empty_db
    = (empty_db, [Throw D1ExecError; Throw D1ExecError]).
Proof.
  split; [vm_compute; reflexivity|].
  split; [vm_compute; reflexivity|].
  split; [vm_compute; reflexivity|].
  split; vm_compute; reflexivity.
Qed.

(* ===================================================================== *)
(** ** Stores built by submit requests *)
(* ===================================================================== *)

(** A store built by submit requests is built by part_000 taking
    submissions in: every other request leaves the store as it is. *)
Lemma reachable_built (P : DB → Prop) :
  P empty_db →
  (∀ p k now r db,
     reachable db → P db →
     Part000.validate p = [] → dedupeKey p = Some k →
     region_written p = Some r →
     conflicts (Submission (receiptId k) k now r p) (submissions db) = false →
     P (MkDB (submissions db ++ [Submission (receiptId k) k now r p])
             (tallied p (aggregates db))
             (region_tallied p r (region_counts db)))) →
  ∀ db, reachable db → P db.
Proof.
  intros Hempty Hstep db Hdb.
  induction Hdb as [|e request now db Hdb IH]; [done|].
  destruct e; [by rewrite run_submit_worker_frame|].
  destruct request as [p|]; [|by rewrite run_submit_unparseable].
  destruct (Part000.validate p) eqn:Hv;
    [|rewrite run_submit_invalid; [done | unfold validator; by rewrite Hv]].
  destruct (dedupeKey p) as [k|] eqn:Hk;
    [|by rewrite run_submit_unrenderable].
  rewrite (run_submit_valid p k) by done. unfold submitted.
  destruct (truthy (existing_receipt (stored_receipt k db))); [done|].
  destruct (region_written p) as [r|] eqn:Hr; [|done].
  destruct (conflicts _ (submissions db)) eqn:Hc; [done|].
  rewrite (taken_in_written p k now r) by done. by apply Hstep.
Qed.


Lemma tally_bounds (f : submission → bool) (rows : list submission) :
  0 ≤ tally f rows ≤ Z.of_nat (List.length rows).
Proof.
  induction rows as [|row rows IH]; simpl; [lia|].
  destruct (f row); lia.
Qed.

Lemma tally_le (f g : submission → bool) (rows : list submission) :
  (∀ row, f row = true → g row = true) → tally f rows ≤ tally g rows.
Proof.
  intros Hfg. induction rows as [|row rows IH]; simpl; [lia|].
  destruct (f row) eqn:Ef; [rewrite (Hfg row Ef); lia|].
  destruct (g row); lia.
Qed.

Lemma tally_positive (f : submission → bool) (rows : list submission)
    (row : submission) :
  row ∈ rows → f row = true → 1 ≤ tally f rows.
Proof.
  intros Hin Hf. induction rows as [|r rows IH];
    [by apply elem_of_nil in Hin|].
  simpl. apply elem_of_cons in Hin as [<- | Hin].
  - rewrite Hf. pose proof (tally_bounds f rows). lia.
  - apply IH in Hin. destruct (f r); lia.
Qed.

Lemma tally_inclusion_exclusion (rows : list submission) :
  tally approved rows + tally preferred rows - tally chose_both rows
  + tally chose_neither rows = Z.of_nat (List.length rows).
Proof.
  induction rows as [|r rows IH]; simpl; [done|].
  unfold chose_both, chose_neither in *.
  destruct (approved r), (preferred r); simpl; lia.
Qed.

Lemma sum_approve_app (xs ys : list region_count) :
  sum_approve (xs ++ ys) = sum_approve xs + sum_approve ys.
Proof. induction xs as [|x xs IH]; simpl; [done|]. rewrite IH. lia. Qed.

Lemma sum_approve_bump (r : cell) (a : Z) (rows : list region_count) :
  NoDup (rc_region <$> rows) →
  sum_approve (bump_region r a rows)
  = sum_approve rows + (if has_region r rows then a else 0).
Proof.
  induction rows as [|rc rows IH]; csimpl; [intros; lia|].
  rewrite NoDup_cons. intros [Hnotin Hnd].
  destruct (cell_eqb (rc_region rc) r) eqn:E; simpl.
  - apply cell_eqb_eq in E. subst r.
    apply has_region_absent in Hnotin.
    rewrite bump_region_absent by done. lia.
  - rewrite IH by done. lia.
Qed.

Lemma sum_approve_upsert (r : cell) (a : Z) (rows : list region_count) :
  NoDup (rc_region <$> rows) →
  sum_approve (upsert_region r a a rows) = sum_approve rows + a.
Proof.
  intros Hnd. unfold upsert_region. destruct (has_region r rows) eqn:E.
  - by rewrite sum_approve_bump, E.
  - rewrite sum_approve_app. simpl. lia.
Qed.



Lemma reachable_regions_backed (db : DB) :
  reachable db →
  sum_approve (region_counts db) = counter db "approve_interim_yes"
  ∧ Forall (fun g => ∃ row, row ∈ submissions db ∧ region row = g)
           (rc_region <$> region_counts db).
Proof.
  apply (reachable_built
           (fun db =>
              sum_approve (region_counts db) = counter db "approve_interim_yes"
              ∧ Forall (fun g => ∃ row, row ∈ submissions db ∧ region row = g)
                       (rc_region <$> region_counts db)));
    [by split; [|constructor]|].
  intros p k now r db0 Hdb0 [Hsum Hback] Hv Hk Hr _.
  pose proof (reachable_consistent db0 Hdb0) as Hc.
  unfold counter in *. cbn [submissions aggregates region_counts].
  split.
  - unfold region_tallied. rewrite sum_approve_upsert by apply Hc.
    rewrite tallied_approve, Hsum. done.
  - assert (Forall (fun g => ∃ row,
                row ∈ submissions db0 ++ [Submission (receiptId k) k now r p]
                ∧ region row = g) (rc_region <$> region_counts db0)) as Hold.
    { eapply Forall_impl; [exact Hback|]. intros g (row & Hin & Hg).
      exists row. split; [|done]. apply elem_of_app. by left. }
    unfold region_tallied. rewrite regions_upsert.
    destruct (has_region r (region_counts db0)); [done|].
    apply Forall_app. split; [done|]. apply Forall_singleton.
    eexists. split; [apply elem_of_app; right; apply list_elem_of_here|done].
Qed.

(** Every region row stands for a stored submission of its region. *)
Lemma reachable_rows_backed (db : DB) :
  reachable db → Forall (region_backed (submissions db)) (region_counts db).
Proof.
  intros Hdb. destruct (reachable_regions_backed db Hdb) as [_ Hback].
  destruct (reachable_consistent db Hdb)
    as [_ _ _ _ _ _ _ _ _ _ Hcounted _].
  rewrite Forall_fmap in Hback.
  apply Forall_forall. intros rc Hin.
  rewrite Forall_forall in Hback, Hcounted.
  destruct (Hback rc Hin) as (row & Hrow & Hregion).
  destruct (Hcounted rc Hin) as [Ht Ha'].
  split; [by exists row|].
  assert (1 ≤ tally (in_region (rc_region rc)) (submissions db)) as Hpos.
  { apply (tally_positive _ _ row); [done|].
    unfold in_region. rewrite Hregion. apply cell_eqb_refl. }
  pose proof (tally_bounds
                (fun row => in_region (rc_region rc) row && approved row)
                (submissions db)) as Hnn.
  assert (tally (fun row => in_region (rc_region rc) row && approved row)
                (submissions db)
          ≤ tally (in_region (rc_region rc)) (submissions db)) as Hle
    by (apply tally_le; intros r; by intros [? _]%andb_prop).
  lia.
Qed.

(** X2. The ledger of a store built by submit requests:
    [approve_interim_yes + prefer_open_contest_yes - both_selected
    + neither_selected = total_submissions_counted]; [both_selected] is at
    most each of the two yes counters, which are at most the total; the
    [approve_yes] column of [region_counts] sums to [approve_interim_yes];
    every region row stands for a stored submission of that region, with
    [1 <= total] and [0 <= approve_yes <= total]. *)
Theorem ledger_bounds (db : DB) :
  reachable db →
  counter db "approve_interim_yes" + counter db "prefer_open_contest_yes"
  - counter db "both_selected" + counter db "neither_selected"
  = counter db "total_submissions_counted"
  ∧ 0 ≤ counter db "both_selected" ≤ counter db "approve_interim_yes"
  ∧ counter db "both_selected" ≤ counter db "prefer_open_contest_yes"
  ∧ counter db "approve_interim_yes" ≤ counter db "total_submissions_counted"
  ∧ counter db "prefer_open_contest_yes"
    ≤ counter db "total_submissions_counted"
  ∧ 0 ≤ counter db "neither_selected"
  ∧ sum_approve (region_counts db) = counter db "approve_interim_yes"
  ∧ Forall (region_backed (submissions db)) (region_counts db).
Proof.
  intros Hdb. destruct (reachable_regions_backed db Hdb) as [Hsum Hback].
  destruct (reachable_consistent db Hdb)
    as [_ _ _ Htotal Happrove Hprefer Hboth Hneither _ _ Hcounted _].
  rewrite Htotal, Happrove, Hprefer, Hboth, Hneither.
  pose proof (tally_inclusion_exclusion (submissions db)) as Hie.
  pose proof (tally_bounds chose_both (submissions db)) as Hb.
  pose proof (tally_bounds approved (submissions db)) as Ha.
  pose proof (tally_bounds preferred (submissions db)) as Hp.
  pose proof (tally_bounds chose_neither (submissions db)) as Hn.
  assert (tally chose_both (submissions db) ≤ tally approved (submissions db))
    as Hba by (apply tally_le; intros row; unfold chose_both;
               by intros [? _]%andb_prop).
  assert (tally chose_both (submissions db) ≤ tally preferred (submissions db))
    as Hbp by (apply tally_le; intros row; unfold chose_both;
               by intros [_ ?]%andb_prop).
  split_and!; try lia.
  by apply reachable_rows_backed.
Qed.

(* ===================================================================== *)
(** ** The reports of the two entry points *)
(* ===================================================================== *)

Lemma as_number_small (v : Z) : 0 ≤ v ≤ 2 ^ 53 → as_number v = v.
Proof.
  intros Hv. unfold as_number.
  rewrite Z.abs_eq by lia. by rewrite (proj2 (Z.leb_le _ _)) by lia.
Qed.

Lemma sum_totals_bound (rows : list region_count) (rc : region_count) :
  Forall (fun rc => 0 ≤ rc_total rc) rows → rc ∈ rows →
  rc_total rc ≤ sum_totals rows.
Proof.
  induction 1 as [|x rows Hx Hrows IH]; [by intros ?%elem_of_nil|].
  assert (0 ≤ sum_totals rows) as Hsum.
  { clear IH. induction Hrows as [|y rows Hy _ IHr]; simpl; [done|].
    unfold sum_totals in *. simpl. lia. }
  unfold sum_totals in *. simpl.
  intros [-> | Hin]%elem_of_cons; [lia|]. apply IH in Hin. lia.
Qed.

(** X3. The report of part_000 on a store built by submit requests that
    holds at most 2^53 submissions: the handler leaves the store as it is
    and returns; [total_submissions_counted] is the number of stored
    submissions; the two rates of the ballot are [null] exactly when
    nothing is stored; every region of [regional_balance] has
    [submissions_counted >= 1] and a rate that is not [null]; the
    [submissions_counted] of the regions sum to the total.  worker.js
    makes no report of it: [handleResults] throws, stopped by
    [ensureSchema]. *)
Theorem report_of_built_store (now : string) (db : DB) :
  reachable db →
  Z.of_nat (List.length (submissions db)) ≤ 2 ^ 53 →
  (∃ rep,
     run (results Part000Js now) db = (db, Returned rep)
     ∧ total_submissions_counted (ballot_of rep)
       = Z.of_nat (List.length (submissions db))
     ∧ (approval_rate_percent (ballot_of rep) = None ↔ submissions db = [])
     ∧ (prefer_open_rate_percent (ballot_of rep) = None ↔ submissions db = [])
     ∧ Forall (fun r => 1 ≤ submissions_counted r
                        ∧ approve_rate_percent r ≠ None)
              (regional_balance rep)
     ∧ sum_counted (regional_balance rep)
       = total_submissions_counted (ballot_of rep))
  ∧ run (results WorkerJs now) db = (db, Threw D1ExecError).
Proof.
  intros Hdb Hsize. split; [|apply run_results_worker].
  eexists. split; [apply run_results_part000|].
  unfold reported, reading.
  cbn [ballot_of total_submissions_counted approval_rate_percent
         prefer_open_rate_percent regional_balance].
  pose proof (reachable_consistent db Hdb) as Hc.
  pose proof (total_counted db Hc) as Htotal.
  pose proof (regions_summed db Hc) as Hsum.
  pose proof (reachable_rows_backed db Hdb) as Hback.
  assert (as_number (counter db "total_submissions_counted")
          = Z.of_nat (List.length (submissions db))) as Hread
    by (rewrite Htotal; apply as_number_small; lia).
  assert (Z.of_nat (List.length (submissions db)) = 0 ↔ submissions db = [])
    as Hzero.
  { destruct (submissions db); simpl; split; try done; lia. }
  assert (∀ rc, rc ∈ region_counts db →
                1 ≤ rc_total rc ∧ as_number (rc_total rc) = rc_total rc)
    as Hregion.
  { intros rc Hin. rewrite Forall_forall in Hback.
    destruct (Hback rc Hin) as (_ & Hpos & _). split; [done|].
    apply as_number_small. split; [lia|].
    etrans; [|exact Hsize]. rewrite <- Hsum.
    apply sum_totals_bound; [|done].
    apply Forall_forall. intros rc' Hin'.
    destruct (Hback rc' Hin') as (_ & Hpos' & _). lia. }
  rewrite Hread. split_and!.
  - done.
  - by rewrite (rate_null_iff Part000Js).
  - by rewrite (rate_null_iff Part000Js).
  - apply Forall_map, Forall_forall. intros rc Hin. simpl.
    destruct (Hregion rc Hin) as [Hpos ->].
    split; [done|]. rewrite (rate_null_iff Part000Js). lia.
  - rewrite <- Hsum. clear -Hregion.
    induction (region_counts db) as [|rc rows IH]; simpl; [done|].
    unfold sum_counted, sum_totals in *. simpl.
    rewrite IH by (intros rc' Hin'; apply Hregion; by right).
    by rewrite (proj2 (Hregion rc (list_elem_of_here _ _))).
Qed.

(** X4. On any store.  [handleResults] of part_000 leaves the store as it
    is and returns the report of the tables: the timestamp, the five
    counters and, for each row of [region_counts] in the order of the
    table, its region and its total, every integer as the JavaScript
    number nearest to it.  [handleResults] of worker.js throws, stopped
    by [ensureSchema], and leaves the store as it is.  The rates of the
    two entry points are [null] on the same counts and can differ in
    value: 23 of 80 is 28.7 for worker.js and 28.8 for part_000. *)
Theorem reports_compared (now : string) (db : DB) :
  run (Worker.handleResults now) db = (db, Threw D1ExecError)
  ∧ (∃ rep,
       run (Part000.handleResults now) db = (db, Returned rep)
       ∧ last_updated_utc rep = now
       ∧ total_submissions_counted (ballot_of rep)
         = as_number (counter db "total_submissions_counted")
       ∧ approve_interim_yes (ballot_of rep)
         = as_number (counter db "approve_interim_yes")
       ∧ prefer_open_contest_yes (ballot_of rep)
         = as_number (counter db "prefer_open_contest_yes")
       ∧ both_selected (ballot_of rep) = as_number (counter db "both_selected")
       ∧ neither_selected (ballot_of rep)
         = as_number (counter db "neither_selected")
       ∧ regional_region <$> regional_balance rep
         = rc_region <$> region_counts db
       ∧ submissions_counted <$> regional_balance rep
         = (fun rc => as_number (rc_total rc)) <$> region_counts db)
  ∧ (∀ count total,
       Worker.rate count total = None ↔ Part000.rate count total = None)
  ∧ Worker.rate 23 80 = Some 28.7%float
  ∧ Part000.rate 23 80 = Some 28.8%float
  ∧ as_number (2 ^ 53 + 1) = 2 ^ 53.
Proof.
  split; [apply run_results_worker|].
  split.
  { eexists. split; [apply run_results_part000|].
    unfold reported, reading.
    cbn [last_updated_utc ballot_of total_submissions_counted
           approve_interim_yes prefer_open_contest_yes both_selected
           neither_selected regional_balance].
    split_and!; try done.
    - induction (region_counts db) as [|rc rows IH]; [done|].
      simpl. f_equal. exact IH.
    - induction (region_counts db) as [|rc rows IH]; [done|].
      simpl. f_equal. exact IH. }
  split.
  { intros count total.
    by rewrite (rate_null_iff WorkerJs), (rate_null_iff Part000Js). }
  split; [vm_compute; reflexivity|].
  split; vm_compute; reflexivity.
Qed.

(* ===================================================================== *)
(** ** The transport *)
(* ===================================================================== *)

Lemma submit_writes_only_when_counted (e : entry) (request : option value)
    (now : string) (db : DB) :
  (run (submit e request now) db).1 = db
  ∨ ∃ p k, request = Some p ∧ dedupeKey p = Some k
           ∧ run (submit e request now) db
             = (taken_in p k now db, Returned (accepted (receiptId k))).
Proof.
  destruct e; [left; apply run_submit_worker_frame|].
  destruct request as [p|]; [|left; by rewrite run_submit_unparseable].
  destruct (Part000.validate p) eqn:Hv;
    [|left; rewrite run_submit_invalid;
      [done | unfold validator; by rewrite Hv]].
  destruct (dedupeKey p) as [k|] eqn:Hk;
    [|left; by rewrite run_submit_unrenderable].
  rewrite (run_submit_valid p k) by done. unfold submitted.
  destruct (truthy (existing_receipt (stored_receipt k db))); [by left|].
  destruct (region_written p); [|by left].
  destruct (conflicts _ (submissions db)); [by left|].
  right. by exists p, k.
Qed.

Lemma run_with_binding_unbound {A : Type} (m : proc A) (db : DB) :
  (run (Part000Http.with_binding false m) db).1 = db.
Proof. by destruct m. Qed.

Lemma has_cors_cors (res : http_response) : has_cors (Part000Http.cors res).
Proof.
  unfold has_cors, Part000Http.cors. cbn [http_headers].
  split_and!.
  - do 3 (rewrite lookup_insert_ne by discriminate). apply lookup_insert_eq.
  - do 2 (rewrite lookup_insert_ne by discriminate). apply lookup_insert_eq.
  - rewrite lookup_insert_ne by discriminate. apply lookup_insert_eq.
  - apply lookup_insert_eq.
Qed.

Lemma has_cors_worker (status : Z) (obj : sent) :
  has_cors (Http status WorkerHttp.jsonHeaders obj)
  ∧ has_cors (Http status WorkerHttp.corsHeaders obj).
Proof. split; split_and!; vm_compute; reflexivity. Qed.

(** The routes of worker.js, run alone. *)
Lemma run_routes (req : request) (bound : bool) (now : string) (db : DB) :
  run (WorkerHttp.routes req bound now) db
  = if String.eqb (pathname req) "/healthz"
    then (db, Returned (Http 200 WorkerHttp.jsonHeaders (SentHealth now)))
    else if negb bound
    then (db, Returned (Http 500 WorkerHttp.jsonHeaders
               (SentProblem "DB_BINDING_MISSING"
                  (Some "Add D1 binding named 'DB' in Worker settings."))))
    else if String.eqb (pathname req) "/api/submit"
            && String.eqb (method req) "POST"
    then match run (Worker.handleSubmit (request_json req) now) db with
         | (db', Returned out) =>
             (db', Returned (Http (status out) WorkerHttp.jsonHeaders
                                  (SentSubmit (content out))))
         | (db', Threw e) => (db', Threw e)
         end
    else if String.eqb (pathname req) "/api/results"
            && String.eqb (method req) "GET"
    then (db, Threw D1ExecError)
    else (db, Returned (Http 404 WorkerHttp.jsonHeaders
                             (SentProblem "NOT_FOUND" None))).
Proof.
  unfold WorkerHttp.routes.
  destruct (String.eqb (pathname req) "/healthz"); [done|].
  destruct bound; [|done]. cbn [negb].
  destruct (String.eqb (pathname req) "/api/submit"
            && String.eqb (method req) "POST").
  { rewrite run_bind.
    by destruct (run (Worker.handleSubmit (request_json req) now) db)
      as [db' [out | e]]. }
  destruct (String.eqb (pathname req) "/api/results"
            && String.eqb (method req) "GET"); [|done].
  by rewrite run_bind, run_results_worker.
Qed.

(** [fetch] of worker.js, run alone: it leaves the store as it is and
    returns a response with the headers of [json]. *)
Lemma serve_worker (req : request) (bound : bool) (now : string) (db : DB) :
  ∃ status obj,
    serve WorkerJs req bound now db
    = (db, Returned (Http status
                          (if String.eqb (method req) "OPTIONS"
                           then WorkerHttp.corsHeaders
                           else WorkerHttp.jsonHeaders) obj)).
Proof.
  unfold serve. destruct (String.eqb (method req) "OPTIONS"); [by eexists _, _|].
  rewrite run_routes.
  destruct (String.eqb (pathname req) "/healthz"); [by eexists _, _|].
  destruct (negb bound); [by eexists _, _|].
  destruct (String.eqb (pathname req) "/api/submit"
            && String.eqb (method req) "POST").
  { pose proof (run_submit_worker_frame (request_json req) now db) as Hsame.
    unfold submit in Hsame.
    destruct (run (Worker.handleSubmit (request_json req) now) db)
      as [db' [out | ex]]; simpl in Hsame; subst db'; by eexists _, _. }
  destruct (String.eqb (pathname req) "/api/results"
            && String.eqb (method req) "GET"); by eexists _, _.
Qed.

(** [fetch] of part_000, run alone. *)
Lemma run_fetch_part000 (req : request) (bound : bool) (now : string)
    (db : DB) :
  run (Part000Http.fetch req bound now) db
  = if String.eqb (method req) "OPTIONS"
    then (db, Returned (Part000Http.cors (Http 204 ∅ SentNothing)))
    else if String.eqb (pathname req) "/api/submit"
            && String.eqb (method req) "POST"
    then match run (Part000Http.with_binding bound
                      (Part000.handleSubmit (request_json req) now)) db with
         | (db', Returned out) =>
             (db', Returned (Part000Http.cors
                               (Part000Http.json (SentSubmit (content out))
                                                 (status out))))
         | (db', Threw e) => (db', Threw e)
         end
    else if String.eqb (pathname req) "/api/results"
            && String.eqb (method req) "GET"
    then match run (Part000Http.with_binding bound
                      (Part000.handleResults now)) db with
         | (db', Returned out) =>
             (db', Returned (Part000Http.cors
                               (Part000Http.json (SentReport out) 200)))
         | (db', Threw e) => (db', Threw e)
         end
    else (db, Returned (Part000Http.cors (Http 404 ∅ (SentText "Not found")))).
Proof.
  unfold Part000Http.fetch.
  destruct (String.eqb (method req) "OPTIONS"); [done|].
  destruct (String.eqb (pathname req) "/api/submit"
            && String.eqb (method req) "POST").
  { rewrite run_bind.
    by destruct (run _ db) as [db' [out | e]]. }
  destruct (String.eqb (pathname req) "/api/results"
            && String.eqb (method req) "GET"); [|done].
  rewrite run_bind. by destruct (run _ db) as [db' [out | e]].
Qed.

(** X5. Every response that [fetch] of either entry point returns, on any
    route and with any status, carries the four CORS headers:
    [Access-Control-Allow-Origin: *], [Allow-Methods: GET,POST,OPTIONS],
    [Allow-Headers: Content-Type], [Max-Age: 86400]. *)
Theorem answers_carry_cors (e : entry) (req : request) (bound : bool)
    (now : string) (db db' : DB) (res : http_response) :
  serve e req bound now db = (db', Returned res) → has_cors res.
Proof.
  destruct e.
  - destruct (serve_worker req bound now db) as (status & obj & ->).
    intros [= _ <-].
    destruct (String.eqb (method req) "OPTIONS");
      [exact (proj2 (has_cors_worker _ _)) | exact (proj1 (has_cors_worker _ _))].
  - unfold serve. rewrite run_fetch_part000.
    destruct (String.eqb (method req) "OPTIONS").
    { intros [= _ <-]. apply has_cors_cors. }
    destruct (String.eqb (pathname req) "/api/submit"
              && String.eqb (method req) "POST").
    { destruct (run _ db) as [db1 [out | ex]]; [|discriminate].
      intros [= _ <-]. apply has_cors_cors. }
    destruct (String.eqb (pathname req) "/api/results"
              && String.eqb (method req) "GET").
    { destruct (run _ db) as [db1 [out | ex]]; [|discriminate].
      intros [= _ <-]. apply has_cors_cors. }
    intros [= _ <-]. apply has_cors_cors.
Qed.

(** X6. A request served alone by either entry point leaves the three
    tables as they are, unless it is a POST to /api/submit, with the
    database bound, that is answered with status 200 and
    [counted = true]: then the store is the former store with that one
    submission taken in. *)
Theorem store_changes_only_when_counted (e : entry) (req : request)
    (bound : bool) (now : string) (db : DB) :
  (serve e req bound now db).1 = db
  ∨ (method req = "POST" ∧ pathname req = "/api/submit" ∧ bound = true
     ∧ ∃ p k res,
         request_json req = Some p ∧ dedupeKey p = Some k
         ∧ serve e req bound now db = (taken_in p k now db, Returned res)
         ∧ http_status res = 200
         ∧ http_body res
           = SentSubmit (Receipt (receiptId k) true
                                 "Submission received and counted.")).
Proof.
  destruct e.
  - left. by destruct (serve_worker req bound now db) as (status & obj & ->).
  - unfold serve. rewrite run_fetch_part000.
    destruct (String.eqb (method req) "OPTIONS"); [by left|].
    destruct (String.eqb_spec (pathname req) "/api/submit") as [Hpath|_];
      cbn [andb].
    + destruct (String.eqb_spec (method req) "POST") as [Hmethod|_].
      * destruct bound.
        -- cbn [Part000Http.with_binding].
           destruct (submit_writes_only_when_counted Part000Js
                       (request_json req) now db)
             as [Hsame | (p & k & Hp & Hk & Hrun)]; unfold submit in *.
           ++ left. by destruct (run _ db) as [db' [out | ex]].
           ++ right. split_and!; try done. rewrite Hrun.
              by eexists p, k, _.
        -- left.
           pose proof (run_with_binding_unbound
                         (Part000.handleSubmit (request_json req) now) db).
           by destruct (run _ db) as [db' [out | ex]].
      * destruct (String.eqb (pathname req) "/api/results"
                  && String.eqb (method req) "GET"); [|by left].
        left.
        pose proof (run_with_binding_unbound (Part000.handleResults now) db).
        destruct bound; cbn [Part000Http.with_binding] in *;
          [by rewrite run_results_part000|].
        by destruct (run _ db) as [db' [out | ex]].
    + destruct (String.eqb (pathname req) "/api/results"
                && String.eqb (method req) "GET"); [|by left].
      left.
      pose proof (run_with_binding_unbound (Part000.handleResults now) db).
      destruct bound; cbn [Part000Http.with_binding] in *;
        [by rewrite run_results_part000|].
      by destruct (run _ db) as [db' [out | ex]].
Qed.

(** X7. With the database bound and a path other than /healthz.  [fetch]
    of worker.js never throws and leaves the store as it is.  It answers
    500 with UNHANDLED for the rejection of [ensureSchema] exactly on a
    GET of /api/results and on a POST to /api/submit whose payload passes
    validation and has a dedupe key.  On every other request the two
    [fetch] leave the store as it is; where that of part_000 returns a
    response, that of worker.js returns one of the same status; where
    that of part_000 throws, as it lets the exception of a handler
    through, that of worker.js answers 500 with UNHANDLED for the same
    exception. *)
Theorem transports_compared (req : request) (now : string) (db : DB) :
  pathname req ≠ "/healthz" →
  (serve WorkerJs req true now db).1 = db
  ∧ (∃ res, (serve WorkerJs req true now db).2 = Returned res)
  ∧ ((serve WorkerJs req true now db).2
     = Returned (WorkerHttp.unhandled D1ExecError)
     ↔ (pathname req = "/api/results" ∧ method req = "GET")
       ∨ (pathname req = "/api/submit" ∧ method req = "POST"
          ∧ ∃ p k, request_json req = Some p
                   ∧ Worker.validatePayload p = []
                   ∧ dedupeKey p = Some k))
  ∧ ((serve WorkerJs req true now db).2
     ≠ Returned (WorkerHttp.unhandled D1ExecError) →
     (serve Part000Js req true now db).1 = db
     ∧ match (serve Part000Js req true now db).2 with
       | Returned res =>
           ∃ res', (serve WorkerJs req true now db).2 = Returned res'
                   ∧ http_status res' = http_status res
       | Threw ex =>
           (serve WorkerJs req true now db).2
           = Returned (WorkerHttp.unhandled ex)
       end).
Proof.
  intros Hpath.
  split; [by destruct (serve_worker req true now db) as (? & ? & ->)|].
  split; [destruct (serve_worker req true now db) as (? & ? & ->); by eexists|].
  unfold serve. rewrite run_routes, run_fetch_part000.
  destruct (String.eqb_spec (method req) "OPTIONS") as [Hopt|_].
  { split.
    - split; [discriminate|]. rewrite Hopt.
      intros [[_ [=]] | (_ & [=] & _)].
    - intros _. split; [done|]. by eexists. }
  destruct (String.eqb_spec (pathname req) "/healthz") as [|_]; [done|].
  cbn [negb Part000Http.with_binding].
  destruct (String.eqb_spec (pathname req) "/api/submit") as [Hsubmit|Hnot];
    cbn [andb].
  - destruct (String.eqb_spec (method req) "POST") as [Hpost|Hnopost].
    + change Worker.handleSubmit with (submit WorkerJs).
      change Part000.handleSubmit with (submit Part000Js).
      destruct (request_json req) as [p|].
      2:{ rewrite !run_submit_unparseable. split.
          - split; [discriminate|].
            intros [[Hres _] | (_ & _ & p & k & [=] & _)]. congruence.
          - intros _. split; [done|]. by eexists. }
      destruct (Worker.validatePayload p) as [|msg msgs] eqn:Hv.
      * destruct (dedupeKey p) as [k|] eqn:Hk.
        -- rewrite (run_submit_worker p k) by done. split; [|done].
           split; [|done]. intros _. right. split_and!; try done.
           by exists p, k.
        -- rewrite !run_submit_unrenderable; try done;
             [|by apply validators_agree_on_acceptance]. split.
           ++ split; [discriminate|].
              intros [[Hres _] | (_ & _ & p' & k & [= <-] & _ & Hk')];
                congruence.
           ++ intros _. by split.
      * assert (validator WorkerJs p ≠ []) as Hw
          by (unfold validator; by rewrite Hv).
        assert (validator Part000Js p ≠ []) as Hp.
        { unfold validator in *. by rewrite <- validators_agree_on_acceptance. }
        rewrite !run_submit_invalid by done. split.
        -- split; [discriminate|].
           intros [[Hres _] | (_ & _ & p' & k & [= <-] & Hv' & _)];
             congruence.
        -- intros _. split; [done|]. by eexists.
    + rewrite Hsubmit. cbn [String.eqb Ascii.eqb Bool.eqb andb]. split.
      * split; [discriminate|]. intros [[[=] _] | (_ & ? & _)]. done.
      * intros _. split; [done|]. by eexists.
  - destruct (String.eqb_spec (pathname req) "/api/results") as [Hresults|Hno];
      cbn [andb].
    + destruct (String.eqb_spec (method req) "GET") as [Hget|Hnoget].
      * split; [|done]. split; [|done]. intros _. by left.
      * split.
        -- split; [discriminate|]. intros [[_ ?] | (? & _)]; done.
        -- intros _. split; [done|]. by eexists.
    + split.
      * split; [discriminate|]. intros [[? _] | (? & _)]; done.
      * intros _. split; [done|]. by eexists.
Qed.

(** X8. Without the D1 binding.  [fetch] of worker.js answers /healthz
    with 200 and any other request that is not a preflight with 500
    DB_BINDING_MISSING, whatever the body.  [fetch] of part_000 has no
    such check: a POST to /api/submit is still answered 400 for a body
    that does not parse and 422 for one that fails validation, a payload
    that passes validation makes it throw a TypeError; a GET of
    /api/results throws as well.  In no case is there a store to
    touch. *)
Theorem without_binding (req : request) (now : string) (db : DB) :
  method req ≠ "OPTIONS" →
  serve WorkerJs req false now db
  = (db, Returned
           (if String.eqb (pathname req) "/healthz"
            then Http 200 WorkerHttp.jsonHeaders (SentHealth now)
            else Http 500 WorkerHttp.jsonHeaders
                   (SentProblem "DB_BINDING_MISSING"
                      (Some "Add D1 binding named 'DB' in Worker settings."))))
  ∧ (pathname req = "/api/submit" → method req = "POST" →
     serve Part000Js req false now db
     = (db, match request_json req with
            | None =>
                Returned (Part000Http.cors
                            (Part000Http.json
                               (SentSubmit (Failure "BAD_JSON" None)) 400))
            | Some p =>
                match Part000.validate p with
                | [] => Threw TypeError
                | errors =>
                    Returned (Part000Http.cors
                                (Part000Http.json
                                   (SentSubmit (Failure "VALIDATION_FAILED"
                                                        (Some errors))) 422))
                end
            end))
  ∧ (pathname req = "/api/results" → method req = "GET" →
     serve Part000Js req false now db = (db, Threw TypeError)).
Proof.
  intros Hmethod. unfold serve.
  rewrite run_routes, run_fetch_part000.
  destruct (String.eqb_spec (method req) "OPTIONS") as [|_]; [done|].
  split_and!.
  - by destruct (String.eqb (pathname req) "/healthz").
  - intros -> ->. cbn [String.eqb Ascii.eqb Bool.eqb andb].
    destruct (request_json req) as [p|]; [|done].
    unfold Part000.handleSubmit.
    destruct (Part000.validate p); [|done].
    by destruct (dedupeKey p).
  - by intros -> ->.
Qed.

(* ===================================================================== *)
(** ** No statement takes anything back *)
(* ===================================================================== *)

Lemma grows_refl (db : DB) : grows db db.
Proof.
  split_and!.
  - done.
  - intros key v Hv. exists v. split; [done|lia].
  - exists (region_counts db), []. rewrite app_nil_r. split; [done|].
    apply Forall_Forall2_diag, Forall_forall. intros rc _. split; [done|lia].
Qed.

Lemma grows_trans (db1 db2 db3 : DB) :
  grows db1 db2 → grows db2 db3 → grows db1 db3.
Proof.
  intros (Hs1 & Ha1 & rows1 & more1 & Hr1 & Hf1)
         (Hs2 & Ha2 & rows2 & more2 & Hr2 & Hf2).
  split_and!.
  - by etrans.
  - intros key v Hv. destruct (Ha1 key v Hv) as (v' & Hv' & Hle).
    destruct (Ha2 key v' Hv') as (v'' & Hv'' & Hle').
    exists v''. split; [done|lia].
  - rewrite Hr1 in Hf2.
    apply Forall2_app_inv_l in Hf2 as (front & back & Hfront & Hback & ->).
    exists front, (back ++ more2). split; [by rewrite Hr2, <- app_assoc|].
    eapply Forall2_trans; [|exact Hf1|exact Hfront].
    intros x y z [? ?] [? ?]. split; [congruence|lia].
Qed.

Lemma bump_region_grows (r : cell) (a : Z) (rows : list region_count) :
  Forall2 (fun rc rc' => rc_region rc = rc_region rc'
                         ∧ rc_total rc ≤ rc_total rc')
          rows (bump_region r a rows).
Proof.
  induction rows as [|rc rows IH]; simpl; constructor; [|exact IH].
  destruct (cell_eqb (rc_region rc) r); simpl; split; try done; lia.
Qed.

(** Each statement of the two entry points leaves a store that holds all
    that the former held. *)
Lemma exec_grows {R : Type} (s : stmt R) (db : DB) : grows db (exec s db).1.
Proof.
  destruct s; cbn [exec]; try apply grows_refl.
  - destruct (stored r) as [g|]; [|apply grows_refl].
    cbv zeta. destruct (conflicts _ (submissions db)); [apply grows_refl|].
    destruct (grows_refl db) as (_ & Ha & Hr).
    split_and!; [by apply prefix_app_r|done|done].
  - destruct (grows_refl db) as (Hs & _ & Hr).
    split_and!; [done| |done]. cbn [fst aggregates]. intros key' v Hv.
    unfold inc_row. destruct (decide (key = key')) as [<- | Hne].
    + rewrite Hv, lookup_insert_eq. exists (v + 1). split; [done|lia].
    + rewrite lookup_insert_ne by done. exists v. split; [done|lia].
  - destruct (stored r) as [g|]; [|apply grows_refl].
    destruct (grows_refl db) as (Hs & Ha & rows & more & Hr & Hf).
    split_and!; [done|done|]. cbn [fst region_counts].
    unfold insert_region_if_absent.
    destruct (has_region g (region_counts db)); [by exists rows, more|].
    exists (region_counts db), [RegionCount g 0 0]. split; [done|].
    apply Forall_Forall2_diag, Forall_forall. intros rc _. split; [done|lia].
  - destruct (stored r) as [g|]; [|apply grows_refl].
    destruct (grows_refl db) as (Hs & Ha & _).
    split_and!; [done|done|]. cbn [fst region_counts].
    exists (bump_region g approve (region_counts db)), [].
    rewrite app_nil_r. split; [done|]. apply bump_region_grows.
  - destruct (stored r) as [g|]; [|apply grows_refl].
    destruct (grows_refl db) as (Hs & Ha & _).
    split_and!; [done|done|]. cbn [fst region_counts].
    unfold upsert_region. destruct (has_region g (region_counts db)).
    + exists (bump_region g approve' (region_counts db)), [].
      rewrite app_nil_r. split; [done|]. apply bump_region_grows.
    + exists (region_counts db), [RegionCount g 1 approve]. split; [done|].
      apply Forall_Forall2_diag, Forall_forall. intros rc _.
      split; [done|lia].
Qed.

Lemma step_grows {A : Type} (m : proc A) (db : DB) : grows db (step m db).1.
Proof.
  destruct m as [a | e | R s k]; simpl; try apply grows_refl.
  pose proof (exec_grows s db) as H.
  by destruct (exec s db) as [db' [e | r]].
Qed.

Lemma run_grows {A : Type} (m : proc A) (db : DB) : grows db (run m db).1.
Proof.
  revert db. induction m as [a | e | R s k IH]; intros db; simpl;
    try apply grows_refl.
  pose proof (exec_grows s db) as H.
  destruct (exec s db) as [db' [e | r]]; [done|].
  eapply grows_trans; [exact H|apply IH].
Qed.

(** X9. No handler, whatever it is made of, and no interleaving of any
    handlers takes anything back: run alone or in flight with others, from
    any store, they leave the rows of [submissions] that were there, in
    their order, before any new one; every row of [aggregates] with a
    value at least as high; every row of [region_counts] at its place
    with a total at least as high. *)
Theorem store_only_grows {A : Type} (schedule : list nat)
    (pool : list (proc A)) (m : proc A) (db : DB) :
  grows db (run m db).1 ∧ grows db (interleave schedule pool db).1.
Proof.
  split; [apply run_grows|].
  revert pool db. induction schedule as [|i rest IH]; intros pool db; simpl;
    [apply grows_refl|].
  destruct (pool !! i) as [mi|]; [|apply IH].
  pose proof (step_grows mi db) as H.
  destruct (step mi db) as [db' m']. eapply grows_trans; [exact H|apply IH].
Qed.

(* ===================================================================== *)
(** ** Requests in flight: the ledger settles *)
(* ===================================================================== *)

(* ===================================================================== *)








Lemma ops_of_before_insert (p : value) (k : string) (m : proc response) :
  before_insert p k m → ops_of m = [].
Proof. intros (e & now & [-> | [-> | ->]]); [by destruct e|done|done]. Qed.

Lemma tracked_ops_or_idle (m : proc response) :
  tracked m → ledger_only m ∨ ops_of m = [].
Proof.
  intros [(p & k & _ & H) | [H | [e ->]]].
  - right. by eapply ops_of_before_insert.
  - by left.
  - by right.
Qed.






(** *** The region rows under the three region statements *)

Lemma region_row_none (r : cell) (rows : list region_count) :
  region_row r rows = None ↔ has_region r rows = false.
Proof.
  unfold region_row, has_region.
  induction rows as [|rc rows IH]; simpl; [done|].
  destruct (cell_eqb (rc_region rc) r); simpl; [split; discriminate|exact IH].
Qed.

Lemma region_row_some (r : cell) (rows : list region_count)
    (rc : region_count) :
  region_row r rows = Some rc → rc ∈ rows ∧ rc_region rc = r.
Proof.
  unfold region_row. induction rows as [|rc0 rows IH]; simpl; [done|].
  destruct (cell_eqb (rc_region rc0) r) eqn:E.
  - intros [= <-]. split; [by left|]. by apply cell_eqb_eq.
  - intros [Hin Hr]%IH. split; [by right|done].
Qed.






Lemma region_row_bump (r g : cell) (a : Z) (rows : list region_count) :
  region_row g (bump_region r a rows)
  = (fun rc => if cell_eqb (rc_region rc) r
               then RegionCount (rc_region rc) (rc_total rc + 1)
                                (rc_approve_yes rc + a)
               else rc) <$> region_row g rows.
Proof.
  unfold region_row. induction rows as [|rc rows IH]; simpl; [done|].
  destruct (cell_eqb (rc_region rc) r) eqn:Er; simpl;
    destruct (cell_eqb (rc_region rc) g) eqn:Eg; simpl;
    rewrite ?Er; done.
Qed.

Lemma region_row_upsert (r g : cell) (a : Z) (rows : list region_count) :
  total_at g (upsert_region r a a rows)
  = total_at g rows + yes (cell_eqb r g)
  ∧ approve_at g (upsert_region r a a rows)
    = approve_at g rows + (if cell_eqb r g then a else 0).
Proof.
  unfold upsert_region, total_at, approve_at.
  destruct (has_region r rows) eqn:Hr.
  - rewrite region_row_bump.
    destruct (region_row g rows) as [rc|] eqn:Hg; simpl.
    + apply region_row_some in Hg as [_ ->].
      destruct (cell_eqb g r) eqn:E1, (cell_eqb r g) eqn:E2; simpl;
        try lia.
      * apply cell_eqb_eq in E1. subst. by rewrite cell_eqb_refl in E2.
      * apply cell_eqb_eq in E2. subst. by rewrite cell_eqb_refl in E1.
    + destruct (cell_eqb r g) eqn:E; simpl; [|lia].
      apply cell_eqb_eq in E as <-. apply region_row_none in Hg. congruence.
  - unfold region_row. rewrite find_append.
    destruct (find _ rows) as [rc|] eqn:Hg; simpl.
    + apply (region_row_some g rows rc) in Hg as [Hin <-].
      destruct (cell_eqb r (rc_region rc)) eqn:E; simpl; [|lia].
      apply cell_eqb_eq in E. subst r.
      apply has_region_absent in Hr. destruct Hr.
      by apply list_elem_of_fmap_2.
    + destruct (cell_eqb r g); simpl; lia.
Qed.

(** *** One ledger statement *)




(** *** The invariant, step by step *)























(* ===================================================================== *)
(** ** Requests in flight: every request completes *)
(* ===================================================================== *)

Lemma within_step {A : Type} (n : nat) (m : proc A) (db : DB) :
  within n m → within (Nat.pred n) (step m db).2.
Proof.
  destruct 1 as [n a | n e | n R s k Hk]; simpl; try constructor.
  destruct (exec s db) as [db' [e | r]]; simpl; [constructor|apply Hk].
Qed.

Lemma within_0_finished {A : Type} (m : proc A) : within 0 m → finished m.
Proof. by inversion 1. Qed.

(** A submit request issues at most nine statements. *)
(** A submit request issues at most nine statements. *)
Lemma submit_within (e : entry) (request : option value) (now : string) :
  within 9 (submit e request now).
Proof.
  destruct request as [p|]; [|destruct e; constructor].
  destruct (validator e p) as [|msg msgs] eqn:Hv.
  - destruct (dedupeKey p) as [k|] eqn:Hk.
    + rewrite (submit_starting e p k now Hv Hk).
      unfold starting, selecting, inserting, counting, tallying,
        Worker.ensureSchema, Worker.updateAggregates,
        Part000.updateAggregates.
      destruct e; cbv zeta; destruct (approve_of p), (prefer_of p);
        repeat first
          [ apply within_done
          | apply @within_await; intros ?
          | match goal with
            | |- context [if ?b then _ else _] => destruct b
            end ].
    + destruct e; unfold validator in Hv; unfold submit,
        Worker.handleSubmit, Part000.handleSubmit; rewrite Hv, Hk;
        constructor.
  - destruct e; unfold validator in Hv; unfold submit,
      Worker.handleSubmit, Part000.handleSubmit; rewrite Hv; constructor.
Qed.


Lemma turns_skip (i j : nat) (rest : list nat) :
  i ≠ j → turns j (i :: rest) = turns j rest.
Proof. intros Hne. simpl. by destruct (Nat.eqb_spec i j). Qed.

Lemma interleave_finishes {A : Type} (schedule : list nat)
    (pool : list (proc A)) (budget : list nat) (db : DB) :
  Forall2 within budget pool →
  (∀ i n, budget !! i = Some n → (n ≤ turns i schedule)%nat) →
  Forall finished (interleave schedule pool db).2.
Proof.
  revert pool budget db.
  induction schedule as [|i rest IH]; intros pool budget db Hpool Hturns.
  - simpl. apply Forall_lookup. intros j m Hm.
    destruct (Forall2_lookup_r _ _ _ _ _ Hpool Hm) as (n & Hn & Hwithin).
    pose proof (Hturns j n Hn) as Hle. simpl in Hle.
    assert (n = 0%nat) as -> by lia. by apply within_0_finished.
  - simpl. destruct (pool !! i) as [m|] eqn:Hi.
    + destruct (Forall2_lookup_r _ _ _ _ _ Hpool Hi) as (n & Hn & Hwithin).
      pose proof (within_step n m db Hwithin) as Hnext.
      destruct (step m db) as [db' m']. simpl in Hnext.
      apply (IH _ (<[i := Nat.pred n]> budget)).
      * by apply Forall2_insert.
      * intros j nj Hj. destruct (decide (j = i)) as [-> | Hne].
        -- rewrite list_lookup_insert_eq in Hj
             by (by eapply lookup_lt_Some).
           injection Hj as <-. pose proof (Hturns i n Hn) as Hle.
           simpl in Hle. rewrite Nat.eqb_refl in Hle. lia.
        -- rewrite list_lookup_insert_ne in Hj by done.
           pose proof (Hturns j nj Hj) as Hle.
           rewrite turns_skip in Hle by done. done.
    + apply (IH _ budget); [done|]. intros j nj Hj.
      pose proof (Hturns j nj Hj) as Hle.
      assert (i ≠ j) as Hne.
      { intros ->. apply lookup_lt_Some in Hj.
        apply lookup_ge_None in Hi.
        apply Forall2_length in Hpool. lia. }
      by rewrite turns_skip in Hle.
Qed.


(* ===================================================================== *)
(** ** The dedupe key reads renderings *)
(* ===================================================================== *)

Lemma string_append_assoc (s t u : string) :
  (s +:+ t) +:+ u = s +:+ (t +:+ u).
Proof.
  induction s as [|c s IH]; [done|].
  change (String c ((s +:+ t) +:+ u) = String c (s +:+ (t +:+ u))).
  by rewrite IH.
Qed.

(** X12. The dedupe key is computed from the text
    [voter_id|schema_version|window], so it tells two payloads apart only
    as far as that text does.  Two payloads whose [voter_id] and
    [schema_version] render to the same strings (the number 7 and the
    string "7") have one key; so have a payload with the voter [a|b] and
    the version [c] and one with the voter [a] and the version [b|c].
    Once part_000 has counted a payload, it answers any payload of the
    same key that passes validation as its duplicate, with its receipt
    id, and the store is left as it is. *)
Theorem voters_taken_for_one :
  (∀ p1 p2,
     toString (prop p1 "voter_id") = toString (prop p2 "voter_id") →
     toString (prop p1 "schema_version")
     = toString (prop p2 "schema_version") →
     dedupeKey p1 = dedupeKey p2)
  ∧ (∀ p1 p2 a b c,
       prop p1 "voter_id" = VStr (a +:+ "|" +:+ b) →
       prop p1 "schema_version" = VStr c →
       prop p2 "voter_id" = VStr a →
       prop p2 "schema_version" = VStr (b +:+ "|" +:+ c) →
       dedupeKey p1 = dedupeKey p2)
  ∧ (∀ p1 p2 now1 now2 r db db1,
       dedupeKey p1 = dedupeKey p2 →
       Part000.validate p2 = [] →
       run (submit Part000Js (Some p1) now1) db
       = (db1, Returned (accepted r)) →
       run (submit Part000Js (Some p2) now2) db1
       = (db1, Returned (duplicate r))).
Proof.
  split_and!.
  - intros p1 p2 Hvoter Hversion.
    unfold dedupeKey, fingerprint_text. by rewrite Hvoter, Hversion.
  - intros p1 p2 a b c Hv1 Hs1 Hv2 Hs2.
    unfold dedupeKey, fingerprint_text. rewrite Hv1, Hs1, Hv2, Hs2.
    cbn [toString mbind option_bind fmap option_map]. do 2 f_equal.
    by rewrite !string_append_assoc.
  - intros p1 p2 now1 now2 r db db1 Hkey Hv2 Hrun1.
    destruct (Part000.validate p1) eqn:Hv1;
      [|rewrite run_submit_invalid in Hrun1
          by (unfold validator; by rewrite Hv1);
        discriminate Hrun1].
    destruct (dedupeKey p1) as [k|] eqn:Hk1;
      [|rewrite (run_submit_unrenderable Part000Js) in Hrun1 by done;
        discriminate Hrun1].
    rewrite (run_submit_valid p1 k) in Hrun1 by done.
    unfold submitted in Hrun1.
    destruct (truthy (existing_receipt (stored_receipt k db)));
      [discriminate Hrun1|].
    destruct (region_written p1) as [g|] eqn:Hw; [|discriminate Hrun1].
    destruct (conflicts _ (submissions db)) eqn:Hc; [discriminate Hrun1|].
    apply conflicts_false in Hc as [_ Hfresh]. cbn [dedupe_key] in Hfresh.
    injection Hrun1 as <- <-.
    rewrite (run_submit_valid p2 k) by done.
    apply submitted_duplicate;
      [by apply (stored_receipt_taken_in p1 k now1 g)|].
    apply receiptId_truthy.
Qed.

(* ===================================================================== *)
(** ** The text of a digest *)
(* ===================================================================== *)

Lemma hex_digit_hex (d : Z) : is_hex (hex_digit d) = true.
Proof.
  unfold hex_digit. generalize (Z.to_nat d). intros n.
  do 16 (destruct n as [|n]; [reflexivity|]). by destruct n.
Qed.

Lemma all_hex_append (s t : string) :
  all_hex (s +:+ t) = all_hex s && all_hex t.
Proof.
  unfold all_hex. induction s as [|c s IH]; [done|].
  change (is_hex c && forallb is_hex (list_ascii_of_string (s +:+ t))
          = is_hex c && forallb is_hex (list_ascii_of_string s)
            && forallb is_hex (list_ascii_of_string t)).
  by rewrite IH, andb_assoc.
Qed.

Lemma all_hex_concat (bytes : list Z) :
  all_hex (String.concat "" (map hex2 bytes)) = true.
Proof.
  induction bytes as [|b bytes IH]; [done|].
  assert (all_hex (hex2 b) = true) as Hb.
  { unfold all_hex, hex2. cbn [list_ascii_of_string forallb].
    by rewrite !hex_digit_hex. }
  destruct bytes as [|b' bytes]; [exact Hb|].
  change (String.concat "" (map hex2 (b :: b' :: bytes)))
    with (hex2 b +:+ "" +:+ String.concat "" (map hex2 (b' :: bytes))).
  by rewrite !all_hex_append, Hb, IH.
Qed.

Lemma all_hex_substring (n : nat) (s : string) :
  all_hex s = true → all_hex (String.substring 0 n s) = true.
Proof.
  unfold all_hex. revert s.
  induction n as [|n IH]; intros [|c s]; simpl; try done.
  intros [Hc Hs]%andb_true_iff. by rewrite Hc, IH.
Qed.

(** X13. [sha256] writes a digest as 64 characters, each one of
    [0123456789abcdef]; a receipt id is [r_] followed by 8 of them, so
    that receipt ids range over 16^8 values whatever the number of
    voters. *)
Theorem digest_format (str : string) :
  String.length (sha256 str) = 64%nat
  ∧ all_hex (sha256 str) = true
  ∧ ∃ tail, receiptId str = "r_" +:+ tail
            ∧ String.length tail = 8%nat
            ∧ all_hex tail = true.
Proof.
  split_and!.
  - apply sha256_length.
  - apply all_hex_concat.
  - exists (slice0 8 (sha256 str)). split_and!.
    + done.
    + apply substring_length. rewrite sha256_length. lia.
    + apply all_hex_substring, all_hex_concat.
Qed.

(* ===================================================================== *)
(** ** One payload sent many times at once *)
(* ===================================================================== *)

(** Requests to worker.js with one validated payload: stepped, each is
    where it started or has thrown. *)
Lemma worker_pool_throws (p : value) (k : string) (nows : list string)
    (schedule : list nat) (db : DB) :
  Worker.validatePayload p = [] → dedupeKey p = Some k →
  let pool := (fun now => submit WorkerJs (Some p) now) <$> nows in
  (interleave schedule pool db).1 = db
  ∧ Forall (fun m => finished m → m = Throw D1ExecError)
           (interleave schedule pool db).2.
Proof.
  intros Hv Hk pool.
  assert (Forall (fun m => (∃ now, m = starting WorkerJs p k now)
                            ∨ m = Throw D1ExecError) pool) as Hpool.
  { apply Forall_fmap, Forall_forall. intros now _. left. exists now.
    unfold compose. by rewrite (submit_starting WorkerJs p k). }
  clearbody pool. revert pool Hpool.
  induction schedule as [|i rest IH]; intros pool Hpool; simpl.
  - split; [done|]. eapply Forall_impl; [exact Hpool|].
    by intros m [[now ->] | ->].
  - destruct (pool !! i) as [m|] eqn:Hi; [|by apply IH].
    destruct (proj1 (Forall_lookup _ _) Hpool i m Hi) as [[now ->] | ->];
      cbn [step starting Worker.ensureSchema]; simpl;
      apply IH; apply Forall_insert; auto.
Qed.

(** X14. One validated payload, whose region [bind] takes, sent by any
    number of requests at once, in a store that holds neither its dedupe
    key nor its receipt id, under any schedule that gives each request
    nine turns.  To part_000: exactly one request inserts and answers
    counted; the store is the former store with that one submission
    taken in, counted once; every other request answers duplicate with
    the same receipt id or throws on its refused insert.  To worker.js:
    every request throws, stopped by [ensureSchema], and the store is as
    it was. *)
Theorem counted_once_in_any_race (p : value) (k : string) (r : cell)
    (nows : list string) (schedule : list nat) (db0 : DB) :
  Part000.validate p = [] → dedupeKey p = Some k →
  region_written p = Some r →
  (k ∉ dedupe_key <$> submissions db0) →
  (receiptId k ∉ receipt_id <$> submissions db0) →
  nows ≠ [] →
  (∀ i, (i < List.length nows)%nat → (9 ≤ turns i schedule)%nat) →
  (∃ (w : nat) (now : string),
     (interleave schedule
        ((fun now => submit Part000Js (Some p) now) <$> nows) db0).1
     = taken_in p k now db0
     ∧ (interleave schedule
          ((fun now => submit Part000Js (Some p) now) <$> nows) db0).2 !! w
       = Some (Done (accepted (receiptId k)))
     ∧ ∀ j m, j ≠ w →
         (interleave schedule
            ((fun now => submit Part000Js (Some p) now) <$> nows) db0).2 !! j
         = Some m →
         lost k m)
  ∧ (interleave schedule
       ((fun now => submit WorkerJs (Some p) now) <$> nows) db0).1 = db0
  ∧ Forall (fun m => m = Throw D1ExecError)
           (interleave schedule
              ((fun now => submit WorkerJs (Some p) now) <$> nows) db0).2.
Proof.
  intros Hv Hkey Hw Hk Hr Hne Hfair.
  assert (∀ e, Forall finished
                 (interleave schedule
                    ((fun now => submit e (Some p) now) <$> nows) db0).2)
    as Hdone.
  { intros e.
    apply (interleave_finishes _ _ (replicate (List.length nows) 9%nat)).
    - clear. induction nows as [|now nows IH]; simpl;
        constructor; [apply submit_within|exact IH].
    - intros i n [-> Hi]%lookup_replicate. by apply Hfair. }
  split.
  - by apply (one_insert_whatever_the_interleaving p k r nows schedule db0).
  - destruct (worker_pool_throws p k nows schedule db0) as [Hdb Hpool];
      [by apply validators_agree_on_acceptance|done|].
    split; [done|].
    apply Forall_forall. intros m Hm.
    apply (proj1 (Forall_forall _ _) Hpool m Hm).
    by apply (proj1 (Forall_forall _ _) (Hdone WorkerJs) m Hm).
Qed.

(* ===================================================================== *)
(** ** What one call of [updateAggregates] adds *)
(* ===================================================================== *)

Lemma tallied_elsewhere (p : value) (agg : gmap string Z) (key : string) :
  key ∉ ledger_keys.*1 → tallied p agg !! key = agg !! key.
Proof.
  intros Hkey. unfold ledger_keys in Hkey. cbn [fmap list_fmap fst] in Hkey.
  repeat (apply not_elem_of_cons in Hkey as [? Hkey]).
  unfold tallied, inc_row.
  destruct (approve_of p), (prefer_of p); cbn [andb negb];
    by rewrite ?lookup_insert_ne.
Qed.

(** X15. [updateAggregates] of either entry point, on any payload and any
    store: it leaves [submissions] as it is; it adds 1 to
    [total_submissions_counted], 1 to each of the two yes counters whose
    answer JavaScript takes for true, 1 to [both_selected] when both are,
    1 to [neither_selected] when none is, and leaves every other row of
    [aggregates] as it is.  Where [bind] takes the region of the payload
    it returns, having added, in [region_counts], 1 to the total of what
    the column holds for that region and the approval to its
    [approve_yes], the counts of every other region left as they are.
    Where [bind] refuses the region, as it does an object, it throws
    with the global counters incremented and [region_counts] as it was.
    The two statements of worker.js on [region_counts] come to the one
    upsert of part_000.  A payload with no [ballot_track_a] counts as
    neither; one without a region counts under "Unknown". *)
Theorem one_tally (e : entry) (p : value) (db : DB) :
  run (tallying WorkerJs p) db = run (tallying Part000Js p) db
  ∧ submissions (run (tallying e p) db).1 = submissions db
  ∧ counter (run (tallying e p) db).1 "total_submissions_counted"
    = counter db "total_submissions_counted" + 1
  ∧ counter (run (tallying e p) db).1 "approve_interim_yes"
    = counter db "approve_interim_yes" + yes (approve_of p)
  ∧ counter (run (tallying e p) db).1 "prefer_open_contest_yes"
    = counter db "prefer_open_contest_yes" + yes (prefer_of p)
  ∧ counter (run (tallying e p) db).1 "both_selected"
    = counter db "both_selected" + yes (approve_of p && prefer_of p)
  ∧ counter (run (tallying e p) db).1 "neither_selected"
    = counter db "neither_selected"
      + yes (negb (approve_of p) && negb (prefer_of p))
  ∧ (∀ key, key ∉ ledger_keys.*1 →
            aggregates (run (tallying e p) db).1 !! key
            = aggregates db !! key)
  ∧ match region_written p with
    | Some r =>
        (run (tallying e p) db).2 = Returned tt
        ∧ (∀ g, total_at g (region_counts (run (tallying e p) db).1)
                = total_at g (region_counts db) + yes (cell_eqb r g))
        ∧ (∀ g, approve_at g (region_counts (run (tallying e p) db).1)
                = approve_at g (region_counts db)
                  + yes (cell_eqb r g && approve_of p))
    | None =>
        (run (tallying e p) db).2 = Threw D1TypeError
        ∧ region_counts (run (tallying e p) db).1 = region_counts db
    end
  ∧ (truthy (prop p "ballot_track_a") = false →
     approve_of p = false ∧ prefer_of p = false)
  ∧ (truthy (prop (prop p "context") "region") = false →
     region_written p = Some (CellText "Unknown"))
  ∧ (∀ s, prop (prop p "context") "region" = VStr s → s ≠ "" →
          region_written p = Some (CellText s))
  ∧ (∀ fields, prop (prop p "context") "region" = VObj fields →
               region_written p = None).
Proof.
  rewrite !run_tallying.
  assert (submissions (tallied_db p db).1 = submissions db
          ∧ aggregates (tallied_db p db).1 = tallied p (aggregates db))
    as [Hsubs Hagg].
  { unfold tallied_db. by destruct (region_written p). }
  unfold counter. rewrite Hsubs, Hagg.
  split_and!.
  - done.
  - done.
  - apply tallied_total.
  - apply tallied_approve.
  - apply tallied_prefer.
  - apply tallied_both.
  - apply tallied_neither.
  - intros key Hkey. by apply tallied_elsewhere.
  - unfold tallied_db. destruct (region_written p) as [r|];
      cbn [fst snd region_counts]; [|done].
    split_and!; [done| |].
    + intros g. apply region_row_upsert.
    + intros g. unfold region_tallied.
      rewrite (proj2 (region_row_upsert _ _ _ _)). f_equal.
      by destruct (cell_eqb r g), (approve_of p).
  - intros Hballot. unfold approve_of, prefer_of. rewrite !chain_prop.
    by destruct (prop p "ballot_track_a").
  - intros Hregion. unfold region_written. rewrite region_of_plain.
    unfold or_else. by rewrite Hregion.
  - intros s Hs Hne. rewrite (region_written_string p s)
      by (by rewrite !chain_prop).
    by destruct (String.eqb_spec s "").
  - intros fields Hs. apply (region_written_object p fields).
    by rewrite !chain_prop.
Qed.

(* ===================================================================== *)
(** ** The ledger is a function of the rows *)
(* ===================================================================== *)





End Storage.

(* ===================================================================== *)
(** ** The scenarios, evaluated *)
(* ===================================================================== *)

#[global] Existing Instance rendering_of_examples.

(** The digest on the test vectors of the standard. *)
Example sha256_empty :
  sha256 ""
  = "e3b0c44298fc1c149afbf4c8996fb92427ae41e4649b934ca495991b7852b855".
Proof. vm_compute. reflexivity. Qed.

Example sha256_abc :
  sha256 "abc"
  = "ba7816bf8f01cfea414140de5dae2223b00361a396177a9cb410ff61f20015ad".
Proof. vm_compute. reflexivity. Qed.

Example sha256_two_blocks :
  sha256 "abcdbcdecdefdefgefghfghighijhijkijkljklmklmnlmnomnopnopq"
  = "248d6a61d20638b8e5c026930c3e6039a33ce45964ff2167f6ecedd419db06c1".
Proof. vm_compute. reflexivity. Qed.

(** The ballot of voter v1 sent to part_000: counted, then duplicate with
    the same receipt; then what the ledger holds. *)
Example scenario_v1 :
  run (submit Part000Js (Some ballot_v1) "2026-01-10T12:00:01.000Z") empty_db
  = (store_v1, Returned (accepted "r_5080479f"))
  ∧ run (submit Part000Js (Some ballot_v1) "2026-01-10T12:00:02.000Z") store_v1
    = (store_v1, Returned (duplicate "r_5080479f"))
  ∧ counter store_v1 "total_submissions_counted" = 1
  ∧ counter store_v1 "approve_interim_yes" = 1
  ∧ counter store_v1 "prefer_open_contest_yes" = 0
  ∧ region_counts store_v1 = [RegionCount (CellText "CA") 1 1]
  ∧ Part000.rate 1 1 = Some 100%float.
Proof. repeat split; vm_compute; reflexivity. Qed.

(** The same ballot sent to worker.js: [ensureSchema] stops the handler
    and the [catch] of [fetch] answers 500. *)
Example scenario_v1_worker :
  run (submit WorkerJs (Some ballot_v1) "2026-01-10T12:00:01.000Z") empty_db
  = (empty_db, Threw D1ExecError)
  ∧ serve WorkerJs (Request "POST" "/api/submit" (Some ballot_v1)) true
          "2026-01-10T12:00:01.000Z" empty_db
    = (empty_db,
       Returned (Http 500 WorkerHttp.jsonHeaders (SentUnhandled D1ExecError))).
Proof. split; vm_compute; reflexivity. Qed.

(** The template literal throws on a [voter_id] without string rendering. *)
Example unrenderable_voter_throws :
  Worker.validatePayload ballot_unrenderable = []
  ∧ run (submit WorkerJs (Some ballot_unrenderable) "2026-01-10T12:00:01.000Z")
        empty_db
    = (empty_db, Threw TypeError).
Proof. split; vm_compute; reflexivity. Qed.

(** A region that is an object passes validation and is refused by
    [bind]; a region that is a number is stored as the text that the
    column holds for it. *)
Example regions_that_are_not_strings :
  Part000.validate ballot_region_object = []
  ∧ run (submit Part000Js (Some ballot_region_object)
                "2026-01-10T12:00:01.000Z") empty_db
    = (empty_db, Threw D1TypeError)
  ∧ Part000.validate ballot_region_number = []
  ∧ region <$> submissions
                 (run (submit Part000Js (Some ballot_region_number)
                              "2026-01-10T12:00:01.000Z") empty_db).1
    = [CellText "5.0"].
Proof. repeat split; vm_compute; reflexivity. Qed.

(** The ledger invariant on the store that holds the ballot of voter v1. *)
Lemma ledger_consistency_witness :
  counter store_v1 "both_selected" + counter store_v1 "neither_selected"
  + tally chose_exactly_one (submissions store_v1)
  = counter store_v1 "total_submissions_counted"
  ∧ sum_totals (region_counts store_v1)
    = counter store_v1 "total_submissions_counted"
  ∧ counter store_v1 "total_submissions_counted"
    = Z.of_nat (List.length (remove_dups (dedupe_key <$> submissions store_v1))).
Proof.
  apply (ledger_consistency store_v1). apply reach_submit, reach_empty.
Defined.

(** On the ballot of voter-178377, sent twice to the store that holds
    the ballot of voter-158303: the key is new, the receipt id is the
    stored one. *)
Lemma idempotent_counting_witness :
  submit_all Part000Js ballot_b
             ["2026-01-10T12:05:00.000Z"; "2026-01-10T12:06:00.000Z"] store_a
  = (store_a, [Threw ConstraintFailed; Threw ConstraintFailed])
  ∧ submit_all WorkerJs ballot_b
               ["2026-01-10T12:05:00.000Z"; "2026-01-10T12:06:00.000Z"] store_a
    = (store_a, [Threw D1ExecError; Threw D1ExecError]).
Proof.
  destruct (idempotent_counting ballot_b
              "e00c2564e3bc8d62a3e0479e5ed38d3b6100a85032d484e442d2b8ccb9d3a913"
              ["2026-01-10T12:05:00.000Z"; "2026-01-10T12:06:00.000Z"] store_a)
    as (_ & Hpart000 & _ & Hworker).
  - vm_compute. reflexivity.
  - vm_compute. reflexivity.
  - intros Hin. apply (bool_decide_pack _) in Hin. vm_compute in Hin. elim Hin.
  - discriminate.
  - split; [|exact Hworker].
    apply (Hpart000 (CellText "CA")); [reflexivity|]. listed.
Defined.

(** The store of the witness is one that part_000 builds, and the ballot
    passes validation. *)
Example receipts_collide :
  reachable store_a
  ∧ consistent store_a
  ∧ Part000.validate ballot_b = []
  ∧ receipt_id <$> submissions store_a = ["r_189dfa1c"]
  ∧ receiptId "e00c2564e3bc8d62a3e0479e5ed38d3b6100a85032d484e442d2b8ccb9d3a913"
    = "r_189dfa1c"
  ∧ ¬ counted_once Part000Js store_a ballot_b ["2026-01-10T12:05:00.000Z"].
Proof.
  assert (reachable store_a) as Hreach by apply reach_submit, reach_empty.
  split; [exact Hreach|].
  split; [exact (reachable_consistent _ Hreach)|].
  split; [vm_compute; reflexivity|].
  split; [vm_compute; reflexivity|].
  split; [vm_compute; reflexivity|].
  intros (row & Hout & _).
  assert (submit_all Part000Js ballot_b ["2026-01-10T12:05:00.000Z"] store_a
          = (store_a, [Threw ConstraintFailed])) as Hrun
    by (vm_compute; reflexivity).
  rewrite Hrun in Hout. discriminate Hout.
Qed.

(** On the ballot of voter v1, sent again while the first request has
    inserted its row and not yet counted it. *)
Lemma duplicate_leaves_store_witness :
  aggregates store_lagging = ∅
  ∧ (∃ resp,
       run (submit Part000Js (Some ballot_v1) "2026-01-11T08:00:00.000Z")
           store_lagging
       = (store_lagging, Returned resp)
       ∧ status resp = 200
       ∧ ok (content resp) = true
       ∧ content resp
         = Receipt "r_5080479f" false "Duplicate detected (already counted).")
  ∧ run (submit WorkerJs (Some ballot_v1) "2026-01-11T08:00:00.000Z")
        store_lagging
    = (store_lagging, Threw D1ExecError).
Proof.
  split; [vm_compute; reflexivity|].
  assert (submissions store_lagging
          = [Submission "r_5080479f"
               "3b90893ec3071c364f721426d543910942e4b633446521ab133337404f8f1885"
               "2026-01-10T12:00:01.000Z" (CellText "CA") ballot_v1]) as Hrows
    by (vm_compute; reflexivity).
  apply (duplicate_leaves_store ballot_v1
           "3b90893ec3071c364f721426d543910942e4b633446521ab133337404f8f1885"
           "2026-01-11T08:00:00.000Z" store_lagging
           (Submission "r_5080479f"
              "3b90893ec3071c364f721426d543910942e4b633446521ab133337404f8f1885"
              "2026-01-10T12:00:01.000Z" (CellText "CA") ballot_v1)).
  - vm_compute. reflexivity.
  - vm_compute. reflexivity.
  - rewrite Hrows. apply NoDup_singleton.
  - rewrite Hrows. apply list_elem_of_here.
  - reflexivity.
  - discriminate.
Defined.

(** On the ballot of voter v1 and the same voter's other ballot. *)
Lemma same_voter_is_duplicate_witness :
  dedupeKey ballot_v1 = dedupeKey ballot_v1_changed
  ∧ run (submit Part000Js (Some ballot_v1_changed) "2026-01-12T09:00:00.000Z")
        store_v1
    = (store_v1, Returned (duplicate "r_5080479f"))
  ∧ (∃ row, submissions store_v1 = submissions empty_db ++ [row]
            ∧ receipt_id row = "r_5080479f" ∧ payload_json row = ballot_v1
            ∧ region_written ballot_v1 = Some (region row))
  ∧ run (submit WorkerJs (Some ballot_v1_changed) "2026-01-12T09:00:00.000Z")
        store_v1
    = (store_v1, Threw D1ExecError).
Proof.
  apply (same_voter_is_duplicate ballot_v1 ballot_v1_changed
           "2026-01-10T12:00:01.000Z" "2026-01-12T09:00:00.000Z"
           "r_5080479f" empty_db store_v1).
  - reflexivity.
  - reflexivity.
  - vm_compute. reflexivity.
  - vm_compute. reflexivity.
Defined.

(** On a payload that holds its [voter_id] only. *)
Lemma rejection_before_any_write_witness :
  run (submit WorkerJs (Some (VObj [("voter_id", VStr "v1")])) "t") store_v1
  = (store_v1,
     Returned (Response 422 (Failure "VALIDATION_FAILED"
       (Some ["Missing schema_version"; "Missing created_utc";
              "Missing context object"; "Missing context.region";
              "Missing context.country_or_territory"])))).
Proof.
  apply (proj2 (rejection_before_any_write WorkerJs "t" store_v1)
               (VObj [("voter_id", VStr "v1")])).
  vm_compute. discriminate.
Defined.

(** On the ballot of voter v1, counted and then answered again. *)
Lemma receipt_is_determined_witness :
  dedupeKey ballot_v1
  = Some (sha256 ("v1" +:+ "|" +:+ "1" +:+ "|" +:+ windowId))
  ∧ ∃ k c1 c2 m1 m2,
      dedupeKey ballot_v1 = Some k
      ∧ content (accepted "r_5080479f") = Receipt (receiptId k) c1 m1
      ∧ content (duplicate "r_5080479f") = Receipt (receiptId k) c2 m2.
Proof.
  destruct receipt_is_determined as (Hkey & _ & _ & Hsame). split.
  - apply (Hkey ballot_v1 "v1" "1"); reflexivity.
  - apply (Hsame Part000Js Part000Js ballot_v1
             "2026-01-10T12:00:01.000Z" "2026-01-11T08:00:00.000Z"
             empty_db store_v1 store_v1 store_v1).
    + apply consistent_empty.
    + apply reachable_consistent, reach_submit, reach_empty.
    + vm_compute. reflexivity.
    + vm_compute. reflexivity.
    + reflexivity.
    + reflexivity.
Defined.

(** On a payload that holds its [voter_id] only, and on a string. *)
Lemma entry_points_compared_witness :
  Part000.validate (VObj [("voter_id", VStr "v1")])
  = without_context_message
      (Worker.validatePayload (VObj [("voter_id", VStr "v1")]))
  ∧ Worker.validatePayload (VStr "ballot") = ["Payload must be JSON object"].
Proof.
  destruct entry_points_compared as (_ & Hfiltered & Hscalar & _). split.
  - apply Hfiltered. reflexivity.
  - apply Hscalar. reflexivity.
Defined.

(** C9 as stated fails on the empty object: [validatePayload] reports six
    violations, [validate] five, and the two handlers answer with different
    bodies. *)
Lemma entry_points_compared_counterexample :
  Worker.validatePayload (VObj [])
  = ["Missing schema_version"; "Missing created_utc"; "Missing voter_id";
     "Missing context object"; "Missing context.region";
     "Missing context.country_or_territory"]
  ∧ Part000.validate (VObj [])
    = ["Missing schema_version"; "Missing created_utc"; "Missing voter_id";
       "Missing context.region"; "Missing context.country_or_territory"]
  ∧ Worker.validatePayload (VObj []) ≠ Part000.validate (VObj [])
  ∧ (run (Worker.handleSubmit (Some (VObj [])) "t") empty_db).2
    ≠ (run (Part000.handleSubmit (Some (VObj [])) "t") empty_db).2.
Proof.
  split; [reflexivity|]. split; [reflexivity|]. split.
  - vm_compute. discriminate.
  - vm_compute. discriminate.
Qed.

(** On a payload that holds its [voter_id] only, and on a number. *)
Lemma validation_collects_all_witness :
  message ContextRegion ∈ Part000.validate (VObj [("voter_id", VStr "v1")])
  ∧ message CreatedUtc ∈ Worker.validatePayload (VObj [("voter_id", VStr "v1")])
  ∧ Worker.validatePayload (VNum "42") = ["Payload must be JSON object"].
Proof.
  split_and!.
  - apply (validation_collects_all (VObj [("voter_id", VStr "v1")]));
      [listed | reflexivity].
  - apply (validation_collects_all (VObj [("voter_id", VStr "v1")]));
      reflexivity.
  - apply (validation_collects_all (VNum "42")). reflexivity.
Defined.

(** C4 as stated fails on [null]: every required field is missing and
    [validatePayload] returns one message, which names none of them. *)
Lemma validation_collects_all_counterexample :
  (∀ r, r ∈ required_fields → meets VNull r = false)
  ∧ Worker.validatePayload VNull = ["Payload must be JSON object"]
  ∧ ¬ validation_complete Worker.validatePayload VNull.
Proof.
  split_and!.
  - intros r _. by destruct r.
  - reflexivity.
  - intros [_ Hall].
    assert (message SchemaVersion ∈ Worker.validatePayload VNull) as Hin.
    { apply Hall; [listed | reflexivity]. }
    not_listed Hin.
Qed.


(** On the store that holds the ballot of voter v1. *)
Lemma ledger_bounds_witness :
  counter store_v1 "approve_interim_yes"
  + counter store_v1 "prefer_open_contest_yes"
  - counter store_v1 "both_selected" + counter store_v1 "neither_selected"
  = counter store_v1 "total_submissions_counted"
  ∧ 0 ≤ counter store_v1 "both_selected" ≤ counter store_v1 "approve_interim_yes"
  ∧ counter store_v1 "both_selected"
    ≤ counter store_v1 "prefer_open_contest_yes"
  ∧ counter store_v1 "approve_interim_yes"
    ≤ counter store_v1 "total_submissions_counted"
  ∧ counter store_v1 "prefer_open_contest_yes"
    ≤ counter store_v1 "total_submissions_counted"
  ∧ 0 ≤ counter store_v1 "neither_selected"
  ∧ sum_approve (region_counts store_v1)
    = counter store_v1 "approve_interim_yes"
  ∧ Forall (region_backed (submissions store_v1)) (region_counts store_v1).
Proof.
  apply (ledger_bounds store_v1). apply reach_submit, reach_empty.
Defined.

(** On the store that holds the ballot of voter v1. *)
Lemma report_of_built_store_witness :
  (∃ rep,
     run (results Part000Js "2026-01-21T00:00:00.000Z") store_v1
     = (store_v1, Returned rep)
     ∧ total_submissions_counted (ballot_of rep)
       = Z.of_nat (List.length (submissions store_v1))
     ∧ (approval_rate_percent (ballot_of rep) = None
        ↔ submissions store_v1 = [])
     ∧ (prefer_open_rate_percent (ballot_of rep) = None
        ↔ submissions store_v1 = [])
     ∧ Forall (fun r => 1 ≤ submissions_counted r
                        ∧ approve_rate_percent r ≠ None)
              (regional_balance rep)
     ∧ sum_counted (regional_balance rep)
       = total_submissions_counted (ballot_of rep))
  ∧ run (results WorkerJs "2026-01-21T00:00:00.000Z") store_v1
    = (store_v1, Threw D1ExecError).
Proof.
  apply (report_of_built_store "2026-01-21T00:00:00.000Z" store_v1).
  - apply reach_submit, reach_empty.
  - vm_compute. discriminate.
Defined.

(** The report of part_000 on a ledger of 400 ballots of which 203
    approve. *)
Example report_of_ledger_400 :
  run (Part000.handleResults "2026-01-21T00:00:00.000Z") ledger_400
  = (ledger_400,
     Returned
       (Report "2026-01-21T00:00:00.000Z"
          (Ballot 400 203 0 0 197 (Some 50.7%float) (Some 0%float))
          [Regional (CellText "CA") 400 (Some 50.7%float)])).
Proof. vm_compute. reflexivity. Qed.

(** On a request that no route takes. *)
Lemma answers_carry_cors_witness :
  has_cors (Http 404 WorkerHttp.jsonHeaders (SentProblem "NOT_FOUND" None)).
Proof.
  apply (answers_carry_cors WorkerJs (Request "GET" "/api/submit" None) true
           "2026-01-10T12:00:00.000Z" empty_db empty_db).
  reflexivity.
Defined.

(** On the ballot of voter v1, posted to worker.js. *)
Lemma transports_compared_witness :
  (serve WorkerJs (Request "POST" "/api/submit" (Some ballot_v1))
         true "2026-01-10T12:00:00.000Z" empty_db).2
  = Returned (Http 500 WorkerHttp.jsonHeaders (SentUnhandled D1ExecError)).
Proof.
  apply (transports_compared
           (Request "POST" "/api/submit" (Some ballot_v1))
           "2026-01-10T12:00:00.000Z" empty_db); [discriminate|].
  right. split_and!; [reflexivity | reflexivity |].
  exists ballot_v1. eexists. split_and!; [reflexivity | reflexivity |].
  vm_compute. reflexivity.
Defined.

(** On a body that does not parse. *)
Lemma without_binding_witness :
  serve WorkerJs (Request "POST" "/api/submit" None) false
        "2026-01-10T12:00:00.000Z" store_v1
  = (store_v1,
     Returned (Http 500 WorkerHttp.jsonHeaders
                 (SentProblem "DB_BINDING_MISSING"
                    (Some "Add D1 binding named 'DB' in Worker settings.")))).
Proof.
  apply (without_binding (Request "POST" "/api/submit" None)
           "2026-01-10T12:00:00.000Z" store_v1).
  discriminate.
Defined.



(** On the voter [ann|1] of version 2 and the voter [ann] of version
    [1|2]. *)
Lemma voters_taken_for_one_witness :
  dedupeKey (ballot_payload "ann|1" "2" (VStr "CA") true false)
  = dedupeKey (ballot_payload "ann" "1|2" (VStr "NY") false true).
Proof.
  destruct voters_taken_for_one as (_ & Hsplit & _).
  by apply (Hsplit _ _ "ann" "1" "2").
Defined.

(** On the ballot of voter v1, sent twice at once. *)
Lemma counted_once_in_any_race_witness :
  (∃ (w : nat) (now : string),
     (interleave taking_turns
        ((fun now => submit Part000Js (Some ballot_v1) now)
           <$> ["2026-01-10T12:00:01.000Z"; "2026-01-10T12:00:01.002Z"])
        empty_db).1
     = taken_in ballot_v1
         "3b90893ec3071c364f721426d543910942e4b633446521ab133337404f8f1885"
         now empty_db
     ∧ (interleave taking_turns
          ((fun now => submit Part000Js (Some ballot_v1) now)
             <$> ["2026-01-10T12:00:01.000Z"; "2026-01-10T12:00:01.002Z"])
          empty_db).2 !! w
       = Some (Done (accepted (receiptId
           "3b90893ec3071c364f721426d543910942e4b633446521ab133337404f8f1885")))
     ∧ ∀ j m, j ≠ w →
         (interleave taking_turns
            ((fun now => submit Part000Js (Some ballot_v1) now)
               <$> ["2026-01-10T12:00:01.000Z"; "2026-01-10T12:00:01.002Z"])
            empty_db).2 !! j
         = Some m →
         lost "3b90893ec3071c364f721426d543910942e4b633446521ab133337404f8f1885"
              m)
  ∧ (interleave taking_turns
       ((fun now => submit WorkerJs (Some ballot_v1) now)
          <$> ["2026-01-10T12:00:01.000Z"; "2026-01-10T12:00:01.002Z"])
       empty_db).1 = empty_db
  ∧ Forall (fun m => m = Throw D1ExecError)
           (interleave taking_turns
              ((fun now => submit WorkerJs (Some ballot_v1) now)
                 <$> ["2026-01-10T12:00:01.000Z"; "2026-01-10T12:00:01.002Z"])
              empty_db).2.
Proof.
  apply (counted_once_in_any_race ballot_v1
           "3b90893ec3071c364f721426d543910942e4b633446521ab133337404f8f1885"
           (CellText "CA")
           ["2026-01-10T12:00:01.000Z"; "2026-01-10T12:00:01.002Z"]
           taking_turns
           empty_db).
  - vm_compute. reflexivity.
  - vm_compute. reflexivity.
  - reflexivity.
  - apply not_elem_of_nil.
  - apply not_elem_of_nil.
  - discriminate.
  - intros [|[|i]] Hi; simpl in *; lia.
Defined.

(** [updateAggregates] on a payload whose region is an object: the
    global counters are incremented and the call throws. *)
Example tally_of_object_region :
  run (tallying Part000Js ballot_region_object) empty_db
  = (MkDB [] {[ "total_submissions_counted" := 1;
                "approve_interim_yes" := 1 ]} [],
     Threw D1TypeError).
Proof. vm_compute. reflexivity. Qed.

